(** * note.com search-result exporter: the content script, embedded and verified

    A shallow embedding of [content_script.js]: the JSON tree locator
    ([findNotesArray]), the field normalizer ([extractArticleFromNote] and its
    helpers), the API harvester ([fetchFromAPI]), the scroll collector
    ([autoScrollAndCollect]), the rating enricher ([fetchLikeRating],
    [findRatingInObject]), the CSV encoder ([escapeCsvField], [downloadCSV])
    and the message listener.

    Conventions of the embedding.
    - A JavaScript string is a [string]: the sequence of its UTF-8 bytes.
    - A JavaScript number is a [number]: NaN, the two infinities, or a finite
      decimal [m * 10^e], which stands for the binary64 value that reads
      back from it.  The program never does arithmetic on the numbers it
      reads: it converts, tests and prints them.  The conversions from text
      ([Number], [parseInt]) round to the nearest binary64 value, overflow to
      an infinity, and answer in the digits [String] prints.  [-0] is
      identified with [0]: every test the program applies ([||], [> 0],
      [isNaN], [String]) treats them alike.
    - [String(v)], [Number(v)] and a template literal throw a TypeError on a
      decoded object that has a property of its own named [toString] (no
      decoded value is callable), and on an array that holds one:
      [ToString] and [ToNumber] give the result of the conversion when it
      returns, [ToPrimitive_throws] tells when it does not, and every call
      of the program that converts is an [outcome].
    - A value decoded by [JSON.parse] is a [JSON]; an object lists its
      properties in the order [Object.entries] enumerates them.  The result
      of reading a property is an [option JSON], [None] being [undefined].
    - The network, the rendered document and the page address are the
      environment: [fetch] answers from a script of responses, and every
      request is logged in the machine state.  A scan of the document
      ([collectArticlesFromDom]) is answered by the environment too: the
      selectors it runs belong to the browser.
    - A loop that the source does not bound takes fuel, and answers [None]
      when the fuel runs out; that it returns is then a theorem.  Waiting
      ([sleep]) and logging (the console, the once-only flags of
      [fetchLikeRating]) are left out. *)

From Stdlib Require Import String Ascii List ZArith Lia Bool Arith DecimalString.
Import ListNotations.

Local Open Scope string_scope.
Local Open Scope list_scope.
Local Open Scope Z_scope.

(** ** Characters and strings *)

Definition dquote : ascii := "034"%char.
Definition comma : ascii := ","%char.
Definition newline : ascii := "010"%char.

Definition is_digit (c : ascii) : bool :=
  let n := nat_of_ascii c in (48 <=? n)%nat && (n <=? 57)%nat.

Definition is_alnum (c : ascii) : bool :=
  let n := nat_of_ascii c in
  ((48 <=? n)%nat && (n <=? 57)%nat)
  || ((65 <=? n)%nat && (n <=? 90)%nat)
  || ((97 <=? n)%nat && (n <=? 122)%nat).

(** [str.includes(c)] for a one-character needle. *)
Fixpoint includes (c : ascii) (s : string) : bool :=
  match s with
  | EmptyString => false
  | String d rest => Ascii.eqb c d || includes c rest
  end.

(** [str.startsWith(p)]. *)
Definition startsWith (p s : string) : bool := String.prefix p s.

(** [xs.join(sep)]. *)
Fixpoint join (sep : string) (xs : list string) : string :=
  match xs with
  | [] => EmptyString
  | [x] => x
  | x :: rest => (x ++ sep ++ join sep rest)%string
  end.

Fixpoint span (p : ascii -> bool) (l : list ascii) : list ascii * list ascii :=
  match l with
  | c :: rest =>
      if p c then let (a, b) := span p rest in (c :: a, b) else ([], l)
  | [] => ([], [])
  end.

Fixpoint drop_while (p : ascii -> bool) (l : list ascii) : list ascii :=
  match l with
  | c :: rest => if p c then drop_while p rest else l
  | [] => []
  end.

Definition byte_is (n : nat) (c : ascii) : bool := (nat_of_ascii c =? n)%nat.

Definition byte_in (lo hi : nat) (c : ascii) : bool :=
  let n := nat_of_ascii c in (lo <=? n)%nat && (n <=? hi)%nat.

(** The number of bytes of the white space character that starts a text in
    UTF-8, 0 when the text starts with none: the class [\s] of regular
    expressions, which is also the white space [Number], [parseInt] and
    [trim] strip (WhiteSpace and LineTerminator). *)
Definition ws_length (l : list ascii) : nat :=
  match l with
  | c1 :: r1 =>
      if byte_in 9 13 c1 || byte_is 32 c1 then 1
      else
        match r1 with
        | c2 :: r2 =>
            if byte_is 194 c1 && byte_is 160 c2 then 2           (* U+00A0 *)
            else
              match r2 with
              | c3 :: _ =>
                  if (byte_is 225 c1 && byte_is 154 c2 && byte_is 128 c3)
                                                                  (* U+1680 *)
                     || (byte_is 226 c1 && byte_is 128 c2
                         && (byte_in 128 138 c3                   (* U+2000-200A *)
                             || byte_in 168 169 c3                (* U+2028-2029 *)
                             || byte_is 175 c3))                  (* U+202F *)
                     || (byte_is 226 c1 && byte_is 129 c2 && byte_is 159 c3)
                                                                  (* U+205F *)
                     || (byte_is 227 c1 && byte_is 128 c2 && byte_is 128 c3)
                                                                  (* U+3000 *)
                     || (byte_is 239 c1 && byte_is 187 c2 && byte_is 191 c3)
                                                                  (* U+FEFF *)
                  then 3 else 0
              | [] => 0
              end
        | [] => 0
        end
  | [] => 0
  end.

(** A text without the white space it starts with. *)
Fixpoint skip_ws (l : list ascii) : list ascii :=
  match l with
  | [] => []
  | _ :: r1 =>
      match ws_length l, r1 with
      | 1%nat, _ => skip_ws r1
      | 2%nat, _ :: r2 => skip_ws r2
      | 3%nat, _ :: _ :: r3 => skip_ws r3
      | _, _ => l
      end
  end.

(** A text without the white space it ends with.  No byte inside a
    character of several bytes starts a white space character, so the test
    may be made at every byte. *)
Fixpoint trim_end (l : list ascii) : list ascii :=
  match l with
  | [] => []
  | c :: rest =>
      match skip_ws l with
      | [] => []
      | _ => c :: trim_end rest
      end
  end.

(** The text between the white space [Number] strips at both ends. *)
Definition trim (l : list ascii) : list ascii := trim_end (skip_ws l).

(** ** Numbers *)

Inductive number : Type :=
| NaN
| Infinity (negative : bool)
| Finite (m e : Z).          (* m * 10^e *)

Definition zero : number := Finite 0 0.
Definition of_Z (z : Z) : number := Finite z 0.
Definition of_nat (n : nat) : number := Finite (Z.of_nat n) 0.

Definition isNaN (n : number) : bool :=
  match n with NaN => true | _ => false end.

Definition is_zero (n : number) : bool :=
  match n with Finite 0 _ => true | _ => false end.

(** [n > 0]. *)
Definition gt0 (n : number) : bool :=
  match n with
  | Finite (Zpos _) _ => true
  | Infinity false => true
  | _ => false
  end.

(** [n < 0]. *)
Definition lt0 (n : number) : bool :=
  match n with
  | Finite (Zneg _) _ => true
  | Infinity true => true
  | _ => false
  end.

(** [Number.isInteger(n)]. *)
Definition is_integer (n : number) : bool :=
  match n with
  | Finite m e => (0 <=? e) || (m mod 10 ^ (- e) =? 0)
  | _ => false
  end.

(** What the data model calls a non-negative integer. *)
Definition nonneg_integer (n : number) : bool := is_integer n && negb (lt0 n).

(** Truthiness of a number: [NaN] and [0] are falsy. *)
Definition truthy_num (n : number) : bool := negb (isNaN n || is_zero n).

(** [a || b] on numbers. *)
Definition or_num (a b : number) : number := if truthy_num a then a else b.

(** *** Decimal digits *)

Definition digit_val (c : ascii) : Z := Z.of_nat (nat_of_ascii c) - 48.

Definition hex_val (c : ascii) : option Z :=
  let n := nat_of_ascii c in
  if is_digit c then Some (Z.of_nat n - 48)
  else if ((65 <=? n)%nat && (n <=? 70)%nat) then Some (Z.of_nat n - 55)
  else if ((97 <=? n)%nat && (n <=? 102)%nat) then Some (Z.of_nat n - 87)
  else None.

Definition digits_value (ds : list ascii) : Z :=
  fold_left (fun acc d => 10 * acc + digit_val d) ds 0.

(** The value of a non-empty run of digits in the given radix; [None] on an
    empty run or on a character that is not a digit of that radix. *)
Definition radix_value (radix : Z) (ds : list ascii) : option Z :=
  match ds with
  | [] => None
  | _ =>
      fold_left
        (fun acc d =>
           match acc, hex_val d with
           | Some a, Some v => if v <? radix then Some (radix * a + v) else None
           | _, _ => None
           end)
        ds (Some 0)
  end.

Definition digits_of_N (n : N) : list ascii :=
  list_ascii_of_string (NilZero.string_of_uint (N.to_uint n)).

(** *** Binary64

    The Number value of a decimal is the binary64 value nearest to it, ties
    going to the even significand, an infinity beyond the range; [String]
    prints a Number with the fewest digits that read back as the same
    value.  A [number] is kept in that printed form: [Finite m 0] for an
    integer, and else [Finite m e] with [e < 0] and no trailing zero in
    [m]. *)

(** [num / den / 2^k] as a fraction. *)
Definition scale_num (num k : Z) : Z := if k <? 0 then num * 2 ^ (- k) else num.
Definition scale_den (den k : Z) : Z := if k <? 0 then den else den * 2 ^ k.

(** [x * 10^e] as a fraction. *)
Definition dec_num (x e : Z) : Z := if e <? 0 then x else x * 10 ^ e.
Definition dec_den (e : Z) : Z := if e <? 0 then 10 ^ (- e) else 1.

(** The binary64 value nearest to [num / den] (both positive), ties to even:
    [(q, k)] stands for [q * 2^k], with [2^52 <= q < 2^53] or, for a
    subnormal, [k = -1074]; [None] is an overflow. *)
Definition round_binary64 (num den : Z) : option (Z * Z) :=
  let l := Z.log2 num - Z.log2 den in
  let l := if scale_num num l <? scale_den den l then l - 1 else l in
  let k := Z.max (l - 52) (-1074) in
  let n := scale_num num k in
  let d := scale_den den k in
  let q := n / d in
  let r := n mod d in
  let q := if (d <? 2 * r) || ((d =? 2 * r) && Z.odd q) then q + 1 else q in
  let (q, k) := if q =? 2 ^ 53 then (2 ^ 52, k + 1) else (q, k) in
  if 971 <? k then None else Some (q, k).

Definition same_double (a b : option (Z * Z)) : bool :=
  match a, b with
  | Some (q, k), Some (q', k') => (q =? q') && (k =? k')
  | _, _ => false
  end.

(** Whether [num / den >= 10^e]. *)
Definition ge_pow10 (num den e : Z) : bool := dec_num den e <=? num * dec_den e.

(** [floor (log10 (num / den))]. *)
Definition floor_log10 (num den : Z) : Z :=
  let e0 := ((Z.log2 num - Z.log2 den - 1) * 1233) / 4096 - 1 in
  if ge_pow10 num den (e0 + 3) then e0 + 3
  else if ge_pow10 num den (e0 + 2) then e0 + 2
  else if ge_pow10 num den (e0 + 1) then e0 + 1
  else e0.

(** The decimal [s * 10^x] of [digits] significant digits nearest to
    [num / den] among those that round to the same binary64 value, if there
    is one. *)
Definition decimal_of_length (num den e10 : Z) (digits : nat)
  : option (Z * Z) :=
  let x := e10 - Z.of_nat digits + 1 in
  let n := num * dec_den x in
  let d := dec_num den x in
  let lo := n / d in
  let r := n mod d in
  let v := round_binary64 num den in
  let ok s := same_double (round_binary64 (dec_num s x) (dec_den x)) v in
  let hi_nearer := (d <? 2 * r) || ((d =? 2 * r) && Z.odd lo) in
  match (0 <? lo) && ok lo, ok (lo + 1) with
  | true, true => Some (if hi_nearer then lo + 1 else lo, x)
  | true, false => Some (lo, x)
  | false, true => Some (lo + 1, x)
  | false, false => None
  end.

Fixpoint shortest_from (num den e10 : Z) (digits fuel : nat) : Z * Z :=
  match fuel with
  | O => (num, 0)
  | S fuel' =>
      match decimal_of_length num den e10 digits with
      | Some sx => sx
      | None => shortest_from num den e10 (S digits) fuel'
      end
  end.

Fixpoint strip_zeros (fuel : nat) (s x : Z) : Z * Z :=
  match fuel with
  | O => (s, x)
  | S fuel' =>
      if (x <? 0) && (s mod 10 =? 0) then strip_zeros fuel' (s / 10) (x + 1)
      else (s, x)
  end.

(** The Number value of the positive fraction [num / den], written with the
    digits [String] prints. *)
Definition to_double (negative : bool) (num den : Z) : number :=
  if num =? 0 then Finite 0 0
  else
    match round_binary64 num den with
    | None => Infinity negative
    | Some (0, _) => Finite 0 0
    | Some (q, k) =>
        let vn := scale_num q (- k) in
        let vd := scale_den 1 (- k) in
        let (s, x) := shortest_from vn vd (floor_log10 vn vd) 1 17 in
        let (s, x) := strip_zeros 20 s x in
        let s := if negative then - s else s in
        if x <? 0 then Finite s x else Finite (s * 10 ^ x) 0
    end.


(** *** Binary64, for integers *)

Local Open Scope N_scope.

(** The binary64 value nearest to an integer [n >= 2^53], ties to even;
    [None] is an overflow. *)
Definition round_N (n : N) : option N :=
  let k := N.log2 n - 52 in
  let q := n / 2 ^ k in
  let r := n mod 2 ^ k in
  let q := if (2 ^ k <? 2 * r) || ((2 ^ k =? 2 * r) && N.odd q) then q + 1
           else q in
  if 2 ^ 1024 <=? q * 2 ^ k then None else Some (q * 2 ^ k).

Definition rounds_to (v s : N) : bool :=
  if s <? 2 ^ 53 then false
  else match round_N s with Some w => w =? v | None => false end.

(** The decimal of the fewest significant digits, from [digits] up, that
    rounds to the binary64 integer [v], and the nearest to [v] among those:
    what [String] prints. *)
Fixpoint shortest_N (v : N) (len digits fuel : nat) : N :=
  match fuel with
  | O => v
  | S fuel' =>
      let p := 10 ^ N.of_nat (len - digits) in
      let lo := v / p in
      let r := v mod p in
      let hi_nearer := (p <? 2 * r) || ((p =? 2 * r) && N.odd lo) in
      match rounds_to v (lo * p), rounds_to v ((lo + 1) * p) with
      | true, true => if hi_nearer then (lo + 1) * p else lo * p
      | true, false => lo * p
      | false, true => (lo + 1) * p
      | false, false => shortest_N v len (S digits) fuel'
      end
  end.

(** The Number value of an integer. *)
Definition double_of_N (n : N) : number :=
  if n <? 2 ^ 53 then Finite (Z.of_N n) 0
  else
    match round_N n with
    | None => Infinity false
    | Some v => Finite (Z.of_N (shortest_N v (length (digits_of_N v)) 1 17)) 0
    end.
Local Close Scope N_scope.

(** [parseInt(ds, 10)] of a run of decimal digits.  (The standard lets an
    implementation read the digits after the 20th as zeros; V8 reads them
    all.) *)
Definition parseInt_digits (ds : list ascii) : number :=
  double_of_N (Z.to_N (digits_value ds)).

(** *** [Number(string)]: the StringNumericLiteral grammar *)

Definition parse_exponent (l : list ascii) : option Z :=
  match l with
  | [] => Some 0
  | c :: rest =>
      if Ascii.eqb c "e" || Ascii.eqb c "E" then
        let (sign, body) :=
          match rest with
          | "-"%char :: t => (-1, t)
          | "+"%char :: t => (1, t)
          | _ => (1, rest)
          end in
        let (ds, tail) := span is_digit body in
        match ds, tail with
        | _ :: _, [] => Some (sign * digits_value ds)
        | _, _ => None
        end
      else None
  end.

(** DecimalDigits [.] DecimalDigits? Exponent? | [.] DecimalDigits Exponent?
    | DecimalDigits Exponent? *)
Definition parse_unsigned (l : list ascii) : option (Z * Z) :=
  let (ip, r1) := span is_digit l in
  let '(fp, r2) :=
    match r1 with
    | "."%char :: t => span is_digit t
    | _ => ([], r1)
    end in
  match ip ++ fp with
  | [] => None
  | ds =>
      match parse_exponent r2 with
      | Some x => Some (digits_value ds, x - Z.of_nat (length fp))
      | None => None
      end
  end.

Definition parse_signed (l : list ascii) : number :=
  let (neg, body) :=
    match l with
    | "-"%char :: t => (true, t)
    | "+"%char :: t => (false, t)
    | _ => (false, l)
    end in
  if String.eqb (string_of_list_ascii body) "Infinity" then Infinity neg
  else
    match parse_unsigned body with
    | Some (m, e) => to_double neg (dec_num m e) (dec_den e)
    | None => NaN
    end.

Definition StringToNumber (s : string) : number :=
  match trim (list_ascii_of_string s) with
  | [] => zero
  | "0"%char :: p :: ds =>
      let radix :=
        if Ascii.eqb p "x" || Ascii.eqb p "X" then Some 16
        else if Ascii.eqb p "o" || Ascii.eqb p "O" then Some 8
        else if Ascii.eqb p "b" || Ascii.eqb p "B" then Some 2
        else None in
      match radix with
      | Some r =>
          match radix_value r ds with
          | Some v => double_of_N (Z.to_N v)
          | None => NaN
          end
      | None => parse_signed ("0"%char :: p :: ds)
      end
  | l => parse_signed l
  end.

(** *** [String(number)]: Number::toString in radix 10 *)

Definition zeros (n : Z) : list ascii := repeat "0"%char (Z.to_nat n).

Definition NumberToString (x : number) : string :=
  match x with
  | NaN => "NaN"
  | Infinity neg => if neg then "-Infinity" else "Infinity"
  | Finite 0 _ => "0"
  | Finite m e =>
      let all := digits_of_N (Z.to_N (Z.abs m)) in
      let ds := rev (drop_while (Ascii.eqb "0"%char) (rev all)) in
      let k := Z.of_nat (length ds) in
      let n := Z.of_nat (length all) + e in
      let body :=
        if (k <=? n) && (n <=? 21) then ds ++ zeros (n - k)
        else if (0 <? n) && (n <=? 21) then
          firstn (Z.to_nat n) ds ++ "."%char :: skipn (Z.to_nat n) ds
        else if (-6 <? n) && (n <=? 0) then
          "0"%char :: "."%char :: zeros (- n) ++ ds
        else
          let ex := n - 1 in
          let mant :=
            match ds with
            | [d] => [d]
            | d :: rest => d :: "."%char :: rest
            | [] => []
            end in
          mant ++ "e"%char :: (if ex <? 0 then "-"%char else "+"%char)
               :: digits_of_N (Z.to_N (Z.abs ex)) in
      string_of_list_ascii (if m <? 0 then "-"%char :: body else body)
  end.

(** ** JSON values *)

(* A nested type: no induction scheme is generated for it; the proofs below
   go by induction on lists of keys, on lists of children and on the depth
   bound. *)
#[local] Unset Elimination Schemes.
Inductive JSON : Type :=
| JNull
| JBool (b : bool)
| JNum (n : number)
| JStr (s : string)
| JArr (items : list JSON)
| JObj (props : list (string * JSON)).
#[local] Set Elimination Schemes.

(** [typeof v === "object"]: true of [null], arrays and objects. *)
Definition typeof_object (v : JSON) : bool :=
  match v with
  | JNull | JArr _ | JObj _ => true
  | _ => false
  end.

Definition isArray (v : JSON) : bool :=
  match v with JArr _ => true | _ => false end.

(** Truthiness of a decoded value. *)
Definition truthy (v : JSON) : bool :=
  match v with
  | JNull => false
  | JBool b => b
  | JNum n => truthy_num n
  | JStr s => negb (String.eqb s EmptyString)
  | JArr _ | JObj _ => true
  end.

(** Truthiness of the result of a property read ([undefined] is falsy). *)
Definition truthy_opt (v : option JSON) : bool :=
  match v with Some x => truthy x | None => false end.

(** [v && typeof v === "object"]. *)
Definition is_object (v : JSON) : bool := truthy v && typeof_object v.

Fixpoint lookup (k : string) (props : list (string * JSON)) : option JSON :=
  match props with
  | [] => None
  | (k', v) :: rest => if String.eqb k k' then Some v else lookup k rest
  end.

(** The array index a property name denotes, if it is the canonical decimal
    numeral of one. *)
Definition array_index (k : string) : option nat :=
  match list_ascii_of_string k with
  | [] => None
  | c :: rest =>
      if forallb is_digit (c :: rest)
         && (negb (Ascii.eqb c "0") || match rest with [] => true | _ => false end)
      then Some (Z.to_nat (digits_value (c :: rest)))
      else None
  end.

(** [v?.[k]] and, where the source has checked [v] first, [v[k]].  Reading a
    property of [null] answers [None]: the source reads through [?.] or after
    a truthiness test wherever the receiver may be [null].  An array answers
    for its indices and for [length]; the methods it inherits are functions,
    which no loop of the program tells from an absent property (they convert
    to NaN) and no fixed property name of the program denotes.  A primitive
    value answers [None], as JavaScript does for every name the program reads
    from one. *)
Definition get (v : JSON) (k : string) : option JSON :=
  match v with
  | JObj props => lookup k props
  | JArr items =>
      if String.eqb k "length" then Some (JNum (of_nat (length items)))
      else
        match array_index k with
        | Some i => nth_error items i
        | None => None
        end
  | _ => None
  end.

(** [v?.a?.b?.c]. *)
Definition path (v : JSON) (ks : list string) : option JSON :=
  fold_left (fun acc k => match acc with Some x => get x k | None => None end)
            ks (Some v).

(** Whether converting [v] to a primitive throws: [v] is an object with a
    property of its own named [toString], which hides the method of
    [Object.prototype] and is not callable, or an array, whose [join]
    converts every element other than [null], that holds such a value. *)
Fixpoint ToPrimitive_throws (v : JSON) : bool :=
  match v with
  | JObj props =>
      match lookup "toString" props with Some _ => true | None => false end
  | JArr items =>
      (fix any (l : list JSON) : bool :=
         match l with
         | [] => false
         | x :: rest => ToPrimitive_throws x || any rest
         end) items
  | _ => false
  end.

(** The string [String(v)] returns, when the conversion returns. *)
Fixpoint ToString (v : JSON) : string :=
  match v with
  | JNull => "null"
  | JBool b => if b then "true" else "false"
  | JNum n => NumberToString n
  | JStr s => s
  | JArr items =>
      join ","
        ((fix each (l : list JSON) : list string :=
            match l with
            | [] => []
            | JNull :: rest => EmptyString :: each rest
            | x :: rest => ToString x :: each rest
            end) items)
  | JObj _ => "[object Object]"
  end.

(** The number [Number(v)] returns, when the conversion returns. *)
Definition ToNumber (v : JSON) : number :=
  match v with
  | JNull => zero
  | JBool b => if b then of_Z 1 else zero
  | JNum n => n
  | JStr s => StringToNumber s
  | JArr _ => StringToNumber (ToString v)
  | JObj _ => NaN
  end.

(** [Object.entries(v)] of an object or an array. *)
Definition entries (v : JSON) : list (string * JSON) :=
  match v with
  | JObj props => props
  | JArr items =>
      combine (map (fun i => NumberToString (of_nat i)) (seq 0 (length items)))
              items
  | _ => []
  end.

(** [Object.values(v)]. *)
Definition values (v : JSON) : list JSON := map snd (entries v).

(** [a || b || ... || last] over property reads, the last operand being a
    value. *)
Fixpoint first_truthy (cands : list (option JSON)) (last : JSON) : JSON :=
  match cands with
  | [] => last
  | Some v :: rest => if truthy v then v else first_truthy rest last
  | None :: rest => first_truthy rest last
  end.

(** [a || b || ... || z] where the last operand is itself a property read. *)
Fixpoint first_truthy_opt (cands : list (option JSON)) : option JSON :=
  match cands with
  | [] => None
  | [c] => c
  | c :: rest => if truthy_opt c then c else first_truthy_opt rest
  end.

(** [a || b] on strings. *)
Definition or_str (a b : string) : string :=
  if String.eqb a EmptyString then b else a.

(** ** What a call can do: return, or throw *)

Inductive outcome (A : Type) : Type :=
| Returned (a : A)
| Thrown.
Arguments Returned {A} a.
Arguments Thrown {A}.

Definition bind {A B : Type} (o : outcome A) (k : A -> outcome B)
  : outcome B :=
  match o with
  | Returned a => k a
  | Thrown => Thrown
  end.

Notation "x <- o ;; k" := (bind o (fun x => k))
  (at level 61, o at next level, right associativity).

(** [String(v)], and [v] inside a template literal. *)
Definition String_of (v : JSON) : outcome string :=
  if ToPrimitive_throws v then Thrown else Returned (ToString v).

(** [Number(v)]. *)
Definition Number_of (v : JSON) : outcome number :=
  if ToPrimitive_throws v then Thrown else Returned (ToNumber v).

(** [a || b] on strings, [b] being evaluated only when [a] is empty. *)
Definition or_else_str (a b : outcome string) : outcome string :=
  x <- a ;; if String.eqb x EmptyString then b else Returned x.

(** [a || b] on numbers, [b] being evaluated only when [a] is falsy. *)
Definition or_else_num (a b : outcome number) : outcome number :=
  x <- a ;; if truthy_num x then Returned x else b.

(** ** The canonical record *)

Record Article : Type := mkArticle {
  title : string;
  likeCount : number;
  price : number;
  url : string;
  creator : string;
  likeRating : option number      (* added by the rating enricher only *)
}.

(** ** Field normalizer *)

(** What [safeStr(val)] returns, when it returns. *)
Definition text_of (val : option JSON) : string :=
  match val with
  | None | Some JNull => EmptyString
  | Some (JStr s) => s
  | Some v => ToString v
  end.

(** [safeStr(val)]. *)
Definition safeStr (val : option JSON) : outcome string :=
  match val with
  | None | Some JNull => Returned EmptyString
  | Some (JStr s) => Returned s
  | Some v => String_of v
  end.

(** [safeNum(obj, keys)]. *)
Fixpoint safeNum_keys (obj : JSON) (keys : list string) : outcome number :=
  match keys with
  | [] => Returned zero
  | key :: rest =>
      match get obj key with
      | None | Some JNull => safeNum_keys obj rest
      | Some val =>
          num <- Number_of val ;;
          if negb (isNaN num) then Returned num else safeNum_keys obj rest
      end
  end.

Definition safeNum (obj : JSON) (keys : list string) : outcome number :=
  if negb (is_object obj) then Returned zero else safeNum_keys obj keys.

Definition likeKeys : list string :=
  ["like_count"; "likeCount"; "likes_count"; "likesCount";
   "sp_count"; "spCount"; "suki_count"; "sukiCount"].

Definition priceKeys : list string :=
  ["price"; "amount"; "body_price"; "bodyPrice"].

Definition urlKeys : list string := ["note_url"; "noteUrl"; "url"].

Definition creatorKeys : list string :=
  ["creator_name"; "creatorName"; "author_name"; "authorName"].

(** The first loop of [buildNoteUrl]: a direct URL field. *)
Fixpoint direct_url_keys (obj : JSON) (keys : list string) : option string :=
  match keys with
  | [] => None
  | key :: rest =>
      match get obj key with
      | Some (JStr val) =>
          if startsWith "http" val then Some val else direct_url_keys obj rest
      | _ => direct_url_keys obj rest
      end
  end.

Fixpoint direct_url (objs : list JSON) : option string :=
  match objs with
  | [] => None
  | obj :: rest =>
      match direct_url_keys obj urlKeys with
      | Some val => Some val
      | None => direct_url rest
      end
  end.

(** [buildNoteUrl(note, inner)].  The template literal converts the user
    name and then the key; calling [href.startsWith] on a truthy [href]
    that is not a string throws a TypeError. *)
Definition buildNoteUrl (note inner : JSON) : outcome string :=
  match direct_url [inner; note] with
  | Some val => Returned val
  | None =>
      let key :=
        first_truthy [get inner "key"; get note "key";
                      get inner "slug"; get note "slug"] (JStr EmptyString) in
      let user :=
        first_truthy [get inner "user"; get note "user"] (JObj []) in
      let urlname :=
        first_truthy
          [ (if typeof_object user then get user "urlname"
             else Some (JStr EmptyString));
            get inner "urlname"; get note "urlname" ] (JStr EmptyString) in
      if truthy key && truthy urlname then
        u <- String_of urlname ;;
        k <- String_of key ;;
        Returned ("https://note.com/" ++ u ++ "/n/" ++ k)%string
      else
        let href :=
          first_truthy [get inner "href"; get note "href"]
                       (JStr EmptyString) in
        if truthy href then
          match href with
          | JStr h =>
              Returned (if startsWith "http" h then h
                        else ("https://note.com" ++ h)%string)
          | _ => Thrown
          end
        else Returned EmptyString
  end.

(** The first loop of [findCreatorName]: a nested user object. *)
Fixpoint creator_from_user (objs : list JSON) : outcome (option string) :=
  match objs with
  | [] => Returned None
  | obj :: rest =>
      match get obj "user" with
      | Some user =>
          if is_object user then
            match first_truthy_opt
                    [get user "nickname"; get user "name";
                     get user "urlname"; get user "display_name"] with
            | Some name =>
                if truthy name then s <- String_of name ;; Returned (Some s)
                else creator_from_user rest
            | None => creator_from_user rest
            end
          else creator_from_user rest
      | None => creator_from_user rest
      end
  end.

(** The second loop of [findCreatorName]: a flat string field. *)
Fixpoint creator_from_keys (obj : JSON) (keys : list string)
  : outcome (option string) :=
  match keys with
  | [] => Returned None
  | key :: rest =>
      match get obj key with
      | Some v => if truthy v then s <- String_of v ;; Returned (Some s)
                  else creator_from_keys obj rest
      | None => creator_from_keys obj rest
      end
  end.

Fixpoint creator_from_fields (objs : list JSON) : outcome (option string) :=
  match objs with
  | [] => Returned None
  | obj :: rest =>
      found <- creator_from_keys obj creatorKeys ;;
      match found with
      | Some s => Returned (Some s)
      | None => creator_from_fields rest
      end
  end.

(** [findCreatorName(note, inner)]. *)
Definition findCreatorName (note inner : JSON) : outcome string :=
  from_user <- creator_from_user [inner; note] ;;
  match from_user with
  | Some s => Returned s
  | None =>
      from_fields <- creator_from_fields [inner; note] ;;
      match from_fields with
      | Some s => Returned s
      | None => Returned EmptyString
      end
  end.

(** The inner view: [note.note] when it is a non-null object, else [note]. *)
Definition inner_of (note : JSON) : JSON :=
  match get note "note" with
  | Some n => if is_object n then n else note
  | None => note
  end.

(** The title cascade of [extractArticleFromNote]. *)
Definition title_of (note inner : JSON) : outcome string :=
  or_else_str (safeStr (get inner "name"))
  (or_else_str (safeStr (get note "name"))
  (or_else_str (safeStr (get inner "title"))
  (or_else_str (safeStr (get note "title"))
  (or_else_str (safeStr (get inner "headline"))
  (or_else_str (safeStr (get note "headline")) (Returned EmptyString)))))).

(** [extractArticleFromNote(note)]: [Returned None] is [null].  The source's
    [if (price === "無料") price = 0] never fires, [price] being a number
    there, and [Number(x)] of a number is that number. *)
Definition extractArticleFromNote (note : JSON) : outcome (option Article) :=
  if negb (is_object note) then Returned None
  else
    let inner := inner_of note in
    title <- title_of note inner ;;
    likeCount <- or_else_num (safeNum inner likeKeys) (safeNum note likeKeys) ;;
    price <- or_else_num (safeNum inner priceKeys) (safeNum note priceKeys) ;;
    noteUrl <- buildNoteUrl note inner ;;
    creator <- findCreatorName note inner ;;
    Returned (Some {| title := title;
                      likeCount := or_num likeCount zero;
                      price := or_num price zero;
                      url := noteUrl;
                      creator := creator;
                      likeRating := None |}).

(** ** JSON tree locator *)

(** The dotted candidates of [findNotesArray], in the order of the source. *)
Definition paths : list (list string) :=
  [ ["data"; "notes"; "contents"];
    ["data"; "notes"; "items"];
    ["data"; "notes"];
    ["data"; "contents"];
    ["data"; "search_results"];
    ["data"; "items"];
    ["notes"];
    ["contents"];
    ["items"] ].

(** [Array.isArray(val) && val.length > 0]. *)
Definition nonempty_array (v : option JSON) : option (list JSON) :=
  match v with
  | Some (JArr (x :: rest)) => Some (x :: rest)
  | _ => None
  end.

(** [Array.isArray(value) && value.length > 0 && typeof value[0] === "object"
    && value[0] !== null]. *)
Definition array_of_objects (v : JSON) : option (list JSON) :=
  match v with
  | JArr (x :: rest) =>
      if typeof_object x && negb (match x with JNull => true | _ => false end)
      then Some (x :: rest) else None
  | _ => None
  end.

(** [for (const pathFn of paths)]. *)
Fixpoint scan_paths (data : JSON) (ps : list (list string))
  : option (list JSON) :=
  match ps with
  | [] => None
  | p :: rest =>
      match nonempty_array (path data p) with
      | Some val => Some val
      | None => scan_paths data rest
      end
  end.

(** [for (const [key, value] of Object.entries(...))], skipping the keys
    [skip] rejects. *)
Fixpoint scan_entries (skip : string -> bool) (es : list (string * JSON))
  : option (list JSON) :=
  match es with
  | [] => None
  | (key, value) :: rest =>
      if skip key then scan_entries skip rest
      else
        match array_of_objects value with
        | Some val => Some val
        | None => scan_entries skip rest
        end
  end.

(** [findNotesArray(data)]; the array it returns is given by its elements. *)
Definition findNotesArray (data : JSON) : list JSON :=
  if negb (is_object data) then []
  else
    match scan_paths data paths with
    | Some val => val
    | None =>
        match nonempty_array (get data "data") with
        | Some val => val
        | None =>
            let in_data :=
              match get data "data" with
              | Some (JObj props) =>
                  scan_entries (fun _ => false) (entries (JObj props))
              | _ => None
              end in
            match in_data with
            | Some val => val
            | None =>
                match scan_entries (fun key => String.eqb key "data")
                                   (entries data) with
                | Some val => val
                | None => []
                end
            end
        end
    end.

(** The per-item loop of [extractNotesFromApiResponse]: an item that throws,
    that normalizes to [null] or whose title is empty is skipped. *)
Fixpoint normalize_all (noteObjects : list JSON) : list Article :=
  match noteObjects with
  | [] => []
  | n :: rest =>
      match extractArticleFromNote n with
      | Returned (Some article) =>
          if negb (String.eqb (title article) EmptyString)
          then article :: normalize_all rest
          else normalize_all rest
      | _ => normalize_all rest
      end
  end.

(** [extractNotesFromApiResponse(data)]. *)
Definition extractNotesFromApiResponse (data : JSON) : list Article :=
  normalize_all (findNotesArray data).

(** ** Rating search in a structured blob *)

Definition ratingFieldCandidates : list string :=
  ["rating_count"; "ratingCount";
   "recommend_count"; "recommendCount";
   "evaluation_count"; "evaluationCount";
   "high_rating_count"; "highRatingCount";
   "buyer_like_count"; "buyerLikeCount";
   "purchase_like_count"; "purchaseLikeCount"].

(** The first loop of [findRatingInObject]: the object's own fields. *)
Fixpoint rating_field (obj : JSON) (fieldCandidates : list string)
  : outcome (option number) :=
  match fieldCandidates with
  | [] => Returned None
  | key :: rest =>
      match get obj key with
      | None | Some JNull => rating_field obj rest
      | Some val =>
          num <- Number_of val ;;
          if negb (isNaN num) && gt0 num then Returned (Some num)
          else rating_field obj rest
      end
  end.

(** [val && typeof val === "object" && !Array.isArray(val)]. *)
Definition plain_object (val : JSON) : bool :=
  is_object val && negb (isArray val).

(** [findRatingInObject(obj, fieldCandidates, depth)]. *)
Fixpoint findRatingInObject (obj : JSON) (fieldCandidates : list string)
         (depth : nat) {struct obj} : outcome number :=
  let children :=
    fix children (vals : list JSON) : outcome number :=
      match vals with
      | [] => Returned zero
      | val :: rest =>
          if plain_object val then
            found <- findRatingInObject val fieldCandidates (S depth) ;;
            if gt0 found then Returned found else children rest
          else children rest
      end in
  let children_of_props :=
    fix children_of_props (props : list (string * JSON)) : outcome number :=
      match props with
      | [] => Returned zero
      | (_, val) :: rest =>
          if plain_object val then
            found <- findRatingInObject val fieldCandidates (S depth) ;;
            if gt0 found then Returned found else children_of_props rest
          else children_of_props rest
      end in
  match obj with
  | JObj props =>
      if (3 <? depth)%nat then Returned zero
      else
        own <- rating_field obj fieldCandidates ;;
        match own with
        | Some num => Returned num
        | None => children_of_props props
        end
  | JArr items =>
      if (3 <? depth)%nat then Returned zero
      else
        own <- rating_field obj fieldCandidates ;;
        match own with
        | Some num => Returned num
        | None => children items
        end
  | _ => Returned zero
  end.

(** ** Export encoder *)

(** The global replacement in [escapeCsvField]: every quote character becomes
    two. *)
Fixpoint double_quotes (s : string) : string :=
  match s with
  | EmptyString => EmptyString
  | String c rest =>
      if Ascii.eqb c dquote then String dquote (String dquote (double_quotes rest))
      else String c (double_quotes rest)
  end.

Definition quoted (s : string) : string :=
  String dquote (s ++ String dquote EmptyString).

(** [escapeCsvField(value)].  Every call of the program passes a string, of
    which [String] is the identity; for another value the text is what the
    conversion gives when it returns. *)
Definition escapeCsvField (value : option JSON) : string :=
  if negb (truthy_opt value) then quoted EmptyString
  else
    let str := match value with Some v => ToString v | None => EmptyString end in
    if includes dquote str || includes comma str || includes newline str
    then quoted (double_quotes str)
    else quoted str.

Definition headers : list string :=
  ["タイトル"; "スキ数"; "高評価数"; "単価"; "記事URL"; "クリエイター名"].

(** One element of [rows] in [downloadCSV]. *)
Definition csv_row (a : Article) : list string :=
  [ escapeCsvField (Some (JStr (title a)));
    NumberToString (likeCount a);
    NumberToString (match likeRating a with
                    | Some r => or_num r zero
                    | None => zero
                    end);
    NumberToString (price a);
    escapeCsvField (Some (JStr (url a)));
    escapeCsvField (Some (JStr (creator a))) ].

(** [csvContent] of [downloadCSV(articles)]: the text handed, after the
    byte-order mark, to the file-save collaborator. *)
Definition csvContent (articles : list Article) : string :=
  join (String newline EmptyString)
       (join "," headers :: map (fun a => join "," (csv_row a)) articles).

(** ** Session state and the machine *)

Inductive Status : Type := Idle | Scraping | Completed | Error.

Definition Status_eqb (a b : Status) : bool :=
  match a, b with
  | Idle, Idle | Scraping, Scraping | Completed, Completed | Error, Error => true
  | _, _ => false
  end.

(** [scrapingState].  The counters are integers: the popup sends
    [parseInt(...)] of its input and refuses anything below 1; the embedding
    admits every integer. *)
Record ScrapingState : Type := mkState {
  status : Status;
  current : Z;
  targetCount : Z;
  articles : list Article;
  message : string
}.

Definition initialState : ScrapingState :=
  {| status := Idle; current := 0; targetCount := 0; articles := [];
     message := EmptyString |}.

(** What the rating enricher reads off a page's markup: the result of each
    of its four pattern matches.  A capture of [(\d+)], a run of decimal
    digits, is held as the integer the digits denote; [parseInt(_, 10)] then
    gives its Number value. *)
Record Html : Type := mkHtml {
  ratingText : option N;            (* (\d+)\s*人が高評価 *)
  nextData : option (option JSON);  (* the __NEXT_DATA__ script, if any, as
                                       decoded by JSON.parse (None: it throws) *)
  nuxtRating : option N;            (* a rating field inside the __NUXT__ blob *)
  htmlRating : option N             (* a quoted rating field anywhere *)
}.

(** A resolved [fetch]: the status flag and the body, seen as JSON ([None]
    when decoding it throws) and as markup. *)
Record Response : Type := mkResponse {
  ok : bool;
  json : option JSON;
  html : Html
}.

(** [window.location]: the path and the decoded query parameters, in order. *)
Record Location : Type := mkLocation {
  pathname : string;
  searchParams : list (string * string)
}.

(** The machine state: the session state, the URLs requested so far and the
    number of scans of the document made so far. *)
Record Machine : Type := mkMachine {
  scrapingState : ScrapingState;
  requests : list string;
  scans : nat
}.

Definition set_state (st : ScrapingState) (mc : Machine) : Machine :=
  {| scrapingState := st; requests := requests mc; scans := scans mc |}.

Definition set_current (c : Z) (st : ScrapingState) : ScrapingState :=
  {| status := status st; current := c; targetCount := targetCount st;
     articles := articles st; message := message st |}.

Definition set_articles (l : list Article) (st : ScrapingState)
  : ScrapingState :=
  {| status := status st; current := current st;
     targetCount := targetCount st; articles := l; message := message st |}.

(** [url.searchParams.get(name)]. *)
Fixpoint searchParams_get (name : string) (ps : list (string * string))
  : option string :=
  match ps with
  | [] => None
  | (k, v) :: rest => if String.eqb name k then Some v
                      else searchParams_get name rest
  end.

(** [url.searchParams.get(name) || dflt]. *)
Definition param_or (name dflt : string) (ps : list (string * string))
  : string :=
  match searchParams_get name ps with
  | Some v => or_str v dflt
  | None => dflt
  end.

Record SearchParams : Type := mkParams {
  q : string;
  context : string;
  mode : string;
  sort : string
}.

(** [getSearchParams()]. *)
Definition getSearchParams (loc : Location) : SearchParams :=
  {| q := param_or "q" EmptyString (searchParams loc);
     context := param_or "context" "note" (searchParams loc);
     mode := param_or "mode" "search" (searchParams loc);
     sort := param_or "sort" EmptyString (searchParams loc) |}.

(** [getPageType()]. *)
Definition getPageType (loc : Location) : string :=
  if startsWith "/hashtag/" (pathname loc) then "hashtag" else "search".

Definition hex_digit (n : nat) : ascii :=
  ascii_of_nat (if (n <? 10)%nat then 48 + n else 55 + n).

Definition unreserved (c : ascii) : bool :=
  is_alnum c
  || existsb (Ascii.eqb c)
       ["-"%char; "_"%char; "."%char; "!"%char; "~"%char; "*"%char;
        "'"%char; "("%char; ")"%char].

(** [encodeURIComponent(s)], byte by byte. *)
Fixpoint encodeURIComponent (s : string) : string :=
  match s with
  | EmptyString => EmptyString
  | String c rest =>
      if unreserved c then String c (encodeURIComponent rest)
      else
        let n := nat_of_ascii c in
        String "%" (String (hex_digit (n / 16))
                      (String (hex_digit (n mod 16)) (encodeURIComponent rest)))
  end.

Definition PAGE_SIZE : Z := 20.

(** The request line of one page of [fetchFromAPI]. *)
Definition apiUrl (params : SearchParams) (start : Z) : string :=
  ("https://note.com/api/v3/searches?q=" ++ encodeURIComponent (q params)
   ++ "&context=" ++ context params
   ++ "&size=" ++ NumberToString (of_Z PAGE_SIZE)
   ++ "&start=" ++ NumberToString (of_Z start)
   ++ (if String.eqb (sort params) EmptyString then EmptyString
       else "&sort=" ++ sort params))%string.

(** The inner [for] loop of [fetchFromAPI]: push until the target is met. *)
Fixpoint push_upto (target : Z) (acc parsed : list Article) : list Article :=
  match parsed with
  | [] => acc
  | a :: rest =>
      if Z.of_nat (length acc) >=? target then acc
      else push_upto target (acc ++ [a]) rest
  end.

(** [articles.length > 0 ? articles : null]. *)
Definition nonempty_or_null (l : list Article) : option (list Article) :=
  match l with [] => None | _ => Some l end.

(** The item identifier of [fetchLikeRating]: the first place where the
    pattern [/n/] followed by one or more alphanumerics matches, and the
    longest such run there. *)
Fixpoint match_note_key (s : list ascii) : option (list ascii) :=
  match s with
  | [] => None
  | c :: rest =>
      match s with
      | "/"%char :: "n"%char :: "/"%char :: tail =>
          match span is_alnum tail with
          | (k :: ks, _) => Some (k :: ks)
          | ([], _) => match_note_key rest
          end
      | _ => match_note_key rest
      end
  end.

(** [articles.slice(0, n)]. *)
Definition slice0 (l : list Article) (n : Z) : list Article :=
  if n <? 0 then firstn (Z.to_nat (Z.of_nat (length l) + n)) l
  else firstn (Z.to_nat n) l.

Definition MAX_RETRIES : nat := 15.

(** The outcome of the first stage of [fetchLikeRating]. *)
Inductive ApiStage : Type :=
| RatingFound (rating : number)
| NoRating                        (* go on to the page markup *)
| ApiNetworkError.                (* [apiNetworkError = true] *)

(** [for (const obj of [inner, noteData])] in [fetchLikeRating]. *)
Fixpoint first_rating (objs : list JSON) : outcome (option number) :=
  match objs with
  | [] => Returned None
  | obj :: rest =>
      rating <- safeNum obj ratingFieldCandidates ;;
      if gt0 rating then Returned (Some rating) else first_rating rest
  end.

(** Method 1 of [fetchLikeRating], given the answer to its request.  An
    exception thrown inside its [try] block, by the request, by the decoding
    of the body or by a conversion in [safeNum], sets [apiNetworkError]. *)
Definition api_stage (apiRes : option Response) : ApiStage :=
  match apiRes with
  | None => ApiNetworkError
  | Some res =>
      if ok res then
        match json res with
        | None => ApiNetworkError           (* [apiRes.json()] rejects *)
        | Some apiData =>
            let noteData :=
              match get apiData "data" with
              | Some d => if truthy d then d else apiData
              | None => apiData
              end in
            let inner :=
              match get noteData "note" with
              | Some n => if truthy n then n else noteData
              | None => noteData
              end in
            match first_rating [inner; noteData] with
            | Returned (Some rating) => RatingFound rating
            | Returned None => NoRating
            | Thrown => ApiNetworkError
            end
        end
      else NoRating
  end.

(** [parseInt(capture, 10)] of a capture of [(\d+)]. *)
Definition parseInt_capture (capture : N) : number := double_of_N capture.

(** The search of the embedded data of the page: the positive rating it
    finds, if it finds one.  Decoding the data, and the search itself, are
    inside a [try] block whose handler goes on to the next pattern. *)
Definition next_data_rating (page : Html) : option number :=
  match nextData page with
  | Some (Some data) =>
      match findRatingInObject data ratingFieldCandidates 0 with
      | Returned rating => if gt0 rating then Some rating else None
      | Thrown => None
      end
  | _ => None
  end.

(** Method 2 of [fetchLikeRating], given the answer to its request. *)
Definition html_stage (pageRes : option Response) : number :=
  match pageRes with
  | None => zero
  | Some res =>
      if ok res then
        let page := html res in
        match ratingText page with
        | Some count => parseInt_capture count
        | None =>
            match next_data_rating page with
            | Some rating => rating
            | None =>
                match nuxtRating page with
                | Some count => parseInt_capture count
                | None =>
                    match htmlRating page with
                    | Some count => parseInt_capture count
                    | None => zero
                    end
                end
            end
        end
      else zero
  end.

(** The synchronous answers of the message listener. *)
Inductive Reply : Type :=
| already_running
| started
| progress (st : Status) (cur total : Z) (msg : string).

Inductive Message : Type :=
| startScraping (count : Z)
| getProgress
| otherAction.

(** What one delivery of a message does: the session state when the listener
    acknowledges, the acknowledgment, the listener's return value, and the
    target of the run it launches, if it launches one. *)
Record Handled : Type := mkHandled {
  state_after : ScrapingState;
  reply : option Reply;
  returned : bool;
  launched : option Z
}.

(** The listener registered with [chrome.runtime.onMessage]. *)
Definition onMessage (msg : Message) (st : ScrapingState) : Handled :=
  match msg with
  | startScraping count =>
      if Status_eqb (status st) Scraping then
        {| state_after := st; reply := Some already_running;
           returned := true; launched := None |}
      else
        {| state_after := {| status := Scraping; current := 0;
                             targetCount := count; articles := [];
                             message := EmptyString |};
           reply := Some started; returned := true; launched := Some count |}
  | getProgress =>
      {| state_after := st;
         reply := Some (progress (status st) (current st) (targetCount st)
                                 (message st));
         returned := true; launched := None |}
  | otherAction =>
      {| state_after := st; reply := None; returned := false;
         launched := None |}
  end.

(** ** The harvesters, over an environment *)

Section Environment.

(** The network: the answer to the [i]-th request of the run, made to the
    given URL; [None] is a request that rejects (or whose body cannot be
    read). *)
Variable net : nat -> string -> option Response.

(** The document: the result of the [i]-th call of [collectArticlesFromDom]. *)
Variable dom : nat -> list Article.

(** The address of the page. *)
Variable location : Location.

(** [await fetch(url, ...)]. *)
Definition fetch (url : string) (mc : Machine) : option Response * Machine :=
  (net (length (requests mc)) url,
   {| scrapingState := scrapingState mc;
      requests := requests mc ++ [url];
      scans := scans mc |}).

(** The [while] loop of [fetchFromAPI]; [None] when the fuel runs out. *)
Fixpoint fetchFromAPI_loop (fuel : nat) (params : SearchParams)
         (target : Z) (acc : list Article) (start : Z) (mc : Machine)
  : option (option (list Article) * Machine) :=
  match fuel with
  | O => None
  | S fuel' =>
      if Z.of_nat (length acc) <? target then
        let (response, mc1) := fetch (apiUrl params start) mc in
        match response with
        | None => Some (None, mc1)
        | Some res =>
            if negb (ok res) then Some (None, mc1)
            else
              match json res with
              | None => Some (None, mc1)
              | Some data =>
                  match extractNotesFromApiResponse data with
                  | [] => Some (nonempty_or_null acc, mc1)
                  | parsedArticles =>
                      let acc' := push_upto target acc parsedArticles in
                      let mc2 :=
                        set_state
                          (set_current (Z.of_nat (length acc'))
                                       (scrapingState mc1)) mc1 in
                      fetchFromAPI_loop fuel' params target acc'
                                        (start + PAGE_SIZE) mc2
                  end
              end
        end
      else Some (nonempty_or_null acc, mc)
  end.

(** [fetchFromAPI(targetCount)]; the result [None] inside is [null]. *)
Definition fetchFromAPI (fuel : nat) (target : Z) (mc : Machine)
  : option (option (list Article) * Machine) :=
  let params := getSearchParams location in
  if String.eqb (q params) EmptyString then Some (None, mc)
  else fetchFromAPI_loop fuel params target [] 0 mc.

(** [collectArticlesFromDom()], as the environment answers it. *)
Definition collectArticlesFromDom (mc : Machine) : list Article * Machine :=
  (dom (scans mc),
   {| scrapingState := scrapingState mc; requests := requests mc;
      scans := S (scans mc) |}).

(** The [while] loop of [autoScrollAndCollect]; [None] when the fuel runs
    out.  Scrolling and the wait after it act on the document only. *)
Fixpoint autoScroll_loop (fuel : nat) (target : Z)
         (lastArticleCount noNewArticleRetries : nat) (mc : Machine)
  : option Machine :=
  match fuel with
  | O => None
  | S fuel' =>
      if Status_eqb (status (scrapingState mc)) Scraping then
        let (found, mc1) := collectArticlesFromDom mc in
        let st1 :=
          set_current (Z.of_nat (length found))
                      (set_articles found (scrapingState mc1)) in
        if Z.of_nat (length found) >=? target then
          Some (set_state
                  (set_current target
                               (set_articles (slice0 found target) st1)) mc1)
        else if (length found =? lastArticleCount)%nat then
          if (MAX_RETRIES <=? S noNewArticleRetries)%nat
          then Some (set_state st1 mc1)
          else autoScroll_loop fuel' target (length found)
                               (S noNewArticleRetries) (set_state st1 mc1)
        else autoScroll_loop fuel' target (length found) 0
                             (set_state st1 mc1)
      else Some mc
  end.

(** [autoScrollAndCollect(targetCount)]. *)
Definition autoScrollAndCollect (fuel : nat) (target : Z) (mc : Machine)
  : option Machine :=
  autoScroll_loop fuel target 0 0 mc.

(** [fetchLikeRating(articleUrl)].  Every exception raised inside is caught
    by one of its handlers, so the call always returns a number. *)
Definition fetchLikeRating (articleUrl : string) (mc : Machine)
  : number * Machine :=
  if String.eqb articleUrl EmptyString then (zero, mc)
  else
    match match_note_key (list_ascii_of_string articleUrl) with
    | None => (zero, mc)
    | Some noteKey =>
        let (apiRes, mc1) :=
          fetch ("https://note.com/api/v3/notes/"
                   ++ string_of_list_ascii noteKey)%string mc in
        match api_stage apiRes with
        | RatingFound rating => (rating, mc1)
        | ApiNetworkError => (zero, mc1)
        | NoRating =>
            let (pageRes, mc2) := fetch articleUrl mc1 in
            (html_stage pageRes, mc2)
        end
    end.

End Environment.

(** ** The specification's vocabulary *)

(** Following the specification of the locator: the candidates in their fixed
    priority order, each with the test that makes it eligible. *)
Inductive Eligibility : Type :=
| NonEmptyArray       (* a non-empty array *)
| ArrayOfObjects.     (* a non-empty array whose first element is a
                         non-null object *)

Definition eligible (c : Eligibility * option JSON) : option (list JSON) :=
  match c with
  | (NonEmptyArray, v) => nonempty_array v
  | (ArrayOfObjects, Some x) => array_of_objects x
  | (ArrayOfObjects, None) => None
  end.

Definition candidates (data : JSON) : list (Eligibility * option JSON) :=
  map (fun p => (NonEmptyArray, path data p)) paths
  ++ [(NonEmptyArray, get data "data")]
  ++ match get data "data" with
     | Some (JObj props) => map (fun kv => (ArrayOfObjects, Some (snd kv))) props
     | _ => []
     end
  ++ map (fun kv => (ArrayOfObjects, Some (snd kv)))
         (filter (fun kv => negb (String.eqb (fst kv) "data")) (entries data)).

(** Following the specification of the normalizer: a candidate name yields a
    number when its value is neither undefined nor null and converts to a
    number other than NaN. *)
Definition yields_number (obj : JSON) (key : string) : bool :=
  match get obj key with
  | None | Some JNull => false
  | Some val => negb (isNaN (ToNumber val))
  end.

(** The number of the first candidate name that yields one; 0 when none
    does. *)
Definition first_number (obj : JSON) (keys : list string) : number :=
  match find (yields_number obj) keys with
  | Some key =>
      match get obj key with Some val => ToNumber val | None => zero end
  | None => zero
  end.

(** The first non-empty string of a list; the empty string when none is. *)
Definition first_nonempty (l : list string) : string :=
  match find (fun s => negb (String.eqb s EmptyString)) l with
  | Some s => s
  | None => EmptyString
  end.

(** A rating field: one of the candidate names, holding a value that is
    neither undefined nor null and converts to a positive number. *)
Definition rating_field_in (cands : list string) (obj : JSON) : Prop :=
  exists key val,
    In key cands /\ get obj key = Some val /\ val <> JNull
    /\ gt0 (ToNumber val) = true.

(** A rating field nested [d] levels of objects below [obj]. *)
Fixpoint has_rating_at (cands : list string) (d : nat) (obj : JSON) : Prop :=
  match d with
  | O => rating_field_in cands obj
  | S d' =>
      exists val, In val (values obj) /\ plain_object val = true
                  /\ has_rating_at cands d' val
  end.

(** Whether one of the names occurs as a property name anywhere in a value. *)
Fixpoint mentions (cands : list string) (v : JSON) : bool :=
  match v with
  | JObj props =>
      (fix go (l : list (string * JSON)) : bool :=
         match l with
         | [] => false
         | (k, x) :: rest =>
             existsb (String.eqb k) cands || mentions cands x || go rest
         end) props
  | JArr items =>
      (fix go (l : list JSON) : bool :=
         match l with
         | [] => false
         | x :: rest => mentions cands x || go rest
         end) items
  | _ => false
  end.

(** A response that exposes no rating: no rating field name anywhere in its
    JSON body, and none of the four markup patterns. *)
Definition no_rating (res : Response) : Prop :=
  (forall d, json res = Some d -> mentions ratingFieldCandidates d = false)
  /\ ratingText (html res) = None
  /\ (forall d, nextData (html res) = Some (Some d) ->
                mentions ratingFieldCandidates d = false)
  /\ nuxtRating (html res) = None
  /\ htmlRating (html res) = None.


(** What one page request of the API harvester comes to: [None] when the
    request fails (it rejects, the status is not a success, or the body is
    not JSON), else the articles normalized from the page. *)
Definition page_result (r : option Response) : option (list Article) :=
  match r with
  | Some res =>
      if ok res then
        match json res with
        | Some data => Some (extractNotesFromApiResponse data)
        | None => None
        end
      else None
  | None => None
  end.

(** The [i]-th page a run asks for, when [base] requests went before it and
    its first page starts at offset [start]. *)
Definition page_at (net : nat -> string -> option Response)
           (params : SearchParams) (base : nat) (start : Z) (i : nat)
  : option (list Article) :=
  page_result (net (base + i)%nat
                   (apiUrl params (start + PAGE_SIZE * Z.of_nat i))).

(** All the articles of the first [n] pages. *)
Definition collected (net : nat -> string -> option Response)
           (params : SearchParams) (base : nat) (start : Z) (n : nat)
  : list Article :=
  concat (map (fun i => match page_at net params base start i with
                        | Some l => l
                        | None => []
                        end) (seq 0 n)).

(** The array of the first eligible candidate of a list, if there is one. *)
Fixpoint first_match (cs : list (Eligibility * option JSON))
  : option (list JSON) :=
  match cs with
  | [] => None
  | c :: rest =>
      match eligible c with
      | Some l => Some l
      | None => first_match rest
      end
  end.


(** What a run of the page loop comes to: the requests it makes, and its
    result in terms of the pages it asked for. *)
Definition loop_outcome (net : nat -> string -> option Response)
           (params : SearchParams) (target : Z) (acc : list Article)
           (start : Z) (mc : Machine)
           (res : option (list Article)) (mc' : Machine) (n : nat) : Prop :=
  let page := page_at net params (length (requests mc)) start in
  let all := acc ++ collected net params (length (requests mc)) start n in
  requests mc' =
    requests mc
    ++ map (fun i => apiUrl params (start + PAGE_SIZE * Z.of_nat i)) (seq 0 n)
  /\ ((exists i, (i < n)%nat /\ page i = None) -> res = None)
  /\ ((forall i, (i < n)%nat -> page i <> None) ->
      res = nonempty_or_null (firstn (Z.to_nat target) all)
      /\ ((Z.to_nat target <= length all)%nat
          \/ ((0 < n)%nat /\ page (n - 1)%nat = Some [])))
  /\ (forall i, (S i < n)%nat -> exists l, page i = Some l /\ l <> []).

(** A rating that is the value of a rating field of a JSON body: found by the
    first stage in the answer of the detail API, or by the blob search in the
    embedded data of the page. *)
Definition rating_from_json (net : nat -> string -> option Response)
           (r : number) : Prop :=
  gt0 r = true
  /\ exists i u res,
      net i u = Some res
      /\ (api_stage (Some res) = RatingFound r
          \/ exists d, nextData (html res) = Some (Some d)
                       /\ findRatingInObject d ratingFieldCandidates 0
                          = Returned r).

(** What a run of the scroll loop comes to after [n] scans of a document
    first scanned at index [s]: either the last scan reached the target and
    the state holds its articles cut by [slice], or the count stood still
    over the last 15 scans and the state holds the articles of the last
    scan. *)
Definition scroll_outcome (dom : nat -> list Article) (target : Z) (s n : nat)
           (mc' : Machine) : Prop :=
  let found := dom (s + n - 1)%nat in
  scans mc' = (s + n)%nat
  /\ status (scrapingState mc') = Scraping
  /\ ((target <= Z.of_nat (length found)
       /\ articles (scrapingState mc') = slice0 found target
       /\ current (scrapingState mc') = target)
      \/ (Z.of_nat (length found) < target
          /\ articles (scrapingState mc') = found
          /\ current (scrapingState mc') = Z.of_nat (length found)
          /\ (MAX_RETRIES <= n)%nat
          /\ forall j, (j < MAX_RETRIES)%nat ->
                       length (dom (s + n - 1 - j)%nat) = length found)).

(** What the scroll loop knows before its [k]-th scan: [last] is the count
    of the scan before, the [r] scans before had that count, and once the
    document has settled (after scan [K]) every scan has added a retry. *)
Definition scroll_invariant (dom : nat -> list Article) (s K k last r : nat)
  : Prop :=
  (r <= k)%nat
  /\ (forall j, (j < r)%nat -> length (dom (s + k - 1 - j)%nat) = last)
  /\ ((0 < k)%nat -> last = length (dom (s + k - 1)%nat))
  /\ (k - (K + 1) <= r)%nat.

(** ** Sample inputs *)

Definition sample_note : JSON :=
  JObj [("name", JStr "A"); ("like_count", JNum (of_Z 42));
        ("price", JNum (of_Z 500)); ("note_url", JStr "https://x/u/n/n1");
        ("user", JObj [("nickname", JStr "C")])].

Definition two_arrays : JSON :=
  JObj [("extra", JArr [JObj []]);
        ("data", JObj [("contents", JArr [sample_note])])].

(** The number a numeric field resolves to: the first number of the inner
    view unless that is 0, else the first number of the outer item. *)
Definition inner_then_outer (inner note : JSON) (keys : list string) : number :=
  if is_zero (first_number inner keys) then
    if is_zero (first_number note keys) then zero
    else first_number note keys
  else first_number inner keys.

(** The title candidates, in the order the normalizer tries them. *)
Definition title_candidates (note inner : JSON) : list string :=
  [ text_of (get inner "name"); text_of (get note "name");
    text_of (get inner "title"); text_of (get note "title");
    text_of (get inner "headline"); text_of (get note "headline") ].

(** A number comes from a candidate field of the raw item when it is the
    conversion of a non-null value held, under one of the names, by the inner
    view or by the outer item. *)
Definition from_field (note : JSON) (keys : list string) (n : number) : Prop :=
  exists key val,
    In key keys
    /\ (get (inner_of note) key = Some val \/ get note key = Some val)
    /\ val <> JNull /\ n = ToNumber val.

(** Every candidate field of the raw item that converts to a number converts
    to a non-negative integer. *)
Definition fields_nonneg_integer (note : JSON) (keys : list string) : Prop :=
  forall key val,
    In key keys ->
    (get (inner_of note) key = Some val \/ get note key = Some val) ->
    val <> JNull -> isNaN (ToNumber val) = false ->
    nonneg_integer (ToNumber val) = true.

Definition nested_note : JSON :=
  JObj [("note", JObj [("name", JStr "N"); ("like_count", JNum (of_Z 15));
                       ("price", JNum (of_Z 300))]);
        ("like_count", JNum (of_Z 99))].

Definition nested_article : Article :=
  {| title := "N"; likeCount := of_Z 15; price := of_Z 300;
     url := EmptyString; creator := EmptyString; likeRating := None |}.



(** A negative engagement count and a negative numeric string as price. *)
Definition negative_note : JSON :=
  JObj [("name", JStr "A"); ("like_count", JNum (of_Z (-5)));
        ("price", JStr "-300")].

Definition sample_article : Article :=
  {| title := "A"; likeCount := of_Z 42; price := of_Z 500;
     url := "https://x/u/n/n1"; creator := "C"; likeRating := None |}.


(** The object with the single property [k]. *)
Definition nest (k : string) (v : JSON) : JSON := JObj [(k, v)].

(** The second loop of [findRatingInObject], over the values of the object,
    [f] being the recursive call one level down. *)
Fixpoint children_scan (f : JSON -> outcome number) (vals : list JSON)
  : outcome number :=
  match vals with
  | [] => Returned zero
  | val :: rest =>
      if plain_object val then
        found <- f val ;;
        if gt0 found then Returned found else children_scan f rest
      else children_scan f rest
  end.


Definition running_state : ScrapingState :=
  {| status := Scraping; current := 7; targetCount := 30;
     articles := [sample_article]; message := "busy" |}.

Definition finished_state : ScrapingState :=
  {| status := Completed; current := 1; targetCount := 1;
     articles := [sample_article]; message := "done" |}.

Definition fresh_machine : Machine :=
  {| scrapingState := running_state; requests := []; scans := 0 |}.

Definition no_html : Html :=
  {| ratingText := None; nextData := None; nuxtRating := None;
     htmlRating := None |}.

(** A network whose detail API exposes an engagement count only, and whose
    pages match no pattern. *)
Definition engagement_only_net (i : nat) (u : string) : option Response :=
  Some {| ok := true;
          json := Some (JObj [("data", JObj [("like_count", JNum (of_Z 42));
                                             ("name", JStr "t")])]);
          html := no_html |}.

(** A network whose detail API holds a fractional rating. *)
Definition fractional_net (i : nat) (u : string) : option Response :=
  Some {| ok := true;
          json := Some (JObj [("data",
                              JObj [("rating_count", JNum (Finite 45 (-1)))])]);
          html := no_html |}.

Definition article_url : string := "https://note.com/user/n/n12345".

Definition search_location : Location :=
  {| pathname := "/search"; searchParams := [("q", "rocq")] |}.

Definition page_of (notes : list JSON) : Response :=
  {| ok := true;
     json := Some (JObj [("data", JObj [("notes", JArr notes)])]);
     html := no_html |}.

(** A network with one page of two notes, then an empty page. *)
Definition two_note_net (i : nat) (u : string) : option Response :=
  match i with
  | O => Some (page_of [sample_note; nested_note])
  | _ => Some (page_of [])
  end.

(** A network whose second page answers with a failure status. *)
Definition failing_second_page_net (i : nat) (u : string) : option Response :=
  match i with
  | O => Some (page_of [sample_note; nested_note])
  | _ => Some {| ok := false; json := None; html := no_html |}
  end.

Definition second_article : Article :=
  {| title := "B"; likeCount := of_Z 1; price := zero;
     url := "https://x/u/n/n2"; creator := "D"; likeRating := None |}.

Definition third_article : Article :=
  {| title := "C"; likeCount := of_Z 2; price := zero;
     url := "https://x/u/n/n3"; creator := "E"; likeRating := None |}.

(** A document that shows one article and two articles in turn: a list that
    renders only what is in view drops an item at every other scan. *)
Definition flickering_dom (k : nat) : list Article :=
  if Nat.even k then [sample_article] else [sample_article; second_article].

(** A document that stops at two articles. *)
Definition settled_dom (k : nat) : list Article :=
  [sample_article; second_article].

(** A document of three articles. *)
Definition three_dom (k : nat) : list Article :=
  [sample_article; second_article; third_article].

(** * The rest of the content script, and the popup *)

(** ** Text utilities *)

(** The number of bytes of a character of the class [[,、\s]] that starts a
    text; 0 when the text starts with none.  The ideographic comma is
    U+3001. *)
Definition separator_length (l : list ascii) : nat :=
  match l with
  | c1 :: c2 :: c3 :: _ =>
      if Ascii.eqb c1 comma then 1
      else if byte_is 227 c1 && byte_is 128 c2 && byte_is 129 c3 then 3
      else ws_length l
  | c1 :: _ => if Ascii.eqb c1 comma then 1 else ws_length l
  | [] => 0
  end.

(** The global replacement in [extractNumber]: every separator is removed. *)
Fixpoint remove_separators (l : list ascii) : list ascii :=
  match l with
  | [] => []
  | c1 :: r1 =>
      match separator_length l, r1 with
      | 1%nat, _ => remove_separators r1
      | 2%nat, _ :: r2 => remove_separators r2
      | 3%nat, _ :: _ :: r3 => remove_separators r3
      | _, _ => c1 :: remove_separators r1
      end
  end.

(** The first run of decimal digits of a text, if it has one. *)
Definition first_digits (l : list ascii) : option (list ascii) :=
  match span is_digit (drop_while (fun c => negb (is_digit c)) l) with
  | (d :: ds, _) => Some (d :: ds)
  | ([], _) => None
  end.

(** [extractNumber(text)], of a string. *)
Definition extractNumber (text : string) : number :=
  if String.eqb text EmptyString then zero
  else
    let cleaned := remove_separators (list_ascii_of_string text) in
    match first_digits cleaned with
    | Some ds => parseInt_digits ds
    | None => zero
    end.

Fixpoint strip_prefix (p s : list ascii) : option (list ascii) :=
  match p, s with
  | [], _ => Some s
  | a :: p', b :: s' => if Ascii.eqb a b then strip_prefix p' s' else None
  | _ :: _, [] => None
  end.

Definition not_slash (c : ascii) : bool := negb (Ascii.eqb c "/").

(** The match of [extractCreatorFromUrl]: the first place where [note.com/]
    is followed by one or more characters other than a slash and then by a
    slash. *)
Fixpoint match_creator (s : list ascii) : option (list ascii) :=
  match s with
  | [] => None
  | _ :: rest =>
      match strip_prefix (list_ascii_of_string "note.com/") s with
      | Some tail =>
          match span not_slash tail with
          | (k :: ks, "/"%char :: _) => Some (k :: ks)
          | _ => match_creator rest
          end
      | None => match_creator rest
      end
  end.

(** [extractCreatorFromUrl(url)]. *)
Definition extractCreatorFromUrl (url : string) : string :=
  match match_creator (list_ascii_of_string url) with
  | Some name => string_of_list_ascii name
  | None => EmptyString
  end.

(** ** Export: the file *)

(** What [new Date()] answers through the getters [formatDate] calls. *)
Record Clock : Type := mkClock {
  fullYear : Z;
  month : Z;          (* [getMonth()]: 0 for January *)
  date : Z;
  hours : Z;
  minutes : Z
}.

(** [s.padStart(2, "0")]. *)
Definition padStart2 (s : string) : string :=
  match String.length s with
  | O => "00" ++ s
  | S O => "0" ++ s
  | _ => s
  end%string.

(** [formatDate()]. *)
Definition formatDate (now : Clock) : string :=
  (NumberToString (of_Z (fullYear now))
   ++ padStart2 (NumberToString (of_Z (month now + 1)))
   ++ padStart2 (NumberToString (of_Z (date now)))
   ++ "_"
   ++ padStart2 (NumberToString (of_Z (hours now)))
   ++ padStart2 (NumberToString (of_Z (minutes now))))%string.

(** The byte-order mark, U+FEFF, in UTF-8. *)
Definition bom : string :=
  String (ascii_of_nat 239) (String (ascii_of_nat 187)
    (String (ascii_of_nat 191) EmptyString)).

(** What [downloadCSV] hands to the browser: a file name and the bytes of
    the blob. *)
Record Download : Type := mkDownload {
  filename : string;
  content : string
}.

(** [downloadCSV(articles)]. *)
Definition downloadCSV (now : Clock) (articles : list Article) : Download :=
  {| filename := ("note_search_results_" ++ formatDate now ++ ".csv")%string;
     content := (bom ++ csvContent articles)%string |}.

(** ** The item container of the DOM harvester *)

(** An ancestor of a link, as [findArticleContainer] sees it: whether it is
    [document.body], and whether it holds a link to another item
    ([hasMultiple]). *)
Record Ancestor : Type := mkAncestor {
  isBody : bool;
  hasMultiple : bool
}.

(** The [for] loop of [findArticleContainer]: [chain] lists the element [el]
    and the ancestors above it, [parent] is [linkEl.parentElement]. *)
Fixpoint findArticleContainer_loop {E : Type} (view : E -> Ancestor)
         (rounds : nat) (chain : list E) (parent : option E) : option E :=
  match rounds with
  | O => parent
  | S rounds' =>
      match chain with
      | [] => parent                                    (* [!el] *)
      | el :: above =>
          if isBody (view el) then parent
          else if hasMultiple (view el) then parent
          else findArticleContainer_loop view rounds' above parent
      end
  end.

(** [findArticleContainer(linkEl)], given the ancestors of the link from its
    parent upwards. *)
Definition findArticleContainer {E : Type} (view : E -> Ancestor)
           (ancestors : list E) : option E :=
  findArticleContainer_loop view 10 ancestors (hd_error ancestors).

(** ** The rating enricher over a list, and the run *)

Definition set_message (m : string) (st : ScrapingState) : ScrapingState :=
  {| status := status st; current := current st;
     targetCount := targetCount st; articles := articles st; message := m |}.

Definition set_status (s : Status) (st : ScrapingState) : ScrapingState :=
  {| status := s; current := current st;
     targetCount := targetCount st; articles := articles st;
     message := message st |}.

(** [{ ...article, likeRating: rating }]. *)
Definition with_rating (article : Article) (rating : number) : Article :=
  {| title := title article; likeCount := likeCount article;
     price := price article; url := url article; creator := creator article;
     likeRating := Some rating |}.

(** The progress message of [fetchAllLikeRatings]. *)
Definition rating_progress (done total : nat) : string :=
  ("高評価数を取得中... " ++ NumberToString (of_nat done) ++ " / "
     ++ NumberToString (of_nat total) ++ " 件")%string.

Definition completed_message (n : nat) : string :=
  (NumberToString (of_nat n) ++ "件のデータをCSVに出力しました。")%string.

Definition no_data_message : string :=
  "記事データを取得できませんでした。DevToolsのConsoleログを確認してください。".





(** Messages delivered one after the other.  Between two deliveries the
    run in progress, if any, makes steps of its own: each message comes with
    what those steps make of the session state. *)
Fixpoint deliver (msgs : list ((ScrapingState -> ScrapingState) * Message))
         (st : ScrapingState)
  : ScrapingState * list (option Reply) * list Z :=
  match msgs with
  | [] => (st, [], [])
  | (steps, msg) :: rest =>
      let h := onMessage msg (steps st) in
      let '(st', replies, runs) := deliver rest (state_after h) in
      (st', reply h :: replies,
       match launched h with Some count => count :: runs | None => runs end)
  end.

(** A run in progress does not leave the [scraping] status. *)
Definition in_progress (steps : ScrapingState -> ScrapingState) : Prop :=
  forall st, status st = Scraping -> status (steps st) = Scraping.

Definition morning : Clock :=
  {| fullYear := 2026; month := 0; date := 5; hours := 9; minutes := 7 |}.

(** A clock that [new Date()] can show: a year of four digits, and the
    ranges of the getters. *)
Definition clock_valid (now : Clock) : Prop :=
  1000 <= fullYear now <= 9999 /\ 0 <= month now <= 11
  /\ 1 <= date now <= 31 /\ 0 <= hours now <= 23 /\ 0 <= minutes now <= 59.

Section Run.

Variable net : nat -> string -> option Response.
Variable dom : nat -> list Article.
Variable location : Location.
Variable now : Clock.

(** The exception [diagnoseDom] throws, by its message, if it throws one: it
    calls [substring] on the [className] of the ancestors of the first
    article link, which is not a string on an element of an SVG image. *)
Variable diagnosis : option string.

(** The exception the browser throws inside [downloadCSV], if it throws one
    (the blob, the object URL, a document without a body): whether the link
    had been clicked by then, and the message. *)
Variable saving : option (bool * string).

(** The [for] loop of [fetchAllLikeRatings], from index [i]. *)
Fixpoint fetchAllLikeRatings_loop (total i : nat) (todo : list Article)
         (mc : Machine) : list Article * Machine :=
  match todo with
  | [] => ([], mc)
  | article :: rest =>
      let (rating, mc1) := fetchLikeRating net (url article) mc in
      let st :=
        set_message (rating_progress (S i) total)
                    (set_current (Z.of_nat (S i)) (scrapingState mc1)) in
      let (results, mc2) :=
        fetchAllLikeRatings_loop total (S i) rest (set_state st mc1) in
      (with_rating article rating :: results, mc2)
  end.

(** [fetchAllLikeRatings(articles)]. *)
Definition fetchAllLikeRatings (articles : list Article) (mc : Machine)
  : list Article * Machine :=
  fetchAllLikeRatings_loop (length articles) 0 articles mc.

(** The harvest of the run launched by the listener: the API first and the
    document as a fallback on a search page, the document alone on a hashtag
    page. *)
Definition harvest (fuel : nat) (count : Z) (mc : Machine)
  : option (list Article * Machine) :=
  if String.eqb (getPageType location) "hashtag" then
    match autoScrollAndCollect dom fuel count mc with
    | Some mc1 => Some (articles (scrapingState mc1), mc1)
    | None => None
    end
  else
    match fetchFromAPI net location fuel count mc with
    | None => None
    | Some (Some (a :: l), mc1) =>
        Some (a :: l,
              set_state (set_current (Z.of_nat (length (a :: l)))
                           (set_articles (a :: l) (scrapingState mc1))) mc1)
    | Some (_, mc1) =>
        match autoScrollAndCollect dom fuel count mc1 with
        | Some mc2 => Some (articles (scrapingState mc2), mc2)
        | None => None
        end
    end.

(** The handler of the run: [catch (err)]. *)
Definition caught (msg : string) (mc : Machine) : Machine :=
  set_state (set_message ("エラー: " ++ msg)%string
               (set_status Error (scrapingState mc))) mc.

(** The run launched by the listener on an accepted start request: the final
    machine and the file handed to the browser, if any; [None] when the fuel
    runs out.  The harvesters and the rating enricher catch what is thrown
    inside them; the handler of the run gets the exceptions of
    [diagnoseDom] and of [downloadCSV]. *)
Definition runScraping (fuel : nat) (count : Z) (mc : Machine)
  : option (Machine * option Download) :=
  match diagnosis with
  | Some msg => Some (caught msg mc, None)
  | None =>
      match harvest fuel count mc with
      | None => None
      | Some ([], mc1) =>
          Some (set_state (set_message no_data_message
                             (set_status Error (scrapingState mc1))) mc1,
                None)
      | Some (found, mc1) =>
          let mc2 :=
            set_state (set_message "高評価数を取得中..." (scrapingState mc1))
                      mc1 in
          let (rated, mc3) := fetchAllLikeRatings found mc2 in
          match saving with
          | Some (clicked, msg) =>
              Some (caught msg mc3,
                    if clicked then Some (downloadCSV now rated) else None)
          | None =>
              let st :=
                set_message (completed_message (length rated))
                  (set_current (Z.of_nat (length rated))
                     (set_status Completed (scrapingState mc3))) in
              Some (set_state st mc3, Some (downloadCSV now rated))
          end
      end
  end.

End Run.

(** ** A reader of CSV text *)

(** Where a CSV reader stands inside a record. *)
Inductive CsvMode : Type :=
| Bare          (* in a field without quotes, or at the start of a field *)
| InQuoted      (* inside the quotes of a field *)
| AfterQuote.   (* after a quote character met inside the quotes *)

Definition snoc (s : string) (c : ascii) : string :=
  (s ++ String c EmptyString)%string.

(** A reader of comma-separated text in the usual convention: a field may be
    wrapped in quote characters, inside which two quote characters stand for
    one and commas and line feeds are data.  [field] is the field being read,
    [row] the fields read of the record, [rows] the records read.  The
    answer is [None] on malformed text. *)
Fixpoint read_csv (mode : CsvMode) (field : string) (row : list string)
         (rows : list (list string)) (text : string)
  : option (list (list string)) :=
  match text with
  | EmptyString =>
      match mode with
      | InQuoted => None
      | _ => Some (rows ++ [row ++ [field]])
      end
  | String c rest =>
      match mode with
      | Bare =>
          if Ascii.eqb c dquote then
            if String.eqb field EmptyString
            then read_csv InQuoted EmptyString row rows rest
            else None
          else if Ascii.eqb c comma then
            read_csv Bare EmptyString (row ++ [field]) rows rest
          else if Ascii.eqb c newline then
            read_csv Bare EmptyString [] (rows ++ [row ++ [field]]) rest
          else read_csv Bare (snoc field c) row rows rest
      | InQuoted =>
          if Ascii.eqb c dquote then read_csv AfterQuote field row rows rest
          else read_csv InQuoted (snoc field c) row rows rest
      | AfterQuote =>
          if Ascii.eqb c dquote then
            read_csv InQuoted (snoc field dquote) row rows rest
          else if Ascii.eqb c comma then
            read_csv Bare EmptyString (row ++ [field]) rows rest
          else if Ascii.eqb c newline then
            read_csv Bare EmptyString [] (rows ++ [row ++ [field]]) rest
          else None
      end
  end.

(** The six values of an article that its row of the export carries. *)
Definition csv_fields (a : Article) : list string :=
  [ title a;
    NumberToString (likeCount a);
    NumberToString (match likeRating a with
                    | Some r => or_num r zero
                    | None => zero
                    end);
    NumberToString (price a);
    url a;
    creator a ].

(** A character that needs no quoting. *)
Definition plain_char (c : ascii) : bool :=
  negb (Ascii.eqb c dquote || Ascii.eqb c comma || Ascii.eqb c newline).

Fixpoint all_chars (p : ascii -> bool) (s : string) : bool :=
  match s with
  | EmptyString => true
  | String c rest => p c && all_chars p rest
  end.

(** An article without its rating. *)
Definition without_rating (a : Article) : Article :=
  {| title := title a; likeCount := likeCount a; price := price a;
     url := url a; creator := creator a; likeRating := None |}.

(** The characters [String] writes a number with. *)
Definition numeral_char (c : ascii) : bool :=
  is_digit c
  || existsb (Ascii.eqb c) (list_ascii_of_string "NaInfity.e+-").

(** A value read under [href] that [buildNoteUrl] cannot handle: truthy and
    not a string. *)
Definition bad_href (note : JSON) : Prop :=
  exists v,
    (get (inner_of note) "href" = Some v \/ get note "href" = Some v)
    /\ truthy v = true /\ (forall s, v <> JStr s).

(** The separators a count is written with: the comma, the ideographic
    comma and the space. *)
Definition group_separators : list (list ascii) :=
  [ list_ascii_of_string ","; list_ascii_of_string "、";
    list_ascii_of_string " " ].

(** Groups of digits, each after a separator. *)
Fixpoint grouped (groups : list (list ascii * list ascii)) : list ascii :=
  match groups with
  | [] => []
  | (sep, ds) :: rest => sep ++ ds ++ grouped rest
  end.

(** A text that does not go on with a digit, separators apart. *)
Definition no_digit_follows (tail : list ascii) : Prop :=
  match remove_separators tail with
  | [] => True
  | c :: _ => is_digit c = false
  end.

(** An item whose address is to be built from its key and the name of its
    user. *)
Definition keyed_note (key urlname : string) : JSON :=
  JObj [("key", JStr key); ("user", JObj [("urlname", JStr urlname)])].

(** A link whose ancestors are not the body. *)
Definition plain_ancestor (hasOther : bool) : Ancestor :=
  {| isBody := false; hasMultiple := hasOther |}.

(** Whether a text starts with the three characters [/n/], and what follows
    them. *)
Definition key_start (s : list ascii) : option (list ascii) :=
  match s with
  | c1 :: c2 :: c3 :: tail =>
      if Ascii.eqb c1 "/" && Ascii.eqb c2 "n" && Ascii.eqb c3 "/"
      then Some tail else None
  | _ => None
  end.

(** The address of the detail API for an item identifier. *)
Definition detail_api (key : string) : string :=
  ("https://note.com/api/v3/notes/" ++ key)%string.

(** An article that carries a rating: a number, neither NaN nor negative. *)
Definition rated_ok (a : Article) : Prop :=
  exists r, likeRating a = Some r /\ isNaN r = false /\ lt0 r = false.

(** What a component leaves alone in the session state when it only reports
    progress: the status, the target and the articles. *)
Definition same_session (st st' : ScrapingState) : Prop :=
  status st' = status st /\ targetCount st' = targetCount st
  /\ articles st' = articles st.

(** A text of [n] decimal digits. *)
Definition is_digits (n : nat) (s : string) : bool :=
  (String.length s =? n)%nat && all_chars is_digit s.

(** A field, under one of the names, that holds a value whose conversion
    throws. *)
Definition throwing_field_in (cands : list string) (obj : JSON) : Prop :=
  exists key val,
    In key cands /\ get obj key = Some val /\ ToPrimitive_throws val = true.

(** Such a field nested [d] levels of objects below [obj]. *)
Fixpoint throwing_field_at (cands : list string) (d : nat) (obj : JSON)
  : Prop :=
  match d with
  | O => throwing_field_in cands obj
  | S d' =>
      exists val, In val (values obj) /\ plain_object val = true
                  /\ throwing_field_at cands d' val
  end.

(** A field of the raw item, of its inner view or of the user object of
    either, that holds a value whose conversion throws. *)
Definition unconvertible_field (note : JSON) : Prop :=
  exists obj key val,
    (obj = inner_of note \/ obj = note
     \/ get (inner_of note) "user" = Some obj \/ get note "user" = Some obj)
    /\ get obj key = Some val /\ ToPrimitive_throws val = true.

(** An item whose [name] is an object with a property named [toString]. *)
Definition unprintable_note : JSON :=
  JObj [("name", JObj [("toString", JNum (of_Z 1))])].


(** Where and why a run of the page loop that starts with nothing stops:
    [n] pages are asked for; every page but the last yields items and leaves
    the count below the target; and either no page is asked for, the target
    being 0 or less, or the last page fails, or it yields no item, or it
    brings the count to the target. *)
Definition api_run (net : nat -> string -> option Response)
           (params : SearchParams) (base : nat) (target : Z)
           (res : option (list Article)) (n : nat) : Prop :=
  let page := page_at net params base 0 in
  let all := collected net params base 0 in
  (forall i, (S i < n)%nat ->
             exists l, page i = Some l /\ l <> []
                       /\ Z.of_nat (length (all (S i))) < target)
  /\ ((n = 0%nat /\ target <= 0 /\ res = None)
      \/ (exists i,
             n = S i /\ 0 < target
             /\ ((page i = None /\ res = None)
                 \/ (page i = Some [] /\ res = nonempty_or_null (all i))
                 \/ (exists l,
                        page i = Some l /\ l <> []
                        /\ target <= Z.of_nat (length (all (S i)))
                        /\ res = Some (firstn (Z.to_nat target)
                                              (all (S i))))))).

(** The number of articles the [k]-th scan of a run finds, the document
    having been scanned [s] times before the run. *)
Definition scan_count (dom : nat -> list Article) (s k : nat) : nat :=
  length (dom (s + k)%nat).

(** The count a scan is compared with: that of the scan before, and 0 for
    the first scan. *)
Definition count_before (dom : nat -> list Article) (s k : nat) : nat :=
  match k with
  | O => 0
  | S j => scan_count dom s j
  end.

Definition unchanged (dom : nat -> list Article) (s k : nat) : bool :=
  (scan_count dom s k =? count_before dom s k)%nat.

(** The number of scans in a row, up to scan [k - 1], that found as many
    articles as the scan before them. *)
Fixpoint retries (dom : nat -> list Article) (s k : nat) : nat :=
  match k with
  | O => 0
  | S j => if unchanged dom s j then S (retries dom s j) else 0
  end.

(** Scan [k] finds the target. *)
Definition reaches (dom : nat -> list Article) (s : nat) (target : Z)
           (k : nat) : bool :=
  target <=? Z.of_nat (scan_count dom s k).

(** Scan [k] is the 15th in a row to find as many articles as the scan
    before it. *)
Definition stagnates (dom : nat -> list Article) (s k : nat) : bool :=
  (MAX_RETRIES <=? retries dom s (S k))%nat.

Definition stops (dom : nat -> list Article) (s : nat) (target : Z)
           (k : nat) : bool :=
  reaches dom s target k || stagnates dom s k.

(** * Theorems *)

(** ** JSON tree locator *)

Lemma first_match_app (a b : list (Eligibility * option JSON)) :
  first_match (a ++ b) =
  match first_match a with Some l => Some l | None => first_match b end.
Proof.
  induction a as [|c a IH]; simpl; [reflexivity|].
  destruct (eligible c); [reflexivity | exact IH].
Qed.

Lemma first_match_some cs l :
  first_match cs = Some l ->
  exists pre c post,
    cs = pre ++ c :: post
    /\ (forall c', In c' pre -> eligible c' = None)
    /\ eligible c = Some l.
Proof.
  induction cs as [|c cs IH]; simpl; [discriminate|].
  destruct (eligible c) as [l'|] eqn:E.
  - intros [= <-]. exists [], c, cs. repeat split; auto.
    intros c' [].
  - intros H. destruct (IH H) as (pre & c0 & post & -> & Hpre & Hc0).
    exists (c :: pre), c0, post. repeat split; auto.
    intros c' [<- | Hin]; auto.
Qed.

Lemma first_match_none cs :
  first_match cs = None -> forall c, In c cs -> eligible c = None.
Proof.
  induction cs as [|c cs IH]; simpl; [intros _ c []|].
  destruct (eligible c) eqn:E; [discriminate|].
  intros H c' [<- | Hin]; auto.
Qed.

Lemma scan_paths_first_match data ps :
  scan_paths data ps =
  first_match (map (fun p => (NonEmptyArray, path data p)) ps).
Proof.
  induction ps as [|p ps IH]; simpl; [reflexivity|].
  destruct (nonempty_array (path data p)); [reflexivity | exact IH].
Qed.

Lemma scan_entries_first_match skip es :
  scan_entries skip es =
  first_match (map (fun kv => (ArrayOfObjects, Some (snd kv)))
                   (filter (fun kv => negb (skip (fst kv))) es)).
Proof.
  induction es as [|[key value] es IH]; simpl; [reflexivity|].
  destruct (skip key); simpl; [exact IH|].
  destruct (array_of_objects value); [reflexivity | exact IH].
Qed.

Lemma filter_all {A} (f : A -> bool) (l : list A) :
  (forall x, f x = true) -> filter f l = l.
Proof.
  intros Hf. induction l as [|x l IH]; simpl; [reflexivity|].
  now rewrite Hf, IH.
Qed.

(** The locator, on a non-null object or array, answers with the first
    eligible candidate of the priority list. *)
Lemma findNotesArray_first_match data :
  is_object data = true ->
  findNotesArray data =
  match first_match (candidates data) with Some l => l | None => [] end.
Proof.
  intros Hobj. unfold findNotesArray, candidates. rewrite Hobj. simpl negb.
  cbv iota. rewrite !first_match_app, <- scan_paths_first_match.
  destruct (scan_paths data paths) as [l|]; [reflexivity|].
  simpl first_match at 1.
  destruct (nonempty_array (get data "data")) as [l|] eqn:Hd; [reflexivity|].
  rewrite (scan_entries_first_match (fun key => String.eqb key "data")).
  destruct (get data "data") as [[| | | | |props]|]; simpl first_match at 1;
    try reflexivity.
  unfold entries at 1. rewrite scan_entries_first_match, filter_all by reflexivity.
  now destruct (first_match (map _ props)).
Qed.

(** C1 (as amended).  On null or a value that is not an object,
    [findNotesArray] returns the empty sequence.  On an object it returns the
    array of the first candidate, in the fixed priority order (the dotted
    paths, then [data] itself, then each property of a non-array [data]
    object, then each top-level property other than [data]), that passes its
    eligibility test, and never that of a later one; it returns the empty
    sequence when no candidate passes.  The test is "non-empty array" for the
    dotted paths and for [data] itself, and "non-empty array whose first
    element is a non-null object" for the enumerated properties. *)
Theorem findNotesArray_priority (data : JSON) :
  (is_object data = false -> findNotesArray data = [])
  /\ (is_object data = true ->
      (exists pre c post l,
          candidates data = pre ++ c :: post
          /\ (forall c', In c' pre -> eligible c' = None)
          /\ eligible c = Some l
          /\ findNotesArray data = l)
      \/ ((forall c, In c (candidates data) -> eligible c = None)
          /\ findNotesArray data = [])).
Proof.
  split.
  - intros H. unfold findNotesArray. now rewrite H.
  - intros H. rewrite (findNotesArray_first_match data H).
    destruct (first_match (candidates data)) as [l|] eqn:E.
    + left. destruct (first_match_some _ _ E) as (pre & c & post & ? & ? & ?).
      exists pre, c, post, l. auto.
    + right. split; [apply first_match_none; exact E | reflexivity].
Qed.

(** Both [data.contents] and a later top-level property hold arrays of
    objects: the dotted path wins. *)
Lemma findNotesArray_priority_witness :
  is_object two_arrays = true
  /\ ((exists pre c post l,
          candidates two_arrays = pre ++ c :: post
          /\ (forall c', In c' pre -> eligible c' = None)
          /\ eligible c = Some l
          /\ findNotesArray two_arrays = l)
      \/ ((forall c, In c (candidates two_arrays) -> eligible c = None)
          /\ findNotesArray two_arrays = [])).
Proof.
  split; [reflexivity|].
  exact (proj2 (findNotesArray_priority two_arrays) eq_refl).
Defined.

(** C1 (as stated) fails: an array of primitives found under a dotted path
    is returned, although its first element is not an object. *)
Lemma findNotesArray_returns_primitives :
  findNotesArray (JObj [("notes", JArr [JNum (of_Z 1); JNum (of_Z 2)])])
  = [JNum (of_Z 1); JNum (of_Z 2)]
  /\ array_of_objects (JArr [JNum (of_Z 1); JNum (of_Z 2)]) = None.
Proof. split; reflexivity. Qed.

(** ** Field normalizer *)

Lemma Number_of_returned val n :
  Number_of val = Returned n ->
  ToPrimitive_throws val = false /\ n = ToNumber val.
Proof.
  unfold Number_of. destruct (ToPrimitive_throws val); [discriminate|].
  intros [= <-]. auto.
Qed.

Lemma String_of_returned val t :
  String_of val = Returned t ->
  ToPrimitive_throws val = false /\ t = ToString val.
Proof.
  unfold String_of. destruct (ToPrimitive_throws val); [discriminate|].
  intros [= <-]. auto.
Qed.

Lemma safeNum_keys_first_number obj keys n :
  safeNum_keys obj keys = Returned n -> n = first_number obj keys.
Proof.
  unfold first_number.
  induction keys as [|key keys IH]; cbn [safeNum_keys find].
  - now intros [= <-].
  - unfold yields_number at 1.
    destruct (get obj key) as [val|] eqn:G; [|exact IH].
    assert (Hval : (num <- Number_of val ;;
                    if negb (isNaN num) then Returned num
                    else safeNum_keys obj keys) = Returned n ->
                   n = match (if negb (isNaN (ToNumber val)) then Some key
                              else find (yields_number obj) keys) with
                       | Some key0 =>
                           match get obj key0 with
                           | Some val0 => ToNumber val0
                           | None => zero
                           end
                       | None => zero
                       end).
    { destruct (Number_of val) as [num|] eqn:N; [|discriminate].
      apply Number_of_returned in N. destruct N as [_ ->]. cbn [bind].
      destruct (negb (isNaN (ToNumber val))).
      - rewrite G. now intros [= <-].
      - exact IH. }
    destruct val; try exact Hval. exact IH.
Qed.

Lemma safeNum_first_number obj keys n :
  is_object obj = true -> safeNum obj keys = Returned n ->
  n = first_number obj keys.
Proof.
  intros H. unfold safeNum. rewrite H. apply safeNum_keys_first_number.
Qed.

Lemma first_number_cases obj keys :
  first_number obj keys = zero
  \/ exists key val,
      In key keys /\ get obj key = Some val /\ val <> JNull
      /\ isNaN (ToNumber val) = false
      /\ first_number obj keys = ToNumber val.
Proof.
  unfold first_number.
  destruct (find (yields_number obj) keys) as [key|] eqn:F; [|now left].
  apply find_some in F. destruct F as [Hin Hy].
  unfold yields_number in Hy.
  destruct (get obj key) as [val|] eqn:G; [|discriminate].
  right. exists key, val. repeat split; auto.
  - intros ->. discriminate.
  - destruct val; try discriminate; now apply negb_true_iff in Hy.
Qed.

Lemma first_number_not_NaN obj keys : isNaN (first_number obj keys) = false.
Proof.
  destruct (first_number_cases obj keys) as [-> | (k & v & _ & _ & _ & N & ->)];
    [reflexivity | exact N].
Qed.

Lemma inner_of_is_object note :
  is_object note = true -> is_object (inner_of note) = true.
Proof.
  intros H. unfold inner_of.
  destruct (get note "note") as [n|]; [|exact H].
  destruct (is_object n) eqn:E; [exact E | exact H].
Qed.

Lemma or_num_not_NaN a b :
  isNaN a = false ->
  or_num a b = if is_zero a then b else a.
Proof. intros H. unfold or_num, truthy_num. rewrite H. now destruct (is_zero a). Qed.

Lemma safeStr_returned val t : safeStr val = Returned t -> t = text_of val.
Proof.
  destruct val as [v|]; [|now intros [= <-]].
  destruct v; cbn [safeStr text_of]; try (now intros [= <-]);
    intros H; apply String_of_returned in H; exact (proj2 H).
Qed.

Lemma or_else_str_first_nonempty val rest l t :
  (forall r, rest = Returned r -> r = first_nonempty l) ->
  or_else_str (safeStr val) rest = Returned t ->
  t = first_nonempty (text_of val :: l).
Proof.
  intros Hrest. unfold or_else_str.
  destruct (safeStr val) as [x|] eqn:S; [|discriminate].
  apply safeStr_returned in S. subst x. cbn [bind].
  unfold first_nonempty. cbn [find].
  destruct (String.eqb (text_of val) EmptyString); cbn [negb].
  - intros H. exact (Hrest _ H).
  - now intros [= <-].
Qed.

Lemma title_of_first_nonempty note inner t :
  title_of note inner = Returned t ->
  t = first_nonempty (title_candidates note inner).
Proof.
  unfold title_of, title_candidates.
  repeat (apply or_else_str_first_nonempty; intros ?).
  now intros [= <-].
Qed.

(** The numeric fields of a produced article, in the specification's words. *)
Lemma numeric_field_resolution note keys x :
  is_object note = true ->
  or_else_num (safeNum (inner_of note) keys) (safeNum note keys) = Returned x ->
  or_num x zero = inner_then_outer (inner_of note) note keys.
Proof.
  intros H. pose proof (inner_of_is_object note H) as Hi.
  unfold or_else_num, inner_then_outer.
  destruct (safeNum (inner_of note) keys) as [a|] eqn:Sa; [|discriminate].
  apply (safeNum_first_number _ _ _ Hi) in Sa. subst a. cbn [bind].
  pose proof (first_number_not_NaN (inner_of note) keys) as Na.
  pose proof (first_number_not_NaN note keys) as Nb.
  unfold truthy_num. rewrite Na. cbn [orb].
  destruct (is_zero (first_number (inner_of note) keys)) eqn:Za; cbn [negb].
  - intros Sb. apply (safeNum_first_number _ _ _ H) in Sb. subst x.
    unfold or_num, truthy_num. rewrite Nb. cbn [orb].
    now destruct (is_zero (first_number note keys)).
  - intros [= <-]. unfold or_num, truthy_num. rewrite Na, Za. reflexivity.
Qed.

Lemma extractArticleFromNote_fields note a :
  extractArticleFromNote note = Returned (Some a) ->
  is_object note = true
  /\ title a = first_nonempty (title_candidates note (inner_of note))
  /\ likeCount a = inner_then_outer (inner_of note) note likeKeys
  /\ price a = inner_then_outer (inner_of note) note priceKeys.
Proof.
  unfold extractArticleFromNote.
  destruct (is_object note) eqn:H; cbn [negb]; [|discriminate].
  destruct (title_of note (inner_of note)) as [t|] eqn:T; [|discriminate].
  cbn [bind].
  destruct (or_else_num (safeNum (inner_of note) likeKeys) _) as [l|] eqn:L;
    [|discriminate].
  cbn [bind].
  destruct (or_else_num (safeNum (inner_of note) priceKeys) _) as [p|] eqn:P;
    [|discriminate].
  cbn [bind].
  destruct (buildNoteUrl note (inner_of note)); [|discriminate]. cbn [bind].
  destruct (findCreatorName note (inner_of note)); [|discriminate].
  cbn [bind]. intros [= <-]. cbn [title likeCount price].
  split; [reflexivity|]. split; [exact (title_of_first_nonempty _ _ _ T)|].
  split; now apply numeric_field_resolution.
Qed.




Lemma inner_then_outer_cases note keys :
  inner_then_outer (inner_of note) note keys = zero
  \/ (isNaN (inner_then_outer (inner_of note) note keys) = false
      /\ from_field note keys (inner_then_outer (inner_of note) note keys)).
Proof.
  unfold inner_then_outer, from_field.
  destruct (is_zero (first_number (inner_of note) keys)).
  - destruct (is_zero (first_number note keys)); [now left|].
    destruct (first_number_cases note keys)
      as [-> | (k & v & Hin & G & Hn & N & ->)]; [now left|].
    right. split; [exact N|]. exists k, v. auto.
  - destruct (first_number_cases (inner_of note) keys)
      as [-> | (k & v & Hin & G & Hn & N & ->)]; [now left|].
    right. split; [exact N|]. exists k, v. auto.
Qed.

Lemma inner_then_outer_nonneg_integer note keys :
  fields_nonneg_integer note keys ->
  nonneg_integer (inner_then_outer (inner_of note) note keys) = true.
Proof.
  intros Hf.
  destruct (inner_then_outer_cases note keys)
    as [-> | (N & k & v & Hin & G & Hn & E)]; [reflexivity|].
  rewrite E in N |- *. exact (Hf k v Hin G Hn N).
Qed.

(** C8 (as amended).  Every article the normalizer produces has a [likeCount]
    and a [price] that are numbers other than NaN, each either 0 or the
    conversion of one of the candidate fields of the raw item; they are
    non-negative integers whenever every candidate field that converts to a
    number converts to a non-negative integer, and a negative or fractional
    field value is passed on as it is. *)
Theorem normalizer_numeric_fields (note : JSON) (a : Article) :
  extractArticleFromNote note = Returned (Some a) ->
  isNaN (likeCount a) = false
  /\ isNaN (price a) = false
  /\ (likeCount a = zero \/ from_field note likeKeys (likeCount a))
  /\ (price a = zero \/ from_field note priceKeys (price a))
  /\ (fields_nonneg_integer note likeKeys ->
      nonneg_integer (likeCount a) = true)
  /\ (fields_nonneg_integer note priceKeys ->
      nonneg_integer (price a) = true).
Proof.
  intros H. destruct (extractArticleFromNote_fields note a H) as (_ & _ & L & P).
  rewrite L, P.
  pose proof (inner_then_outer_cases note likeKeys) as CL.
  pose proof (inner_then_outer_cases note priceKeys) as CP.
  repeat split.
  - destruct CL as [-> | [N _]]; [reflexivity | exact N].
  - destruct CP as [-> | [N _]]; [reflexivity | exact N].
  - destruct CL as [E | [_ F]]; [now left | now right].
  - destruct CP as [E | [_ F]]; [now left | now right].
  - apply inner_then_outer_nonneg_integer.
  - apply inner_then_outer_nonneg_integer.
Qed.

Lemma nested_note_fields_nonneg keys :
  keys = likeKeys \/ keys = priceKeys ->
  fields_nonneg_integer nested_note keys.
Proof.
  intros Hk key val Hin G _ _.
  assert (E : val = JNum (of_Z 15) \/ val = JNum (of_Z 300)
              \/ val = JNum (of_Z 99)).
  { destruct Hk as [-> | ->]; simpl in Hin;
      repeat (destruct Hin as [<- | Hin];
              [ destruct G as [G | G]; simpl in G; try discriminate;
                injection G as <-; auto | ]);
      destruct Hin. }
  destruct E as [-> | [-> | ->]]; reflexivity.
Qed.

Lemma normalizer_numeric_fields_witness :
  extractArticleFromNote nested_note = Returned (Some nested_article)
  /\ nonneg_integer (likeCount nested_article) = true
  /\ nonneg_integer (price nested_article) = true.
Proof.
  pose proof (normalizer_numeric_fields nested_note nested_article eq_refl)
    as (_ & _ & _ & _ & HL & HP).
  split; [reflexivity|]. split.
  - apply HL, nested_note_fields_nonneg. now left.
  - apply HP, nested_note_fields_nonneg. now right.
Defined.

(** C8 (as stated) fails: a negative engagement count and a negative numeric
    string as price are passed on to the article. *)
Lemma normalizer_keeps_negative_numbers :
  extractArticleFromNote negative_note
  = Returned (Some {| title := "A"; likeCount := of_Z (-5);
                      price := of_Z (-300); url := EmptyString;
                      creator := EmptyString; likeRating := None |})
  /\ nonneg_integer (of_Z (-5)) = false
  /\ nonneg_integer (of_Z (-300)) = false.
Proof. repeat split; reflexivity. Qed.

(** ** Export encoder *)

Lemma double_quotes_without_quote s :
  includes dquote s = false -> double_quotes s = s.
Proof.
  induction s as [|c s IH]; cbn [includes double_quotes]; [reflexivity|].
  rewrite (Ascii.eqb_sym dquote c).
  destruct (Ascii.eqb c dquote); cbn [orb]; [discriminate|].
  intros H. now rewrite IH.
Qed.


Lemma escapeCsvField_truthy v :
  truthy v = true ->
  escapeCsvField (Some v) = quoted (double_quotes (ToString v)).
Proof.
  intros T. unfold escapeCsvField. cbn [truthy_opt]. rewrite T.
  cbn [negb]. cbv iota.
  destruct (includes dquote (ToString v)) eqn:Q; [reflexivity|].
  rewrite (double_quotes_without_quote _ Q). cbn [orb].
  now destruct (includes comma (ToString v) || includes newline (ToString v)).
Qed.

Lemma escapeCsvField_string s :
  escapeCsvField (Some (JStr s)) = quoted (double_quotes s).
Proof.
  destruct s as [|c s]; [reflexivity|].
  now rewrite escapeCsvField_truthy.
Qed.




(** ** Rating search in a structured blob *)

Lemma map_snd_combine {A B} (a : list A) (b : list B) :
  length a = length b -> map snd (combine a b) = b.
Proof.
  revert b. induction a as [|x a IH]; intros [|y b]; simpl; try discriminate;
    [reflexivity|].
  intros [= H]. now rewrite IH.
Qed.

Lemma values_array items : values (JArr items) = items.
Proof.
  unfold values, entries. apply map_snd_combine.
  now rewrite length_map, length_seq.
Qed.

(** [findRatingInObject], one level unfolded. *)
Lemma findRatingInObject_unfold obj cands depth :
  findRatingInObject obj cands depth =
  if negb (is_object obj) || (3 <? depth)%nat then Returned zero
  else
    own <- rating_field obj cands ;;
    match own with
    | Some num => Returned num
    | None =>
        children_scan (fun val => findRatingInObject val cands (S depth))
                      (values obj)
    end.
Proof.
  destruct obj as [| b | n | s | items | props]; try reflexivity;
    try (unfold is_object; cbn [typeof_object]; rewrite andb_false_r;
         reflexivity).
  - rewrite values_array. cbn [findRatingInObject is_object truthy typeof_object
                               andb negb orb].
    destruct (3 <? depth)%nat; [reflexivity|].
    destruct (rating_field (JArr items) cands) as [[num|]|]; try reflexivity.
    cbn [bind].
    induction items as [|val items IH]; [reflexivity|].
    cbn [children_scan]. rewrite <- IH. reflexivity.
  - cbn [findRatingInObject is_object truthy typeof_object andb negb orb].
    destruct (3 <? depth)%nat; [reflexivity|].
    destruct (rating_field (JObj props) cands) as [[num|]|]; try reflexivity.
    cbn [bind]. unfold values, entries.
    induction props as [|[k val] props IH]; [reflexivity|].
    cbn [children_scan map snd]. rewrite <- IH. reflexivity.
Qed.

Lemma gt0_not_NaN n : gt0 n = true -> isNaN n = false.
Proof. now destruct n. Qed.

(** What the first loop comes to at one candidate name. *)
Lemma rating_field_cons obj key cands :
  rating_field obj (key :: cands) =
  match get obj key with
  | None | Some JNull => rating_field obj cands
  | Some val =>
      if ToPrimitive_throws val then Thrown
      else if gt0 (ToNumber val) then Returned (Some (ToNumber val))
           else rating_field obj cands
  end.
Proof.
  cbn [rating_field]. destruct (get obj key) as [val|]; [|reflexivity].
  unfold Number_of.
  destruct val; try reflexivity;
    (destruct (ToPrimitive_throws _); [reflexivity|]; cbn [bind];
     destruct (gt0 (ToNumber _)) eqn:G;
     [rewrite (gt0_not_NaN _ G) | rewrite andb_false_r]; reflexivity).
Qed.

Lemma rating_field_some obj cands num :
  rating_field obj cands = Returned (Some num) ->
  gt0 num = true /\ rating_field_in cands obj.
Proof.
  induction cands as [|key cands IH]; [discriminate|].
  rewrite rating_field_cons.
  assert (Hrest : rating_field obj cands = Returned (Some num) ->
                  gt0 num = true /\ rating_field_in (key :: cands) obj).
  { intros H. destruct (IH H) as [G (k & v & Hin & R)].
    split; [exact G|]. exists k, v. split; [now right | exact R]. }
  destruct (get obj key) as [val|] eqn:G; [|exact Hrest].
  assert (Hval : val <> JNull ->
                 (if ToPrimitive_throws val then Thrown
                  else if gt0 (ToNumber val)
                       then Returned (Some (ToNumber val))
                       else rating_field obj cands) = Returned (Some num) ->
                 gt0 num = true /\ rating_field_in (key :: cands) obj).
  { intros Hn. destruct (ToPrimitive_throws val); [discriminate|].
    destruct (gt0 (ToNumber val)) eqn:P; [|exact Hrest].
    intros [= <-]. split; [exact P|]. exists key, val.
    split; [now left|]. auto. }
  destruct val; try (apply Hval; discriminate). exact Hrest.
Qed.

Lemma rating_field_none obj cands :
  rating_field obj cands = Returned None -> ~ rating_field_in cands obj.
Proof.
  induction cands as [|key cands IH].
  - intros _ (k & v & [] & _).
  - rewrite rating_field_cons.
    intros H (k & v & [<- | Hin] & G & Hn & P).
    + rewrite G in H. destruct (ToPrimitive_throws v).
      * destruct v; discriminate.
      * rewrite P in H. destruct v; discriminate.
    + apply IH; [|exists k, v; auto].
      destruct (get obj key) as [val|]; [|exact H].
      destruct val; try exact H;
        (destruct (ToPrimitive_throws _); [discriminate|];
         destruct (gt0 (ToNumber _)); [discriminate | exact H]).
Qed.

Lemma rating_field_thrown obj cands :
  rating_field obj cands = Thrown -> throwing_field_in cands obj.
Proof.
  induction cands as [|key cands IH]; [discriminate|].
  rewrite rating_field_cons.
  assert (Hrest : rating_field obj cands = Thrown ->
                  throwing_field_in (key :: cands) obj).
  { intros H. destruct (IH H) as (k & v & Hin & R).
    exists k, v. split; [now right | exact R]. }
  destruct (get obj key) as [val|] eqn:G; [|exact Hrest].
  assert (Hval : (if ToPrimitive_throws val then Thrown
                  else if gt0 (ToNumber val)
                       then Returned (Some (ToNumber val))
                       else rating_field obj cands) = Thrown ->
                 throwing_field_in (key :: cands) obj).
  { destruct (ToPrimitive_throws val) eqn:T.
    - intros _. exists key, val. split; [now left|]. auto.
    - destruct (gt0 (ToNumber val)); [discriminate | exact Hrest]. }
  destruct val; exact Hval.
Qed.

Lemma children_scan_zero_or_positive f vals r :
  children_scan f vals = Returned r -> r = zero \/ gt0 r = true.
Proof.
  induction vals as [|val vals IH]; cbn [children_scan].
  - intros [= <-]. now left.
  - destruct (plain_object val); [|exact IH].
    destruct (f val) as [x|]; [|discriminate]. cbn [bind].
    destruct (gt0 x) eqn:G; [|exact IH].
    intros [= <-]. now right.
Qed.

Lemma children_scan_positive f vals r :
  children_scan f vals = Returned r -> gt0 r = true ->
  exists val, In val vals /\ plain_object val = true /\ f val = Returned r.
Proof.
  induction vals as [|val vals IH]; cbn [children_scan].
  - intros [= <-]. discriminate.
  - assert (Hrest : children_scan f vals = Returned r -> gt0 r = true ->
                    exists v, In v (val :: vals) /\ plain_object v = true
                              /\ f v = Returned r).
    { intros H G. destruct (IH H G) as (v & Hin & R). exists v.
      split; [now right | exact R]. }
    destruct (plain_object val) eqn:P; [|exact Hrest].
    destruct (f val) as [x|] eqn:F; [|discriminate]. cbn [bind].
    destruct (gt0 x) eqn:G; [|exact Hrest].
    intros [= <-] _. exists val. split; [now left|]. auto.
Qed.

Lemma children_scan_finds f vals r val :
  children_scan f vals = Returned r ->
  In val vals -> plain_object val = true ->
  (forall x, f val = Returned x -> gt0 x = true) ->
  gt0 r = true.
Proof.
  induction vals as [|v vals IH]; cbn [children_scan]; [intros _ []|].
  intros H Hin P Hpos.
  destruct (plain_object v) eqn:Pv.
  - destruct (f v) as [x|] eqn:F; [|discriminate]. cbn [bind] in H.
    destruct (gt0 x) eqn:G; [now injection H as <-|].
    destruct Hin as [<- | Hin]; [|now apply IH].
    rewrite (Hpos x F) in G. discriminate.
  - destruct Hin as [<- | Hin]; [congruence | now apply IH].
Qed.

Lemma children_scan_thrown f vals :
  children_scan f vals = Thrown ->
  exists val, In val vals /\ plain_object val = true /\ f val = Thrown.
Proof.
  induction vals as [|val vals IH]; cbn [children_scan]; [discriminate|].
  assert (Hrest : children_scan f vals = Thrown ->
                  exists v, In v (val :: vals) /\ plain_object v = true
                            /\ f v = Thrown).
  { intros H. destruct (IH H) as (v & Hin & R). exists v.
    split; [now right | exact R]. }
  destruct (plain_object val) eqn:P; [|exact Hrest].
  destruct (f val) as [x|] eqn:F.
  - cbn [bind]. destruct (gt0 x); [discriminate | exact Hrest].
  - intros _. exists val. split; [now left|]. auto.
Qed.

Lemma has_rating_is_object cands d obj :
  has_rating_at cands d obj -> is_object obj = true.
Proof.
  destruct d; simpl.
  - intros (k & v & _ & G & _). destruct obj; try discriminate; reflexivity.
  - intros (v & Hin & _). destruct obj; try destruct Hin; reflexivity.
Qed.

(** With [budget] levels left before the depth bound: when the search
    returns, its result is positive exactly when a rating field lies fewer
    than [budget] levels down, and is 0 otherwise; when it throws, a field
    that cannot be converted lies fewer than [budget] levels down. *)
Lemma findRatingInObject_depth cands budget :
  forall depth obj,
    (depth + budget = 4)%nat ->
    (forall r,
        findRatingInObject obj cands depth = Returned r ->
        (gt0 r = true <-> exists d, (d < budget)%nat /\ has_rating_at cands d obj)
        /\ (r = zero \/ gt0 r = true))
    /\ (findRatingInObject obj cands depth = Thrown ->
        exists d, (d < budget)%nat /\ throwing_field_at cands d obj).
Proof.
  induction budget as [|budget IH]; intros depth obj Hd;
    rewrite findRatingInObject_unfold.
  - assert (depth = 4%nat) as -> by lia. rewrite orb_true_r.
    split; [|discriminate]. intros r [= <-]. split; [|now left].
    split; [discriminate | intros (d & Hlt & _); lia].
  - assert (Hle : (3 <? depth)%nat = false) by (apply Nat.ltb_ge; lia).
    rewrite Hle, orb_false_r.
    destruct (is_object obj) eqn:O; cbn [negb]; cbv iota.
    2:{ split; [|discriminate]. intros r [= <-]. split; [|now left].
        split; [discriminate|].
        intros (d & _ & H). apply has_rating_is_object in H. congruence. }
    destruct (rating_field obj cands) as [[num|]|] eqn:R; cbn [bind].
    + destruct (rating_field_some _ _ _ R) as [G F].
      split; [|discriminate]. intros r [= <-]. split; [|now right].
      split; [|intros _; exact G].
      intros _. exists 0%nat. split; [lia | exact F].
    + split.
      * intros r Hr. split; [|exact (children_scan_zero_or_positive _ _ _ Hr)].
        split.
        -- intros G.
           destruct (children_scan_positive _ _ _ Hr G) as (val & Hin & P & F).
           destruct (IH (S depth) val ltac:(lia)) as [Hret _].
           destruct (proj1 (proj1 (Hret r F)) G) as (d & Hlt & H).
           exists (S d). split; [lia|]. exists val. auto.
        -- intros ([|d] & Hlt & H).
           ++ now apply rating_field_none in R.
           ++ destruct H as (val & Hin & P & H).
              apply (children_scan_finds _ _ _ val Hr Hin P).
              intros x F.
              destruct (IH (S depth) val ltac:(lia)) as [Hret _].
              apply (proj1 (Hret x F)). exists d. split; [lia | exact H].
      * intros Ht.
        destruct (children_scan_thrown _ _ Ht) as (val & Hin & P & F).
        destruct (IH (S depth) val ltac:(lia)) as [_ Hthrow].
        destruct (Hthrow F) as (d & Hlt & H).
        exists (S d). split; [lia|]. exists val. auto.
    + split; [discriminate|]. intros _.
      exists 0%nat. split; [lia|]. exact (rating_field_thrown _ _ R).
Qed.

Lemma plain_object_inv v :
  plain_object v = true -> exists props, v = JObj props.
Proof.
  destruct v; unfold plain_object, is_object; cbn [typeof_object isArray];
    rewrite ?andb_false_r; try discriminate.
  intros _. eexists. reflexivity.
Qed.




(** A value whose conversion throws holds a property named [toString]. *)
Lemma ToPrimitive_throws_mentions v :
  ToPrimitive_throws v = true -> mentions ["toString"] v = true.
Proof.
  revert v.
  fix IH 1. intros [| b | n | s | items | props]; try discriminate.
  - cbn [ToPrimitive_throws mentions].
    induction items as [|x items IHl]; [discriminate|].
    intros H. apply orb_true_iff in H. destruct H as [H | H].
    + now rewrite (IH x H).
    + rewrite (IHl H). apply orb_true_r.
  - cbn [ToPrimitive_throws mentions]. clear IH.
    induction props as [|[k x] props IHl]; [discriminate|].
    cbn [lookup]. rewrite (String.eqb_sym "toString" k).
    destruct (String.eqb k "toString") eqn:E.
    + intros _. cbn [existsb]. rewrite E. reflexivity.
    + intros H. rewrite (IHl H). now rewrite !orb_true_r.
Qed.

Lemma mentions_object cands props :
  mentions cands (JObj props) = false ->
  forall k v, In (k, v) props ->
              existsb (String.eqb k) cands = false /\ mentions cands v = false.
Proof.
  induction props as [|[k' v'] props IH]; [intros _ k v []|].
  cbn [mentions]. intros H k v Hin.
  apply orb_false_iff in H. destruct H as [H Hrest].
  apply orb_false_iff in H. destruct H as [Hk Hv].
  destruct Hin as [[= <- <-] | Hin]; [auto|].
  now apply IH.
Qed.

Lemma mentions_array cands items :
  mentions cands (JArr items) = false ->
  forall v, In v items -> mentions cands v = false.
Proof.
  induction items as [|v' items IH]; [intros _ v []|].
  cbn [mentions]. intros H v Hin.
  apply orb_false_iff in H. destruct H as [Hv Hrest].
  destruct Hin as [<- | Hin]; [exact Hv | now apply IH].
Qed.

Lemma lookup_In k props v : lookup k props = Some v -> In (k, v) props.
Proof.
  induction props as [|[k' v'] props IH]; simpl; [discriminate|].
  destruct (String.eqb k k') eqn:E.
  - apply String.eqb_eq in E. subst k'. intros [= <-]. now left.
  - intros H. right. now apply IH.
Qed.

Lemma mentions_get cands obj k v :
  mentions cands obj = false -> get obj k = Some v -> mentions cands v = false.
Proof.
  intros M G. destruct obj as [| | | | items | props]; try discriminate.
  - cbn [get] in G. destruct (String.eqb k "length"); [now injection G as <-|].
    destruct (array_index k) as [i|]; [|discriminate].
    apply nth_error_In in G. exact (mentions_array _ _ M _ G).
  - apply lookup_In in G. exact (proj2 (mentions_object _ _ M _ _ G)).
Qed.

Lemma mentions_values cands obj v :
  mentions cands obj = false -> In v (values obj) -> mentions cands v = false.
Proof.
  intros M Hin. destruct obj; try destruct Hin.
  - rewrite values_array in Hin. now apply (mentions_array _ _ M).
  - unfold values, entries in Hin. apply in_map_iff in Hin.
    destruct Hin as ([k v'] & <- & Hin). exact (proj2 (mentions_object _ _ M _ _ Hin)).
Qed.





(** ** Session state machine *)

(** C7.  A start request received while the status is [scraping] is answered
    [already_running] and leaves every field of the session state as it was
    (and launches nothing); received in any other status it moves the status
    to [scraping], with the progress counter at 0, the target taken from the
    request, the prior articles cleared and the message emptied. *)
Theorem startScraping_transition (count : Z) (st : ScrapingState) :
  (status st = Scraping ->
   onMessage (startScraping count) st
   = {| state_after := st; reply := Some already_running;
        returned := true; launched := None |})
  /\ (status st <> Scraping ->
      onMessage (startScraping count) st
      = {| state_after := {| status := Scraping; current := 0;
                             targetCount := count; articles := [];
                             message := EmptyString |};
           reply := Some started; returned := true;
           launched := Some count |}).
Proof.
  unfold onMessage. split; intros H.
  - now rewrite H.
  - destruct (status st); try reflexivity. now elim H.
Qed.

Lemma startScraping_transition_witness :
  (status running_state = Scraping
   /\ state_after (onMessage (startScraping 5) running_state) = running_state)
  /\ (status finished_state <> Scraping
      /\ state_after (onMessage (startScraping 5) finished_state)
         = {| status := Scraping; current := 0; targetCount := 5;
              articles := []; message := EmptyString |}).
Proof.
  split; (split; [try reflexivity; discriminate|]).
  - now rewrite (proj1 (startScraping_transition 5 running_state) eq_refl).
  - rewrite (proj2 (startScraping_transition 5 finished_state));
      [reflexivity | discriminate].
Defined.

(** ** Rating enricher *)

Lemma array_has_no_rating_field items key :
  In key ratingFieldCandidates -> get (JArr items) key = None.
Proof.
  intros Hin. cbn [ratingFieldCandidates In] in Hin.
  repeat (destruct Hin as [<- | Hin]; [reflexivity|]). destruct Hin.
Qed.

Lemma mentions_no_field obj key :
  mentions ratingFieldCandidates obj = false ->
  In key ratingFieldCandidates -> get obj key = None.
Proof.
  intros M Hin. destruct obj as [| | | | items | props]; try reflexivity.
  - now apply array_has_no_rating_field.
  - cbn [get]. destruct (lookup key props) as [v|] eqn:G; [|reflexivity].
    apply lookup_In in G. destruct (mentions_object _ _ M _ _ G) as [E _].
    assert (existsb (String.eqb key) ratingFieldCandidates = true);
      [|congruence].
    apply existsb_exists. exists key. split; [exact Hin | apply String.eqb_refl].
Qed.

Lemma safeNum_keys_absent obj keys :
  (forall key, In key keys -> get obj key = None) ->
  safeNum_keys obj keys = Returned zero.
Proof.
  induction keys as [|key keys IH]; intros H; cbn [safeNum_keys];
    [reflexivity|].
  rewrite (H key) by now left. apply IH. intros k Hk. apply H. now right.
Qed.

Lemma safeNum_unmentioned obj :
  mentions ratingFieldCandidates obj = false ->
  safeNum obj ratingFieldCandidates = Returned zero.
Proof.
  intros M. unfold safeNum. destruct (negb (is_object obj)); [reflexivity|].
  apply safeNum_keys_absent. intros key Hin. now apply mentions_no_field.
Qed.

Lemma has_rating_mentioned d :
  forall obj, has_rating_at ratingFieldCandidates d obj ->
              mentions ratingFieldCandidates obj = true.
Proof.
  induction d as [|d IH]; intros obj; simpl.
  - intros (key & val & Hin & G & _).
    destruct (mentions ratingFieldCandidates obj) eqn:M; [reflexivity|].
    rewrite (mentions_no_field _ _ M Hin) in G. discriminate.
  - intros (val & Hin & _ & H).
    destruct (mentions ratingFieldCandidates obj) eqn:M; [reflexivity|].
    rewrite <- (IH val H). symmetry. now apply mentions_values with obj.
Qed.

Lemma throwing_field_mentioned d :
  forall obj, throwing_field_at ratingFieldCandidates d obj ->
              mentions ratingFieldCandidates obj = true.
Proof.
  induction d as [|d IH]; intros obj; cbn [throwing_field_at].
  - intros (key & val & Hin & G & _).
    destruct (mentions ratingFieldCandidates obj) eqn:M; [reflexivity|].
    rewrite (mentions_no_field _ _ M Hin) in G. discriminate.
  - intros (val & Hin & _ & H).
    destruct (mentions ratingFieldCandidates obj) eqn:M; [reflexivity|].
    rewrite <- (IH val H). symmetry. now apply mentions_values with obj.
Qed.

Lemma findRatingInObject_unmentioned obj :
  mentions ratingFieldCandidates obj = false ->
  findRatingInObject obj ratingFieldCandidates 0 = Returned zero.
Proof.
  intros M.
  destruct (findRatingInObject_depth ratingFieldCandidates 4 0 obj eq_refl)
    as [Hret Hthrow].
  destruct (findRatingInObject obj ratingFieldCandidates 0) as [r|].
  - destruct (Hret r eq_refl) as [Hiff [-> | G]]; [reflexivity|].
    apply Hiff in G. destruct G as (d & _ & H).
    apply has_rating_mentioned in H. congruence.
  - destruct (Hthrow eq_refl) as (d & _ & H).
    apply throwing_field_mentioned in H. congruence.
Qed.

Lemma first_rating_positive objs r :
  first_rating objs = Returned (Some r) -> gt0 r = true.
Proof.
  induction objs as [|obj objs IH]; cbn [first_rating]; [discriminate|].
  destruct (safeNum obj ratingFieldCandidates) as [x|]; [|discriminate].
  cbn [bind]. destruct (gt0 x) eqn:G; [|exact IH].
  now intros [= <-].
Qed.

Lemma api_stage_positive apiRes r :
  api_stage apiRes = RatingFound r -> gt0 r = true.
Proof.
  unfold api_stage. destruct apiRes as [res|]; [|discriminate].
  destruct (ok res); [|discriminate].
  destruct (json res) as [apiData|]; [|discriminate].
  destruct (first_rating _) as [[r'|]|] eqn:F; try discriminate.
  intros [= <-]. exact (first_rating_positive _ _ F).
Qed.

Lemma of_N_nonneg_integer n : nonneg_integer (of_Z (Z.of_N n)) = true.
Proof. now destruct n. Qed.

(** The Number value of an integer that is not negative is such an integer,
    or the positive infinity. *)
Lemma double_of_N_cases n :
  nonneg_integer (double_of_N n) = true \/ double_of_N n = Infinity false.
Proof.
  unfold double_of_N. destruct (n <? 2 ^ 53)%N.
  - left. apply of_N_nonneg_integer.
  - destruct (round_N n); [left; apply of_N_nonneg_integer | now right].
Qed.

(** The page stage yields a non-negative integer or the positive infinity,
    unless it yields the positive value the blob search found. *)
Lemma html_stage_cases pageRes :
  nonneg_integer (html_stage pageRes) = true
  \/ html_stage pageRes = Infinity false
  \/ (gt0 (html_stage pageRes) = true
      /\ exists res d, pageRes = Some res
                       /\ nextData (html res) = Some (Some d)
                       /\ findRatingInObject d ratingFieldCandidates 0
                          = Returned (html_stage pageRes)).
Proof.
  assert (Hcap : forall c,
             nonneg_integer (parseInt_capture c) = true
             \/ parseInt_capture c = Infinity false
             \/ (gt0 (parseInt_capture c) = true
                 /\ exists res d, pageRes = Some res
                       /\ nextData (html res) = Some (Some d)
                       /\ findRatingInObject d ratingFieldCandidates 0
                          = Returned (parseInt_capture c))).
  { intros c. destruct (double_of_N_cases c) as [H | H]; auto. }
  unfold html_stage. destruct pageRes as [res|]; [|now left].
  destruct (ok res); [|now left].
  destruct (ratingText (html res)) as [c|]; [apply Hcap|].
  unfold next_data_rating.
  assert (Hrest : nonneg_integer
                    match nuxtRating (html res) with
                    | Some count => parseInt_capture count
                    | None =>
                        match htmlRating (html res) with
                        | Some count => parseInt_capture count
                        | None => zero
                        end
                    end = true
                  \/ match nuxtRating (html res) with
                     | Some count => parseInt_capture count
                     | None =>
                         match htmlRating (html res) with
                         | Some count => parseInt_capture count
                         | None => zero
                         end
                     end = Infinity false).
  { destruct (nuxtRating (html res)) as [c|];
      [destruct (double_of_N_cases c); auto|].
    destruct (htmlRating (html res)) as [c|];
      [destruct (double_of_N_cases c); auto | now left]. }
  destruct (nextData (html res)) as [[d|]|] eqn:Nx;
    [| destruct Hrest; auto | destruct Hrest; auto].
  destruct (findRatingInObject d ratingFieldCandidates 0) as [r|] eqn:F;
    [|destruct Hrest; auto].
  destruct (gt0 r) eqn:G; [|destruct Hrest; auto].
  right. right. split; [exact G|]. exists res, d. auto.
Qed.

Lemma nonneg_integer_sound n :
  nonneg_integer n = true -> isNaN n = false /\ lt0 n = false.
Proof.
  unfold nonneg_integer. intros H. apply andb_true_iff in H.
  destruct H as [I L]. apply negb_true_iff in L.
  split; [now destruct n | exact L].
Qed.

Lemma gt0_sound n : gt0 n = true -> isNaN n = false /\ lt0 n = false.
Proof. destruct n as [| [] | [] e]; try discriminate; auto. Qed.

Lemma api_stage_no_rating res :
  no_rating res -> api_stage (Some res) <> ApiNetworkError ->
  api_stage (Some res) = NoRating.
Proof.
  intros (Hj & _) Hn. unfold api_stage in *.
  destruct (ok res); [|reflexivity].
  destruct (json res) as [apiData|]; [|now elim Hn].
  specialize (Hj apiData eq_refl).
  set (noteData := match get apiData "data" with
                   | Some d => if truthy d then d else apiData
                   | None => apiData
                   end).
  assert (Mn : mentions ratingFieldCandidates noteData = false).
  { subst noteData. destruct (get apiData "data") as [d|] eqn:G; [|exact Hj].
    destruct (truthy d); [|exact Hj].
    exact (mentions_get _ _ _ _ Hj G). }
  set (inner := match get noteData "note" with
                | Some n => if truthy n then n else noteData
                | None => noteData
                end).
  assert (Mi : mentions ratingFieldCandidates inner = false).
  { subst inner. destruct (get noteData "note") as [n|] eqn:G; [|exact Mn].
    destruct (truthy n); [|exact Mn].
    exact (mentions_get _ _ _ _ Mn G). }
  cbn [first_rating].
  now rewrite (safeNum_unmentioned _ Mi), (safeNum_unmentioned _ Mn).
Qed.

Lemma html_stage_no_rating pageRes :
  (forall res, pageRes = Some res -> no_rating res) ->
  html_stage pageRes = zero.
Proof.
  intros H. unfold html_stage, next_data_rating.
  destruct pageRes as [res|]; [|reflexivity].
  destruct (H res eq_refl) as (_ & -> & Hn & -> & ->).
  destruct (ok res); [|reflexivity].
  destruct (nextData (html res)) as [[d|]|]; try reflexivity.
  now rewrite (findRatingInObject_unmentioned _ (Hn d eq_refl)).
Qed.

Lemma fetchLikeRating_cases net articleUrl mc :
  nonneg_integer (fst (fetchLikeRating net articleUrl mc)) = true
  \/ fst (fetchLikeRating net articleUrl mc) = Infinity false
  \/ rating_from_json net (fst (fetchLikeRating net articleUrl mc)).
Proof.
  unfold fetchLikeRating.
  destruct (String.eqb articleUrl EmptyString); [now left|].
  destruct (match_note_key _) as [noteKey|]; [|now left].
  unfold fetch. cbn [requests].
  set (apiUrl := ("https://note.com/api/v3/notes/"
                    ++ string_of_list_ascii noteKey)%string).
  destruct (api_stage (net (length (requests mc)) apiUrl)) as [r| |] eqn:A;
    cbn [fst]; [| |now left].
  - right. right. split; [exact (api_stage_positive _ _ A)|].
    destruct (net (length (requests mc)) apiUrl) as [res|] eqn:N;
      [|discriminate].
    exists (length (requests mc)), apiUrl, res. auto.
  - set (pageRes := net (length (requests mc ++ [apiUrl])) articleUrl).
    destruct (html_stage_cases pageRes)
      as [I | [I | (G & res & d & E & Nx & F)]]; [now left | now right; left|].
    right. right. split; [exact G|].
    exists (length (requests mc ++ [apiUrl])), articleUrl, res.
    split; [exact E|]. right. exists d. auto.
Qed.

(** C4 (as amended).  [fetchLikeRating] never throws and returns a number
    that is neither NaN nor negative.  It is an integer unless it is the
    positive infinity, which [parseInt] gives for a run of digits beyond the
    range of binary64, or the value of a rating field read from a JSON body
    (the detail API or the embedded data of the page), which is returned as
    it is.  When the URL is empty or holds no item identifier it returns 0
    at once, with no request made.  And when no response exposes a rating
    field or matches a markup pattern, engagement counts notwithstanding,
    the result is 0. *)
Theorem fetchLikeRating_contract
        (net : nat -> string -> option Response) (articleUrl : string)
        (mc : Machine) :
  isNaN (fst (fetchLikeRating net articleUrl mc)) = false
  /\ lt0 (fst (fetchLikeRating net articleUrl mc)) = false
  /\ (nonneg_integer (fst (fetchLikeRating net articleUrl mc)) = true
      \/ fst (fetchLikeRating net articleUrl mc) = Infinity false
      \/ rating_from_json net (fst (fetchLikeRating net articleUrl mc)))
  /\ (articleUrl = EmptyString
      \/ match_note_key (list_ascii_of_string articleUrl) = None ->
      fetchLikeRating net articleUrl mc = (zero, mc))
  /\ ((forall i u res, net i u = Some res -> no_rating res) ->
      fst (fetchLikeRating net articleUrl mc) = zero).
Proof.
  pose proof (fetchLikeRating_cases net articleUrl mc) as C.
  assert (S : isNaN (fst (fetchLikeRating net articleUrl mc)) = false
              /\ lt0 (fst (fetchLikeRating net articleUrl mc)) = false).
  { destruct C as [I | [I | [G _]]];
      [exact (nonneg_integer_sound _ I) | now rewrite I
       | exact (gt0_sound _ G)]. }
  destruct S as [S1 S2]. repeat split; auto.
  - unfold fetchLikeRating. intros [-> | H]; [reflexivity|].
    rewrite H. now destruct (String.eqb articleUrl EmptyString).
  - intros Hno. unfold fetchLikeRating.
    destruct (String.eqb articleUrl EmptyString); [reflexivity|].
    destruct (match_note_key _) as [noteKey|]; [|reflexivity].
    unfold fetch. cbn [requests].
    set (apiUrl := ("https://note.com/api/v3/notes/"
                      ++ string_of_list_ascii noteKey)%string).
    destruct (net (length (requests mc)) apiUrl) as [res|] eqn:N;
      [|reflexivity].
    destruct (api_stage (Some res)) as [r| |] eqn:A; [| |reflexivity].
    + rewrite (api_stage_no_rating res (Hno _ _ _ N)) in A; [discriminate|].
      now rewrite A.
    + cbn [fst]. apply html_stage_no_rating. intros res' E.
      exact (Hno _ _ _ E).
Qed.

Lemma engagement_only_net_no_rating i u res :
  engagement_only_net i u = Some res -> no_rating res.
Proof.
  intros [= <-]. repeat split; try reflexivity.
  - intros d [= <-]. reflexivity.
  - intros d [=].
Qed.

Lemma fetchLikeRating_contract_witness :
  fetchLikeRating engagement_only_net EmptyString fresh_machine
  = (zero, fresh_machine)
  /\ fst (fetchLikeRating engagement_only_net article_url fresh_machine) = zero.
Proof.
  split.
  - apply (fetchLikeRating_contract engagement_only_net EmptyString
                                    fresh_machine).
    now left.
  - apply (fetchLikeRating_contract engagement_only_net article_url
                                    fresh_machine).
    exact engagement_only_net_no_rating.
Defined.

(** C4 (as stated) fails: a fractional rating field of the detail API is
    returned as it is, and is not an integer. *)
Lemma fetchLikeRating_returns_fraction :
  fst (fetchLikeRating fractional_net article_url fresh_machine)
  = Finite 45 (-1)
  /\ is_integer (Finite 45 (-1)) = false
  /\ NumberToString (Finite 45 (-1)) = "4.5".
Proof. repeat split; reflexivity. Qed.

(** Nor is the result an integer when the digits matched in the markup go
    beyond the range of binary64: [parseInt] gives the positive infinity. *)
Example fetchLikeRating_infinite_capture :
  fst (fetchLikeRating
         (fun i _ =>
            match i with
            | O => Some {| ok := false; json := None; html := no_html |}
            | _ => Some {| ok := true; json := None;
                           html := {| ratingText := Some (10 ^ 309)%N;
                                      nextData := None; nuxtRating := None;
                                      htmlRating := None |} |}
            end)
         article_url fresh_machine)
  = Infinity false.
Proof. vm_compute. reflexivity. Qed.

(** ** API harvester *)

Lemma push_upto_firstn target parsed :
  forall acc,
    (length acc <= Z.to_nat target)%nat ->
    push_upto target acc parsed = firstn (Z.to_nat target) (acc ++ parsed).
Proof.
  induction parsed as [|a rest IH]; intros acc Hle; cbn [push_upto].
  - rewrite app_nil_r. symmetry. now apply firstn_all2.
  - destruct (Z.of_nat (length acc) >=? target) eqn:C.
    + assert (length acc = Z.to_nat target) as <- by lia.
      rewrite firstn_app, Nat.sub_diag, firstn_all. cbn [firstn].
      now rewrite app_nil_r.
    + rewrite IH; [now rewrite <- app_assoc|].
      rewrite length_app. cbn [length]. lia.
Qed.

Lemma firstn_firstn_app {A} (t : nat) (X Y : list A) :
  firstn t (firstn t X ++ Y) = firstn t (X ++ Y).
Proof.
  rewrite !firstn_app, firstn_firstn, Nat.min_id, length_firstn.
  f_equal. f_equal. lia.
Qed.

Lemma page_at_shift net params base start i :
  page_at net params base start (S i)
  = page_at net params (S base) (start + PAGE_SIZE) i.
Proof.
  unfold page_at. f_equal. f_equal; [lia|]. f_equal. lia.
Qed.

Lemma collected_S net params base start n :
  collected net params base start (S n)
  = match page_at net params base start 0 with Some l => l | None => [] end
    ++ collected net params (S base) (start + PAGE_SIZE) n.
Proof.
  unfold collected. cbn [seq map concat]. f_equal.
  rewrite <- seq_shift, map_map. f_equal. apply map_ext.
  intros i. now rewrite page_at_shift.
Qed.

Lemma page_at_0 net params base start :
  page_at net params base start 0
  = page_result (net base (apiUrl params start)).
Proof.
  unfold page_at. f_equal. f_equal; [lia|]. f_equal. lia.
Qed.

Lemma apiUrl_shift params start n :
  apiUrl params start
  :: map (fun i => apiUrl params (start + PAGE_SIZE + PAGE_SIZE * Z.of_nat i))
         (seq 0 n)
  = map (fun i => apiUrl params (start + PAGE_SIZE * Z.of_nat i)) (seq 0 (S n)).
Proof.
  cbn [seq map]. f_equal; [f_equal; lia|].
  rewrite <- seq_shift, map_map. apply map_ext. intros i. f_equal. lia.
Qed.

Lemma fetchFromAPI_loop_outcome net params target :
  forall fuel acc start mc,
    (length acc <= Z.to_nat target)%nat ->
    (Z.to_nat target - length acc < fuel)%nat ->
    exists res mc' n,
      fetchFromAPI_loop net fuel params target acc start mc = Some (res, mc')
      /\ loop_outcome net params target acc start mc res mc' n.
Proof.
  induction fuel as [|fuel IH]; intros acc start mc Hacc Hfuel; [lia|].
  cbn [fetchFromAPI_loop].
  destruct (Z.of_nat (length acc) <? target) eqn:C.
  2:{ exists (nonempty_or_null acc), mc, 0%nat. split; [reflexivity|].
      unfold loop_outcome, collected. cbn [seq map concat].
      rewrite !app_nil_r. split; [reflexivity|].
      split; [intros (i & Hi & _); lia|]. split; [|intros i Hi; lia].
      intros _. rewrite firstn_all2 by lia. split; [reflexivity|]. left. lia. }
  unfold fetch. cbn [requests].
  set (base := length (requests mc)).
  pose proof (page_at_0 net params base start) as P0.
  unfold page_result in P0.
  destruct (net base (apiUrl params start)) as [r|] eqn:N.
  2:{ exists None, {| scrapingState := scrapingState mc;
                      requests := requests mc ++ [apiUrl params start];
                      scans := scans mc |}, 1%nat.
      split; [reflexivity|]. unfold loop_outcome. fold base. cbn [requests].
      split; [now rewrite <- apiUrl_shift|]. split; [reflexivity|].
      split; [|intros i Hi; lia].
      intros H. exfalso. apply (H 0%nat); [lia | exact P0]. }
  destruct (ok r); cbn [negb]; cbv iota.
  2:{ eexists None, _, 1%nat.
      split; [reflexivity|]. unfold loop_outcome. fold base. cbn [requests].
      split; [now rewrite <- apiUrl_shift|]. split; [reflexivity|].
      split; [|intros i Hi; lia].
      intros H. exfalso. apply (H 0%nat); [lia | exact P0]. }
  destruct (json r) as [data|].
  2:{ eexists None, _, 1%nat.
      split; [reflexivity|]. unfold loop_outcome. fold base. cbn [requests].
      split; [now rewrite <- apiUrl_shift|]. split; [reflexivity|].
      split; [|intros i Hi; lia].
      intros H. exfalso. apply (H 0%nat); [lia | exact P0]. }
  destruct (extractNotesFromApiResponse data) as [|a parsed] eqn:E.
  { eexists (nonempty_or_null acc), _, 1%nat.
    split; [reflexivity|]. unfold loop_outcome. fold base. cbn [requests].
    split; [now rewrite <- apiUrl_shift|].
    split; [intros (i & Hi & Hp); assert (i = 0%nat) as -> by lia; congruence|].
    split; [|intros i Hi; lia].
    intros _. rewrite collected_S, P0. unfold collected. cbn [seq map concat].
    rewrite !app_nil_r, firstn_all2 by lia.
    split; [reflexivity|]. right. split; [lia | exact P0]. }
  set (acc' := push_upto target acc (a :: parsed)).
  assert (Hacc' : acc' = firstn (Z.to_nat target) (acc ++ a :: parsed))
    by (apply push_upto_firstn; exact Hacc).
  assert (Hlen : (length acc < length acc' <= Z.to_nat target)%nat).
  { rewrite Hacc', length_firstn, length_app. cbn [length]. lia. }
  set (mc2 := set_state _ _).
  destruct (IH acc' (start + PAGE_SIZE) mc2) as (res & mc' & n & Hrun & Hout);
    [lia | lia |].
  exists res, mc', (S n). split; [exact Hrun|].
  destruct Hout as (Hreq & Hfail & Hok & Hmid).
  assert (Hbase : length (requests mc2) = S base)
    by (subst mc2; cbn [set_state requests]; rewrite length_app; cbn; lia).
  rewrite Hbase in Hfail, Hok, Hmid.
  unfold loop_outcome. fold base.
  split; [|split; [|split]].
  - rewrite Hreq. subst mc2. cbn [set_state requests].
    now rewrite <- app_assoc, <- apiUrl_shift.
  - intros (i & Hi & Hp). apply Hfail.
    destruct i as [|i]; [congruence|].
    exists i. split; [lia|]. now rewrite <- page_at_shift.
  - intros Hall.
    destruct Hok as [Hres Hstop].
    { intros i Hi. rewrite <- page_at_shift. apply Hall. lia. }
    rewrite collected_S, P0.
    split.
    + rewrite Hres, Hacc', firstn_firstn_app, <- app_assoc. reflexivity.
    + destruct Hstop as [Hfull | [Hn Hlast]].
      * left. rewrite Hacc', length_app, length_firstn in Hfull.
        rewrite !length_app in *. lia.
      * right. split; [lia|].
        replace (S n - 1)%nat with (S (n - 1)) by lia.
        now rewrite page_at_shift.
  - intros [|i] Hi.
    + exists (a :: parsed). split; [exact P0 | discriminate].
    + rewrite page_at_shift. apply Hmid. lia.
Qed.

Lemma pages_fail_or_not (page : nat -> option (list Article)) (n : nat) :
  (exists i, (i < n)%nat /\ page i = None)
  \/ (forall i, (i < n)%nat -> page i <> None).
Proof.
  induction n as [|n [(i & Hi & Hp) | Hall]].
  - right. intros i Hi. lia.
  - left. exists i. split; [lia | exact Hp].
  - destruct (page n) as [l|] eqn:P.
    + right. intros i Hi. destruct (Nat.eq_dec i n) as [-> | Hne];
        [congruence | apply Hall; lia].
    + left. exists n. split; [lia | exact P].
Qed.

Lemma nonempty_or_null_some l arts :
  nonempty_or_null l = Some arts -> arts = l /\ arts <> [].
Proof. destruct l; [discriminate|]. intros [= <-]. split; [reflexivity | discriminate]. Qed.

Lemma collected_last net params base start n :
  collected net params base start (S n)
  = collected net params base start n
    ++ match page_at net params base start n with Some l => l | None => [] end.
Proof.
  unfold collected. rewrite seq_S, map_app, concat_app. cbn [map concat].
  now rewrite app_nil_r.
Qed.

Lemma firstn_short {A} (t : nat) (l : list A) :
  (length (firstn t l) < t)%nat -> firstn t l = l.
Proof.
  intros H. apply firstn_all2. rewrite length_firstn in H. lia.
Qed.

(** The page loop, from any point of its run: where it stops, and why. *)
Lemma fetchFromAPI_loop_stops net params target :
  forall fuel acc start mc,
    (length acc <= Z.to_nat target)%nat ->
    (Z.to_nat target - length acc < fuel)%nat ->
    exists res mc' n,
      fetchFromAPI_loop net fuel params target acc start mc = Some (res, mc')
      /\ requests mc' =
         requests mc
         ++ map (fun i => apiUrl params (start + PAGE_SIZE * Z.of_nat i))
                (seq 0 n)
      /\ (forall i, (S i < n)%nat ->
            exists l,
              page_at net params (length (requests mc)) start i = Some l
              /\ l <> []
              /\ Z.of_nat
                   (length (acc ++ collected net params (length (requests mc))
                                             start (S i))) < target)
      /\ ((n = 0%nat /\ target <= Z.of_nat (length acc)
           /\ res = nonempty_or_null acc)
          \/ (exists i,
                 n = S i /\ Z.of_nat (length acc) < target
                 /\ ((page_at net params (length (requests mc)) start i = None
                      /\ res = None)
                     \/ (page_at net params (length (requests mc)) start i
                         = Some []
                         /\ res = nonempty_or_null
                                    (acc ++ collected net params
                                              (length (requests mc)) start i))
                     \/ (exists l,
                            page_at net params (length (requests mc)) start i
                            = Some l
                            /\ l <> []
                            /\ target
                               <= Z.of_nat
                                    (length
                                       (acc ++ collected net params
                                              (length (requests mc)) start
                                              (S i)))
                            /\ res = Some
                                       (firstn (Z.to_nat target)
                                          (acc ++ collected net params
                                                 (length (requests mc)) start
                                                 (S i))))))).
Proof.
  induction fuel as [|fuel IH]; intros acc start mc Hacc Hfuel; [lia|].
  cbn [fetchFromAPI_loop].
  destruct (Z.of_nat (length acc) <? target) eqn:C.
  2:{ exists (nonempty_or_null acc), mc, 0%nat. split; [reflexivity|].
      cbn [seq map]. rewrite app_nil_r. split; [reflexivity|].
      split; [intros i Hi; lia|]. left.
      apply Z.ltb_ge in C. auto. }
  apply Z.ltb_lt in C.
  unfold fetch. cbn [requests].
  set (base := length (requests mc)).
  pose proof (page_at_0 net params base start) as P0.
  unfold page_result in P0.
  assert (Hfail : forall mc1,
             requests mc1 = requests mc ++ [apiUrl params start] ->
             page_at net params base start 0 = None ->
             exists res mc' n,
               Some (@None (list Article), mc1) = Some (res, mc')
               /\ requests mc' =
                  requests mc
                  ++ map (fun i => apiUrl params
                                     (start + PAGE_SIZE * Z.of_nat i))
                         (seq 0 n)
               /\ (forall i, (S i < n)%nat ->
                     exists l,
                       page_at net params base start i = Some l /\ l <> []
                       /\ Z.of_nat
                            (length (acc ++ collected net params base start
                                                      (S i))) < target)
               /\ ((n = 0%nat /\ target <= Z.of_nat (length acc)
                    /\ res = nonempty_or_null acc)
                   \/ (exists i,
                          n = S i /\ Z.of_nat (length acc) < target
                          /\ ((page_at net params base start i = None
                               /\ res = None)
                              \/ (page_at net params base start i = Some []
                                  /\ res = nonempty_or_null
                                             (acc ++ collected net params base
                                                       start i))
                              \/ (exists l,
                                     page_at net params base start i = Some l
                                     /\ l <> []
                                     /\ target
                                        <= Z.of_nat
                                             (length
                                                (acc ++ collected net params
                                                       base start (S i)))
                                     /\ res = Some
                                                (firstn (Z.to_nat target)
                                                   (acc ++ collected net
                                                      params base start
                                                      (S i)))))))).
  { intros mc1 Hreq Hp. exists None, mc1, 1%nat. split; [reflexivity|].
    split; [rewrite Hreq, <- apiUrl_shift; reflexivity|].
    split; [intros i Hi; lia|]. right. exists 0%nat. auto. }
  destruct (net base (apiUrl params start)) as [r|] eqn:N;
    [|apply Hfail; [reflexivity | exact P0]].
  destruct (ok r); cbn [negb]; cbv iota;
    [|apply Hfail; [reflexivity | exact P0]].
  destruct (json r) as [data|]; [|apply Hfail; [reflexivity | exact P0]].
  clear Hfail.
  destruct (extractNotesFromApiResponse data) as [|a parsed] eqn:E.
  { eexists (nonempty_or_null acc), _, 1%nat.
    split; [reflexivity|]. cbn [requests].
    split; [now rewrite <- apiUrl_shift|].
    split; [intros i Hi; lia|]. right. exists 0%nat.
    split; [reflexivity|]. split; [exact C|]. right. left.
    split; [exact P0|]. unfold collected. cbn [seq map concat].
    now rewrite app_nil_r. }
  set (l := a :: parsed) in *.
  set (acc' := push_upto target acc l).
  assert (Hacc' : acc' = firstn (Z.to_nat target) (acc ++ l))
    by (apply push_upto_firstn; exact Hacc).
  assert (Hl : l <> []) by discriminate.
  assert (Hlen : (length acc < length acc' <= Z.to_nat target)%nat).
  { rewrite Hacc', length_firstn, length_app. subst l. cbn [length]. lia. }
  assert (Hshift : forall k,
             acc ++ collected net params base start (S k)
             = (acc ++ l) ++ collected net params (S base)
                                      (start + PAGE_SIZE) k).
  { intros k. rewrite collected_S, P0. now rewrite app_assoc. }
  set (mc2 := set_state _ _).
  assert (Hbase : length (requests mc2) = S base)
    by (subst mc2; cbn [set_state requests]; rewrite length_app; cbn; lia).
  destruct (IH acc' (start + PAGE_SIZE) mc2) as
      (res & mc' & n & Hrun & Hreq & Hmid & Hstop); [lia | lia |].
  rewrite Hbase in Hmid, Hstop.
  exists res, mc', (S n). split; [exact Hrun|].
  split.
  { rewrite Hreq. subst mc2. cbn [set_state requests].
    now rewrite <- app_assoc, <- apiUrl_shift. }
  destruct Hstop as [(-> & Hfull & Hres) | (i & -> & Hlt & Hlast)].
  - (* the page brought the count to the target *)
    split; [intros i Hi; lia|]. right. exists 0%nat.
    split; [reflexivity|]. split; [exact C|]. right. right.
    exists l. split; [exact P0|]. split; [exact Hl|].
    rewrite Hshift. unfold collected at 1 2. cbn [seq map concat].
    rewrite !app_nil_r. split.
    + rewrite Hacc', length_firstn in Hfull. lia.
    + rewrite Hres, <- Hacc'. destruct acc'; [cbn in Hlen; lia | reflexivity].
  - (* the loop went on *)
    assert (Eacc : acc' = acc ++ l).
    { rewrite Hacc'. apply firstn_short. rewrite <- Hacc'. lia. }
    rewrite Eacc in Hmid, Hlast.
    split.
    + intros [|j] Hj.
      * exists l. split; [exact P0|]. split; [exact Hl|].
        rewrite Hshift. unfold collected. cbn [seq map concat].
        rewrite app_nil_r, <- Eacc. exact Hlt.
      * rewrite page_at_shift, Hshift. apply Hmid. lia.
    + right. exists (S i). split; [reflexivity|]. split; [exact C|].
      rewrite page_at_shift, !Hshift. exact Hlast.
Qed.

(** C5.  With fuel beyond the target, [fetchFromAPI] returns, and where it
    stops is determined.  Without a query text it asks for nothing.  With
    one it asks for page after page as long as each page yields items and
    the count stays below the target, and stops at the first page that
    fails (a request that rejects, a status that is not a success, a body
    that is not JSON), that yields no item, or that brings the count to the
    target; for a target of 0 or less it asks for nothing.  It returns null
    when the last page failed and when no item was collected, and otherwise
    the first [targetCount] of the items of the pages it asked for, a
    non-empty sequence of at most [targetCount] articles. *)
Theorem fetchFromAPI_contract
        (net : nat -> string -> option Response) (loc : Location)
        (fuel : nat) (target : Z) (mc : Machine) :
  (Z.to_nat target < fuel)%nat ->
  exists res mc' n,
    fetchFromAPI net loc fuel target mc = Some (res, mc')
    /\ let params := getSearchParams loc in
       let base := length (requests mc) in
       requests mc' =
         requests mc
         ++ map (fun i => apiUrl params (PAGE_SIZE * Z.of_nat i)) (seq 0 n)
       /\ (q params = EmptyString -> n = 0%nat /\ res = None)
       /\ (q params <> EmptyString -> api_run net params base target res n)
       /\ ((exists i, (i < n)%nat /\ page_at net params base 0 i = None) ->
           res = None)
       /\ (collected net params base 0 n = [] -> res = None)
       /\ (forall arts,
              res = Some arts ->
              arts <> []
              /\ Z.of_nat (length arts) <= target
              /\ arts = firstn (Z.to_nat target)
                               (collected net params base 0 n)).
Proof.
  intros Hfuel. unfold fetchFromAPI.
  destruct (String.eqb_spec (q (getSearchParams loc)) EmptyString) as [E | E].
  { exists None, mc, 0%nat. split; [reflexivity|]. cbv zeta.
    cbn [seq map]. rewrite app_nil_r.
    split; [reflexivity|]. split; [auto|]. split; [intros H; now elim H|].
    split; [reflexivity|]. split; [reflexivity | discriminate]. }
  destruct (fetchFromAPI_loop_stops net (getSearchParams loc) target fuel
              [] 0 mc) as (res & mc' & n & Hrun & Hreq & Hmid & Hstop);
    [cbn; lia | cbn [length]; lia |].
  exists res, mc', n. split; [exact Hrun|]. cbv zeta.
  cbn [app length] in Hmid, Hstop.
  set (params := getSearchParams loc) in *.
  set (base := length (requests mc)) in *.
  assert (Hrun' : api_run net params base target res n).
  { split; [exact Hmid|].
    destruct Hstop as [(-> & Ht & ->) | (i & -> & Ht & Hlast)].
    - left. cbn in Ht. auto.
    - right. exists i. cbn in Ht. auto. }
  split; [rewrite Hreq; f_equal; apply map_ext; intros i; f_equal; lia|].
  split; [intros H; now elim E|]. split; [intros _; exact Hrun'|].
  clear Hreq Hrun.
  destruct Hstop as [(-> & Ht & ->) | (i & -> & Ht & Hlast)].
  { split; [reflexivity|]. split; [reflexivity | discriminate]. }
  cbn in Ht.
  assert (Hprev : (0 < i)%nat ->
                  Z.of_nat (length (collected net params base 0 i)) < target
                  /\ collected net params base 0 i <> []).
  { intros Hi. destruct i as [|j]; [lia|].
    destruct (Hmid j ltac:(lia)) as (l & Hp & Hl & Hlt).
    split; [exact Hlt|]. rewrite collected_last, Hp.
    destruct l; [now elim Hl|]. intros H. apply app_eq_nil in H.
    destruct H as [_ H]. discriminate. }
  destruct Hlast as [[Hp ->] | [[Hp ->] | (l & Hp & Hl & Hfull & ->)]].
  - split; [reflexivity|]. split; [reflexivity | discriminate].
  - rewrite collected_last, Hp, app_nil_r.
    split; [|split].
    + intros (j & Hj & Hpj). destruct (Nat.eq_dec j i) as [-> | Hne];
        [congruence|].
      destruct (Hmid j ltac:(lia)) as (l & Hp' & _). congruence.
    + intros ->. reflexivity.
    + intros arts Ha. apply nonempty_or_null_some in Ha.
      destruct Ha as [-> Hne]. split; [exact Hne|].
      destruct i as [|j]; [now elim Hne|].
      destruct (Hprev ltac:(lia)) as [Hlt _].
      split; [lia|]. symmetry. apply firstn_all2. lia.
  - split; [|split].
    + intros (j & Hj & Hpj). destruct (Nat.eq_dec j i) as [-> | Hne];
        [congruence|].
      destruct (Hmid j ltac:(lia)) as (l' & Hp' & _). congruence.
    + intros H. rewrite H in Hfull. cbn in Hfull. lia.
    + intros arts [= <-].
      assert (Hn : firstn (Z.to_nat target)
                          (collected net params base 0 (S i)) <> []).
      { intros H. apply (f_equal (@length Article)) in H.
        rewrite length_firstn in H. cbn [length] in H. lia. }
      split; [exact Hn|]. split; [|reflexivity].
      rewrite length_firstn. lia.
Qed.

Lemma fetchFromAPI_contract_witness :
  (Z.to_nat 5 < 6)%nat
  /\ exists res mc' n,
      fetchFromAPI two_note_net search_location 6 5 fresh_machine
      = Some (res, mc')
      /\ (0 < n)%nat
      /\ length (requests mc') = (length (requests fresh_machine) + n)%nat.
Proof.
  assert (H : (Z.to_nat 5 < 6)%nat) by (simpl; lia).
  split; [exact H|].
  destruct (fetchFromAPI_contract two_note_net search_location 6 5
              fresh_machine H) as (res & mc' & n & Hrun & Hreq & _ & Hq & _).
  exists res, mc', n. split; [exact Hrun|]. split.
  - destruct (Hq ltac:(discriminate)) as [_ [(_ & Ht & _) | (i & -> & _)]];
      lia.
  - rewrite Hreq, length_app, length_map, length_seq. reflexivity.
Defined.

(** Two runs of the harvester: two notes and then an empty page give the two
    articles; a failure status on the second page gives null although the
    first page had given two articles. *)
Example fetchFromAPI_two_pages :
  option_map fst (fetchFromAPI two_note_net search_location 6 5 fresh_machine)
  = Some (Some [ sample_article; nested_article ])
  /\ option_map fst (fetchFromAPI failing_second_page_net search_location 6 5
                                  fresh_machine)
     = Some None.
Proof. split; vm_compute; reflexivity. Qed.

(** ** Scroll collector *)

Lemma autoScroll_loop_step dom fuel target last r mc :
  status (scrapingState mc) = Scraping ->
  autoScroll_loop dom (S fuel) target last r mc =
  let found := dom (scans mc) in
  let mc1 := {| scrapingState := scrapingState mc; requests := requests mc;
                scans := S (scans mc) |} in
  let st1 := set_current (Z.of_nat (length found))
                         (set_articles found (scrapingState mc)) in
  if Z.of_nat (length found) >=? target then
    Some (set_state (set_current target (set_articles (slice0 found target) st1))
                    mc1)
  else if (length found =? last)%nat then
    if (MAX_RETRIES <=? S r)%nat then Some (set_state st1 mc1)
    else autoScroll_loop dom fuel target (length found) (S r)
                         (set_state st1 mc1)
  else autoScroll_loop dom fuel target (length found) 0 (set_state st1 mc1).
Proof. intros H. cbn [autoScroll_loop]. rewrite H. reflexivity. Qed.

Lemma autoScroll_loop_settles dom target s K c :
  (forall k, (K <= k)%nat -> length (dom (s + k)%nat) = c) ->
  forall d k last r mc,
    (k + d = K + 16)%nat ->
    scans mc = (s + k)%nat ->
    status (scrapingState mc) = Scraping ->
    scroll_invariant dom s K k last r ->
    (r < MAX_RETRIES)%nat ->
    exists n mc',
      (k < n <= K + 16)%nat
      /\ (forall fuel, (n - k <= fuel)%nat ->
                       autoScroll_loop dom fuel target last r mc = Some mc')
      /\ scroll_outcome dom target s n mc'.
Proof.
  intros Hsettled. unfold MAX_RETRIES.
  induction d as [|d IH]; intros k last r mc Hd Hs Hst (I1 & I2 & I3 & I4) Hr;
    [lia|].
  set (found := dom (scans mc)).
  set (mc1 := {| scrapingState := scrapingState mc; requests := requests mc;
                 scans := S (scans mc) |}).
  set (st1 := set_current (Z.of_nat (length found))
                          (set_articles found (scrapingState mc))).
  assert (Hfound : found = dom (s + (k + 1) - 1)%nat)
    by (subst found; rewrite Hs; f_equal; lia).
  destruct (Z.of_nat (length found) >=? target) eqn:Ct.
  { exists (k + 1)%nat, (set_state (set_current target
                           (set_articles (slice0 found target) st1)) mc1).
    split; [lia|]. split.
    - intros [|fuel] Hf; [lia|].
      rewrite autoScroll_loop_step by exact Hst. cbv zeta. fold found.
      now rewrite Ct.
    - unfold scroll_outcome. rewrite <- Hfound. cbn.
      split; [lia|]. split; [exact Hst|]. left.
      split; [lia|]. split; reflexivity. }
  destruct (length found =? last)%nat eqn:Ce.
  - pose proof (proj1 (Nat.eqb_eq _ _) Ce) as Ee.
    assert (Hsame : forall j, (j < S r)%nat ->
                      length (dom (s + (k + 1) - 1 - j)%nat) = length found).
    { intros [|j] Hj.
      - rewrite Hfound. f_equal. f_equal. lia.
      - rewrite Ee, <- (I2 j) by lia. f_equal. f_equal. lia. }
    destruct (15 <=? S r)%nat eqn:Cr.
    + pose proof (proj1 (Nat.leb_le _ _) Cr) as Er.
      exists (k + 1)%nat, (set_state st1 mc1).
      split; [lia|]. split.
      * intros [|fuel] Hf; [lia|].
        rewrite autoScroll_loop_step by exact Hst. cbv zeta. fold found.
        rewrite Ct, Ce. unfold MAX_RETRIES. now rewrite Cr.
      * unfold scroll_outcome, MAX_RETRIES. rewrite <- Hfound. cbn.
        split; [lia|]. split; [exact Hst|]. right.
        split; [lia|]. split; [reflexivity|]. split; [reflexivity|].
        split; [lia|]. intros j Hj. apply Hsame. lia.
    + pose proof (proj1 (Nat.leb_gt _ _) Cr) as Er.
      destruct (IH (k + 1)%nat (length found) (S r) (set_state st1 mc1))
        as (n & mc' & Hn & Hrun & Hout).
      * lia.
      * cbn. lia.
      * exact Hst.
      * split; [lia|]. split; [exact Hsame|]. split; [|lia].
        intros _. now rewrite Hfound.
      * lia.
      * exists n, mc'. split; [lia|]. split; [|exact Hout].
        intros [|fuel] Hf; [lia|].
        rewrite autoScroll_loop_step by exact Hst. cbv zeta. fold found.
        rewrite Ct, Ce. unfold MAX_RETRIES. rewrite Cr.
        apply Hrun. lia.
  - pose proof (proj1 (Nat.eqb_neq _ _) Ce) as Ee.
    assert (Hk : (k <= K)%nat).
    { destruct (Nat.le_gt_cases k K) as [Hle | Hgt]; [exact Hle|].
      exfalso. apply Ee. rewrite I3 by lia. subst found. rewrite Hs.
      rewrite (Hsettled k) by lia.
      replace (s + k - 1)%nat with (s + (k - 1))%nat by lia.
      now rewrite (Hsettled (k - 1)%nat) by lia. }
    destruct (IH (k + 1)%nat (length found) 0%nat (set_state st1 mc1))
      as (n & mc' & Hn & Hrun & Hout).
    + lia.
    + cbn. lia.
    + exact Hst.
    + split; [lia|]. split; [intros j Hj; lia|]. split; [|lia].
      intros _. now rewrite Hfound.
    + lia.
    + exists n, mc'. split; [lia|]. split; [|exact Hout].
      intros [|fuel] Hf; [lia|].
      rewrite autoScroll_loop_step by exact Hst. cbv zeta. fold found.
      rewrite Ct, Ce. apply Hrun. lia.
Qed.

Lemma slice0_exact found target :
  0 <= target <= Z.of_nat (length found) ->
  Z.of_nat (length (slice0 found target)) = target.
Proof.
  intros H. unfold slice0.
  assert ((target <? 0) = false) as -> by lia.
  rewrite length_firstn. lia.
Qed.

Lemma autoScroll_loop_not_scraping dom fuel target last r mc :
  status (scrapingState mc) <> Scraping ->
  autoScroll_loop dom (S fuel) target last r mc = Some mc.
Proof.
  intros H. cbn [autoScroll_loop].
  destruct (status (scrapingState mc)); try reflexivity. now elim H.
Qed.

Lemma reaches_geb dom s target k :
  (Z.of_nat (scan_count dom s k) >=? target) = reaches dom s target k.
Proof. unfold reaches. now rewrite Z.geb_leb. Qed.

(** The retry counter counts the scans in a row that found as many articles
    as the scan before them. *)
Lemma retries_run dom s k :
  forall n,
    (n <= retries dom s (S k))%nat <->
    (n <= S k)%nat
    /\ forall j, (j < n)%nat -> unchanged dom s (k - j) = true.
Proof.
  induction k as [|k IH]; intros n.
  - cbn [retries]. destruct (unchanged dom s 0) eqn:U; split.
    + intros H. split; [lia|]. intros j Hj.
      now replace (0 - j)%nat with 0%nat by lia.
    + intros [H _]. lia.
    + intros H. split; [lia|]. intros j Hj. lia.
    + intros [H1 H2]. destruct n as [|n]; [lia|].
      specialize (H2 0%nat ltac:(lia)). cbn in H2. congruence.
  - change (retries dom s (S (S k)))
      with (if unchanged dom s (S k) then S (retries dom s (S k)) else 0%nat).
    destruct n as [|n]; [split; [intros _; split; [lia | intros j Hj; lia]
                                | intros _; lia]|].
    destruct (unchanged dom s (S k)) eqn:U; split.
    + intros H. apply le_S_n in H. apply IH in H. destruct H as [H1 H2].
      split; [lia|]. intros [|j] Hj; [exact U|].
      replace (S k - S j)%nat with (k - j)%nat by lia. apply H2. lia.
    + intros [H1 H2]. apply le_n_S. apply IH. split; [lia|].
      intros j Hj. specialize (H2 (S j) ltac:(lia)).
      now replace (S k - S j)%nat with (k - j)%nat in H2 by lia.
    + intros H. lia.
    + intros [_ H2]. specialize (H2 0%nat ltac:(lia)).
      replace (S k - 0)%nat with (S k) in H2 by lia. congruence.
Qed.

Lemma stagnates_spec dom s k :
  stagnates dom s k = true <->
  (14 <= k)%nat
  /\ forall j, (j < MAX_RETRIES)%nat -> unchanged dom s (k - j) = true.
Proof.
  unfold stagnates. rewrite Nat.leb_le, retries_run. unfold MAX_RETRIES.
  split; intros [H1 H2]; (split; [lia | exact H2]).
Qed.

(** The scroll loop, before its [k]-th scan, on a run that stops at scan
    [k + d] and not before. *)
Lemma autoScroll_loop_stops dom target s :
  forall d k mc,
    scans mc = (s + k)%nat ->
    status (scrapingState mc) = Scraping ->
    (retries dom s k < MAX_RETRIES)%nat ->
    stops dom s target (k + d) = true ->
    (forall j, (k <= j < k + d)%nat -> stops dom s target j = false) ->
    exists mc',
      (forall fuel, (d < fuel)%nat ->
                    autoScroll_loop dom fuel target (count_before dom s k)
                                    (retries dom s k) mc = Some mc')
      /\ scans mc' = (s + (k + d) + 1)%nat
      /\ (reaches dom s target (k + d) = true ->
          articles (scrapingState mc') = slice0 (dom (s + (k + d))%nat) target
          /\ current (scrapingState mc') = target)
      /\ (reaches dom s target (k + d) = false ->
          articles (scrapingState mc') = dom (s + (k + d))%nat
          /\ current (scrapingState mc')
             = Z.of_nat (length (dom (s + (k + d))%nat))).
Proof.
  induction d as [|d IH]; intros k mc Hs Hst Hr Hstop Hbefore.
  - rewrite Nat.add_0_r in *.
    set (found := dom (scans mc)).
    assert (Hfound : found = dom (s + k)%nat) by (subst found; now rewrite Hs).
    destruct (reaches dom s target k) eqn:R.
    + eexists. split; [|split; [|split]].
      * intros [|fuel] Hf; [lia|].
        rewrite autoScroll_loop_step by exact Hst. cbv zeta. fold found.
        rewrite Hfound. fold (scan_count dom s k).
        rewrite reaches_geb, R. reflexivity.
      * cbn. lia.
      * intros _. split; reflexivity.
      * discriminate.
    + unfold stops in Hstop. rewrite R in Hstop. cbn [orb] in Hstop.
      unfold stagnates in Hstop. cbn [retries] in Hstop.
      destruct (unchanged dom s k) eqn:U;
        [|unfold MAX_RETRIES in Hstop; discriminate].
      eexists. split; [|split; [|split]].
      * intros [|fuel] Hf; [lia|].
        rewrite autoScroll_loop_step by exact Hst. cbv zeta. fold found.
        rewrite Hfound. fold (scan_count dom s k).
        rewrite reaches_geb, R. unfold unchanged in U. rewrite U, Hstop.
        reflexivity.
      * cbn. lia.
      * discriminate.
      * intros _. split; reflexivity.
  - assert (Hk : stops dom s target k = false) by (apply Hbefore; lia).
    unfold stops in Hk. apply orb_false_iff in Hk. destruct Hk as [R Sg].
    unfold stagnates in Sg. cbn [retries] in Sg.
    set (found := dom (scans mc)).
    assert (Hfound : found = dom (s + k)%nat) by (subst found; now rewrite Hs).
    set (mc1 := {| scrapingState := scrapingState mc; requests := requests mc;
                   scans := S (scans mc) |}).
    set (st1 := set_current (Z.of_nat (length found))
                            (set_articles found (scrapingState mc))).
    destruct (IH (S k) (set_state st1 mc1)) as (mc' & Hrun & Hout).
    + cbn. lia.
    + exact Hst.
    + cbn [retries]. destruct (unchanged dom s k).
      * apply Nat.leb_gt in Sg. exact Sg.
      * unfold MAX_RETRIES. lia.
    + now replace (S k + d)%nat with (k + S d)%nat by lia.
    + intros j Hj. apply Hbefore. lia.
    + replace (S k + d)%nat with (k + S d)%nat in Hout by lia.
      exists mc'. split; [|exact Hout].
      intros [|fuel] Hf; [lia|].
      rewrite autoScroll_loop_step by exact Hst. cbv zeta. fold found.
      rewrite Hfound. fold (scan_count dom s k).
      rewrite reaches_geb, R.
      change (count_before dom s (S k)) with (scan_count dom s k) in Hrun.
      cbn [retries] in Hrun. unfold unchanged in Hrun, Sg |- *.
      destruct (scan_count dom s k =? count_before dom s k)%nat.
      * rewrite Sg. rewrite <- Hfound. fold st1 mc1.
        unfold scan_count in Hrun. rewrite <- Hfound in Hrun.
        unfold scan_count. rewrite <- Hfound. apply Hrun. lia.
      * rewrite <- Hfound. fold st1 mc1.
        unfold scan_count in Hrun. rewrite <- Hfound in Hrun.
        unfold scan_count. rewrite <- Hfound. apply Hrun. lia.
Qed.

(** The scroll loop runs on as long as no scan stops it. *)
Lemma autoScroll_loop_runs_on dom target s :
  forall fuel k mc,
    scans mc = (s + k)%nat ->
    status (scrapingState mc) = Scraping ->
    (retries dom s k < MAX_RETRIES)%nat ->
    (forall j, (k <= j < k + fuel)%nat -> stops dom s target j = false) ->
    autoScroll_loop dom fuel target (count_before dom s k) (retries dom s k) mc
    = None.
Proof.
  induction fuel as [|fuel IH]; intros k mc Hs Hst Hr Hnone; [reflexivity|].
  assert (Hk : stops dom s target k = false) by (apply Hnone; lia).
  unfold stops in Hk. apply orb_false_iff in Hk. destruct Hk as [R Sg].
  unfold stagnates in Sg. cbn [retries] in Sg.
  rewrite autoScroll_loop_step by exact Hst. cbv zeta.
  rewrite Hs. fold (scan_count dom s k). rewrite reaches_geb, R.
  set (mc1 := set_state _ _).
  assert (Hnext : autoScroll_loop dom fuel target (count_before dom s (S k))
                                  (retries dom s (S k)) mc1 = None).
  { apply IH.
    - subst mc1. cbn. lia.
    - exact Hst.
    - cbn [retries]. destruct (unchanged dom s k).
      + apply Nat.leb_gt in Sg. exact Sg.
      + unfold MAX_RETRIES. lia.
    - intros j Hj. apply Hnone. lia. }
  change (count_before dom s (S k)) with (scan_count dom s k) in Hnext.
  cbn [retries] in Hnext. unfold unchanged in Hnext, Sg |- *.
  destruct (scan_count dom s k =? count_before dom s k)%nat.
  - rewrite Sg. exact Hnext.
  - exact Hnext.
Qed.

Lemma first_stop (stop : nat -> bool) :
  forall n,
    (exists k, (k < n)%nat /\ stop k = true
               /\ forall j, (j < k)%nat -> stop j = false)
    \/ (forall k, (k < n)%nat -> stop k = false).
Proof.
  induction n as [|n [H | H]].
  - right. intros k Hk. lia.
  - left. destruct H as (k & Hk & R). exists k. split; [lia | exact R].
  - destruct (stop n) eqn:E.
    + left. exists n. split; [lia|]. split; [exact E | exact H].
    + right. intros k Hk. destruct (Nat.eq_dec k n) as [-> | Hne];
        [exact E | apply H; lia].
Qed.

(** C6 (as amended).  Called while the session is scraping,
    [autoScrollAndCollect] returns exactly when some scan stops it: a scan
    that finds the target, or the 15th scan in a row that finds as many
    articles as the scan before it (the first scan being compared with 0).
    It returns at the first such scan.  If that scan found the target, the
    articles kept are its articles cut by [slice(0, targetCount)], exactly
    [targetCount] of them for a target that is not negative; otherwise the
    articles of that scan are kept, fewer than the target.  When no scan
    stops it, no amount of fuel makes it return.  Called in another status,
    it returns at once and changes nothing.  ([stops] is spelled out in the
    last part.) *)
Theorem autoScrollAndCollect_terminates
        (dom : nat -> list Article) (target : Z) (mc : Machine) :
  (status (scrapingState mc) <> Scraping ->
   forall fuel, (0 < fuel)%nat ->
                autoScrollAndCollect dom fuel target mc = Some mc)
  /\ (status (scrapingState mc) = Scraping ->
      (forall K,
          stops dom (scans mc) target K = true ->
          (forall j, (j < K)%nat -> stops dom (scans mc) target j = false) ->
          exists mc',
            (forall fuel, (K < fuel)%nat ->
                          autoScrollAndCollect dom fuel target mc = Some mc')
            /\ scans mc' = (scans mc + K + 1)%nat
            /\ (reaches dom (scans mc) target K = true ->
                articles (scrapingState mc')
                = slice0 (dom (scans mc + K)%nat) target
                /\ current (scrapingState mc') = target
                /\ (0 <= target ->
                    Z.of_nat (length (articles (scrapingState mc')))
                    = target))
            /\ (reaches dom (scans mc) target K = false ->
                articles (scrapingState mc') = dom (scans mc + K)%nat
                /\ Z.of_nat (length (articles (scrapingState mc'))) < target
                /\ current (scrapingState mc')
                   = Z.of_nat (length (articles (scrapingState mc')))
                /\ (14 <= K)%nat
                /\ forall j, (j < MAX_RETRIES)%nat ->
                             unchanged dom (scans mc) (K - j) = true))
      /\ ((forall k, stops dom (scans mc) target k = false) ->
          forall fuel, autoScrollAndCollect dom fuel target mc = None)
      /\ ((exists fuel mc',
              autoScrollAndCollect dom fuel target mc = Some mc')
          <-> exists K, stops dom (scans mc) target K = true))
  /\ (forall K,
         stops dom (scans mc) target K = true <->
         target <= Z.of_nat (length (dom (scans mc + K)%nat))
         \/ ((14 <= K)%nat
             /\ forall j, (j < MAX_RETRIES)%nat ->
                          unchanged dom (scans mc) (K - j) = true)).
Proof.
  split.
  { intros Hst [|fuel] Hf; [lia|]. now apply autoScroll_loop_not_scraping. }
  split.
  2:{ intros K. unfold stops. rewrite orb_true_iff, stagnates_spec.
      unfold reaches, scan_count. now rewrite Z.leb_le. }
  intros Hst.
  assert (Hr0 : (retries dom (scans mc) 0 < MAX_RETRIES)%nat)
    by (unfold MAX_RETRIES; cbn; lia).
  assert (Hstop : forall K,
            stops dom (scans mc) target K = true ->
            (forall j, (j < K)%nat -> stops dom (scans mc) target j = false) ->
            exists mc',
              (forall fuel, (K < fuel)%nat ->
                            autoScrollAndCollect dom fuel target mc = Some mc')
              /\ scans mc' = (scans mc + K + 1)%nat
              /\ (reaches dom (scans mc) target K = true ->
                  articles (scrapingState mc')
                  = slice0 (dom (scans mc + K)%nat) target
                  /\ current (scrapingState mc') = target)
              /\ (reaches dom (scans mc) target K = false ->
                  articles (scrapingState mc') = dom (scans mc + K)%nat
                  /\ current (scrapingState mc')
                     = Z.of_nat (length (dom (scans mc + K)%nat)))).
  { intros K HK Hbefore.
    destruct (autoScroll_loop_stops dom target (scans mc) K 0 mc)
      as (mc' & Hrun & Hout); try assumption.
    - lia.
    - intros j Hj. apply Hbefore. lia.
    - exists mc'. split; [exact Hrun | exact Hout]. }
  assert (Hnever : forall fuel,
            (forall k, (k < fuel)%nat ->
                       stops dom (scans mc) target k = false) ->
            autoScrollAndCollect dom fuel target mc = None).
  { intros fuel Hnone.
    apply (autoScroll_loop_runs_on dom target (scans mc) fuel 0 mc);
      try assumption; [lia|].
    intros j Hj. apply Hnone. lia. }
  split; [|split].
  - intros K HK Hbefore.
    destruct (Hstop K HK Hbefore) as (mc' & Hrun & Hsc & Hreach & Hstag).
    exists mc'. split; [exact Hrun|]. split; [exact Hsc|]. split.
    + intros R. destruct (Hreach R) as [Ha Hc].
      split; [exact Ha|]. split; [exact Hc|].
      intros Ht. rewrite Ha. apply slice0_exact.
      unfold reaches, scan_count in R. apply Z.leb_le in R. lia.
    + intros R. destruct (Hstag R) as [Ha Hc]. rewrite Ha.
      split; [reflexivity|].
      unfold stops in HK. rewrite R in HK. cbn [orb] in HK.
      apply stagnates_spec in HK.
      unfold reaches, scan_count in R. apply Z.leb_gt in R.
      split; [exact R|]. split; [exact Hc | exact HK].
  - intros Hnone fuel. apply Hnever. intros k _. apply Hnone.
  - split.
    + intros (fuel & mc' & Hrun).
      destruct (first_stop (stops dom (scans mc) target) fuel)
        as [(k & _ & Hk & _) | Hnone].
      * exists k. exact Hk.
      * rewrite (Hnever fuel Hnone) in Hrun. discriminate.
    + intros (K & HK).
      destruct (first_stop (stops dom (scans mc) target) (S K))
        as [(k & _ & Hk & Hbefore) | Hnone].
      * destruct (Hstop k Hk Hbefore) as (mc' & Hrun & _).
        exists (S k), mc'. apply Hrun. lia.
      * rewrite (Hnone K ltac:(lia)) in HK. discriminate.
Qed.

Lemma autoScrollAndCollect_terminates_witness :
  status (scrapingState fresh_machine) = Scraping
  /\ stops settled_dom (scans fresh_machine) 5 15 = true
  /\ exists mc',
      autoScrollAndCollect settled_dom 16 5 fresh_machine = Some mc'
      /\ articles (scrapingState mc') = [sample_article; second_article].
Proof.
  assert (Hst : status (scrapingState fresh_machine) = Scraping)
    by reflexivity.
  assert (HK : stops settled_dom (scans fresh_machine) 5 15 = true)
    by reflexivity.
  split; [exact Hst|]. split; [exact HK|].
  destruct (proj1 (proj1 (proj2 (autoScrollAndCollect_terminates
                                   settled_dom 5 fresh_machine)) Hst)
                  15%nat HK)
    as (mc' & Hrun & _ & _ & Hstag).
  - intros j Hj. do 15 (destruct j as [|j]; [reflexivity|]). lia.
  - exists mc'. split; [apply Hrun; lia|].
    exact (proj1 (Hstag eq_refl)).
Defined.

Lemma flickering_dom_changes k :
  length (flickering_dom k) <> length (flickering_dom (S k)).
Proof.
  unfold flickering_dom. rewrite Nat.even_succ, <- Nat.negb_even.
  destruct (Nat.even k); discriminate.
Qed.

Lemma flickering_dom_short k :
  (Z.of_nat (length (flickering_dom k)) >=? 3) = false.
Proof. unfold flickering_dom. now destruct (Nat.even k). Qed.

Lemma autoScroll_loop_flickers fuel :
  forall last r mc,
    status (scrapingState mc) = Scraping ->
    last <> length (flickering_dom (scans mc)) ->
    autoScroll_loop flickering_dom fuel 3 last r mc = None.
Proof.
  induction fuel as [|fuel IH]; intros last r mc Hst Hne; [reflexivity|].
  rewrite autoScroll_loop_step by exact Hst. cbv zeta.
  rewrite flickering_dom_short.
  destruct (Nat.eqb_spec (length (flickering_dom (scans mc))) last) as [E|_];
    [now elim Hne|].
  apply IH; [exact Hst|]. cbn. apply flickering_dom_changes.
Qed.

(** C6 (as stated) fails.  On a document that shows one article and two
    articles in turn, the count changes at every scan without reaching a
    target of 3, and the loop never returns: no amount of fuel gives a
    result. *)
Lemma autoScrollAndCollect_may_not_terminate :
  status (scrapingState fresh_machine) = Scraping
  /\ forall fuel,
      autoScrollAndCollect flickering_dom fuel 3 fresh_machine = None.
Proof.
  split; [reflexivity|].
  intros fuel. apply autoScroll_loop_flickers; [reflexivity | discriminate].
Qed.

(** ** The expectations of the test suite, replayed *)

Example extractArticleFromNote_standard :
  extractArticleFromNote sample_note = Returned (Some sample_article).
Proof. reflexivity. Qed.

Example extractArticleFromNote_rejects_primitives :
  extractArticleFromNote JNull = Returned None
  /\ extractArticleFromNote (JStr "string") = Returned None
  /\ extractArticleFromNote (JNum (of_Z 123)) = Returned None.
Proof. repeat split; reflexivity. Qed.

Example safeNum_numeric_string :
  safeNum (JObj [("price", JStr "1500")]) ["price"] = Returned (of_Z 1500)
  /\ safeNum (JObj [("spCount", JNum (of_Z 50))]) ["like_count"; "spCount"]
     = Returned (of_Z 50)
  /\ safeNum JNull ["like_count"] = Returned zero.
Proof. repeat split; vm_compute; reflexivity. Qed.

(** [Number] of a text: white space of every kind is stripped, and the value
    is a binary64 value, which overflows, underflows and rounds. *)
Example StringToNumber_binary64 :
  StringToNumber "1e400" = Infinity false
  /\ StringToNumber "1e-400" = zero
  /\ StringToNumber "　5" = of_Z 5
  /\ StringToNumber "9007199254740993" = of_Z 9007199254740992
  /\ StringToNumber "0.1000000000000000055511151231257827" = Finite 1 (-1)
  /\ StringToNumber " 0x1F " = of_Z 31.
Proof. repeat split; vm_compute; reflexivity. Qed.

(** A value that cannot be converted makes the normalizer throw, and the
    item is left out. *)
Example extractArticleFromNote_unprintable :
  extractArticleFromNote unprintable_note = Thrown
  /\ extractNotesFromApiResponse
       (JObj [("notes", JArr [unprintable_note; sample_note])])
     = [sample_article].
Proof. split; reflexivity. Qed.

Example findNotesArray_shapes :
  findNotesArray (JObj [("data", JObj [("notes", JArr [sample_note])])])
  = [sample_note]
  /\ findNotesArray
       (JObj [("data", JObj [("notes", JObj [("items", JArr [sample_note])])])])
     = [sample_note]
  /\ findNotesArray (JObj [("data", JArr [sample_note])]) = [sample_note]
  /\ findNotesArray (JObj [("data", JObj [("my_custom_key", JArr [sample_note])])])
     = [sample_note]
  /\ findNotesArray JNull = []
  /\ findNotesArray (JObj []) = []
  /\ findNotesArray
       (JObj [("data", JObj [("notes", JStr "not-an-array");
                             ("count", JNum (of_Z 10))])])
     = [].
Proof. repeat split; reflexivity. Qed.

Example findRatingInObject_cases :
  findRatingInObject (JObj [("rating_count", JNum (of_Z 10))])
                     ["rating_count"; "recommend_count"] 0
  = Returned (of_Z 10)
  /\ findRatingInObject (nest "note" (JObj [("recommend_count", JNum (of_Z 5))]))
                        ["rating_count"; "recommend_count"] 0
     = Returned (of_Z 5)
  /\ findRatingInObject
       (nest "a" (nest "b" (nest "c" (nest "d"
          (JObj [("rating_count", JNum (of_Z 99))])))))
       ["rating_count"; "recommend_count"] 0 = Returned zero
  /\ findRatingInObject JNull ["rating_count"; "recommend_count"] 0
     = Returned zero.
Proof. repeat split; reflexivity. Qed.

Example fetchLikeRating_engagement_only :
  fst (fetchLikeRating engagement_only_net article_url fresh_machine) = zero
  /\ requests (snd (fetchLikeRating engagement_only_net article_url
                                    fresh_machine))
     = ["https://note.com/api/v3/notes/n12345"; article_url]
  /\ fetchLikeRating engagement_only_net "https://note.com/user" fresh_machine
     = (zero, fresh_machine).
Proof. repeat split; reflexivity. Qed.

Example csvContent_one_row :
  csvContent [sample_article]
  = (join "," headers ++ String newline EmptyString
       ++ quoted "A" ++ ",42,0,500," ++ quoted "https://x/u/n/n1" ++ ","
       ++ quoted "C")%string.
Proof. reflexivity. Qed.

(** * More of the code: theorems *)

(** ** The export can be read back *)

Lemma string_app_assoc (a b c : string) :
  ((a ++ b) ++ c = a ++ (b ++ c))%string.
Proof. induction a as [|x a IH]; simpl; [reflexivity | now rewrite IH]. Qed.

Lemma string_app_nil_r (a : string) : (a ++ EmptyString = a)%string.
Proof. induction a as [|x a IH]; simpl; [reflexivity | now rewrite IH]. Qed.

Lemma read_bare b :
  all_chars plain_char b = true ->
  forall f row rows rest,
    read_csv Bare f row rows (b ++ rest)
    = read_csv Bare (f ++ b) row rows rest.
Proof.
  induction b as [|c b IH]; intros Hb f row rows rest.
  - now rewrite string_app_nil_r.
  - cbn [all_chars] in Hb. apply andb_true_iff in Hb. destruct Hb as [Hc Hb].
    unfold plain_char in Hc. apply negb_true_iff in Hc.
    apply orb_false_iff in Hc. destruct Hc as [Hc Hn].
    apply orb_false_iff in Hc. destruct Hc as [Hq Hc].
    cbn [append read_csv]. rewrite Hq, Hc, Hn.
    rewrite (IH Hb). unfold snoc. now rewrite string_app_assoc.
Qed.

Lemma read_quoted_body v :
  forall f row rows rest,
    read_csv InQuoted f row rows (double_quotes v ++ String dquote rest)
    = read_csv AfterQuote (f ++ v) row rows rest.
Proof.
  induction v as [|c v IH]; intros f row rows rest.
  - cbn [double_quotes append read_csv]. rewrite Ascii.eqb_refl.
    now rewrite string_app_nil_r.
  - cbn [double_quotes]. destruct (Ascii.eqb c dquote) eqn:E.
    + apply Ascii.eqb_eq in E. subst c.
      cbn [append read_csv]. rewrite !Ascii.eqb_refl.
      rewrite IH. unfold snoc. now rewrite string_app_assoc.
    + cbn [append read_csv]. rewrite E, IH. unfold snoc.
      now rewrite string_app_assoc.
Qed.

Lemma read_quoted v row rows rest :
  read_csv Bare EmptyString row rows (quoted (double_quotes v) ++ rest)
  = read_csv AfterQuote v row rows rest.
Proof.
  unfold quoted. cbn [append read_csv].
  rewrite Ascii.eqb_refl. cbn [String.eqb].
  rewrite string_app_assoc. cbn [append]. apply read_quoted_body.
Qed.

Lemma all_chars_forallb p l :
  all_chars p (string_of_list_ascii l) = forallb p l.
Proof. induction l as [|c l IH]; simpl; [reflexivity | now rewrite IH]. Qed.

Lemma forallb_list_ascii p s :
  forallb p (list_ascii_of_string s) = all_chars p s.
Proof. induction s as [|c s IH]; simpl; [reflexivity | now rewrite IH]. Qed.

Lemma forallb_weaken {A} (p q : A -> bool) l :
  (forall x, p x = true -> q x = true) ->
  forallb p l = true -> forallb q l = true.
Proof.
  intros H. induction l as [|x l IH]; simpl; [reflexivity|].
  intros E. apply andb_true_iff in E. destruct E as [E1 E2].
  now rewrite (H x E1), IH.
Qed.

Lemma forallb_rev {A} (p : A -> bool) l :
  forallb p (rev l) = forallb p l.
Proof.
  induction l as [|x l IH]; simpl; [reflexivity|].
  rewrite forallb_app, IH. simpl. rewrite andb_true_r. apply andb_comm.
Qed.

Lemma forallb_drop_while (p : ascii -> bool) q l :
  forallb p l = true -> forallb p (drop_while q l) = true.
Proof.
  induction l as [|x l IH]; simpl; [reflexivity|].
  intros E. destruct (q x); [|exact E].
  apply andb_true_iff in E. now apply IH.
Qed.

Lemma forallb_firstn {A} (p : A -> bool) n l :
  forallb p l = true -> forallb p (firstn n l) = true.
Proof.
  revert l. induction n as [|n IH]; intros [|x l]; simpl; try reflexivity.
  intros E. apply andb_true_iff in E. destruct E as [E1 E2].
  now rewrite E1, IH.
Qed.

Lemma forallb_skipn {A} (p : A -> bool) n l :
  forallb p l = true -> forallb p (skipn n l) = true.
Proof.
  revert l. induction n as [|n IH]; intros [|x l]; simpl; try reflexivity;
    try (intros E; exact E).
  intros E. apply andb_true_iff in E. now apply IH.
Qed.

Lemma forallb_repeat {A} (p : A -> bool) x n :
  p x = true -> forallb p (repeat x n) = true.
Proof. intros H. induction n; simpl; [reflexivity | now rewrite H]. Qed.

Lemma digits_of_N_numeral n : forallb numeral_char (digits_of_N n) = true.
Proof.
  unfold digits_of_N. rewrite forallb_list_ascii.
  assert (H : forall d, all_chars numeral_char (NilEmpty.string_of_uint d) = true)
    by (induction d; cbn [NilEmpty.string_of_uint all_chars]; auto).
  destruct (N.to_uint n); try apply H. reflexivity.
Qed.

Lemma NumberToString_numeral x :
  all_chars numeral_char (NumberToString x) = true.
Proof.
  destruct x as [| [] | m e]; try reflexivity.
  assert (Hbody : forall neg p,
    all_chars numeral_char
      (string_of_list_ascii
         (let all := digits_of_N (Z.to_N (Z.abs p)) in
          let ds := rev (drop_while (Ascii.eqb "0"%char) (rev all)) in
          let k := Z.of_nat (length ds) in
          let n := Z.of_nat (length all) + e in
          let body :=
            if (k <=? n) && (n <=? 21) then ds ++ zeros (n - k)
            else if (0 <? n) && (n <=? 21) then
              firstn (Z.to_nat n) ds ++ "."%char :: skipn (Z.to_nat n) ds
            else if (-6 <? n) && (n <=? 0) then
              "0"%char :: "."%char :: zeros (- n) ++ ds
            else
              let ex := n - 1 in
              let mant :=
                match ds with
                | [d] => [d]
                | d :: rest => d :: "."%char :: rest
                | [] => []
                end in
              mant ++ "e"%char :: (if ex <? 0 then "-"%char else "+"%char)
                   :: digits_of_N (Z.to_N (Z.abs ex)) in
          if neg : bool then "-"%char :: body else body)) = true).
  { intros neg p. cbv zeta. rewrite all_chars_forallb.
    set (all := digits_of_N _).
    set (ds := rev (drop_while _ (rev all))).
    assert (Hall : forallb numeral_char all = true)
      by apply digits_of_N_numeral.
    assert (Hds : forallb numeral_char ds = true)
      by (subst ds; rewrite forallb_rev; apply forallb_drop_while;
          now rewrite forallb_rev).
    clearbody ds all.
    assert (Hm : forallb numeral_char
                   match ds with
                   | [d] => [d]
                   | d :: rest => d :: "."%char :: rest
                   | [] => []
                   end = true).
    { destruct ds as [|d [|d' rest]]; exact Hds. }
    assert (Hrest : forall b l, forallb numeral_char l = true ->
              forallb numeral_char (if b : bool then "-"%char :: l else l)
              = true)
      by (intros [] l Hl; [cbn [forallb]; now rewrite Hl | exact Hl]).
    apply Hrest. unfold zeros.
    destruct (_ && _).
    { rewrite forallb_app, Hds. apply forallb_repeat. reflexivity. }
    destruct (_ && _).
    { rewrite forallb_app, forallb_firstn by exact Hds.
      cbn [forallb andb]. now rewrite forallb_skipn by exact Hds. }
    destruct (_ && _).
    { cbn [forallb]. rewrite forallb_app, Hds.
      now rewrite forallb_repeat by reflexivity. }
    rewrite forallb_app, Hm. cbn [forallb].
    rewrite digits_of_N_numeral. now destruct (_ <? 0). }
  destruct m as [|p|p]; [reflexivity | |].
  - exact (Hbody (Z.pos p <? 0) (Z.pos p)).
  - exact (Hbody (Z.neg p <? 0) (Z.neg p)).
Qed.

Lemma numeral_char_plain c : numeral_char c = true -> plain_char c = true.
Proof.
  destruct c as [[] [] [] [] [] [] [] []]; intros H;
    solve [reflexivity | discriminate H].
Qed.

Lemma all_chars_weaken (p q : ascii -> bool) s :
  (forall c, p c = true -> q c = true) ->
  all_chars p s = true -> all_chars q s = true.
Proof.
  intros H. induction s as [|c s IH]; simpl; [reflexivity|].
  intros E. apply andb_true_iff in E. destruct E as [E1 E2].
  now rewrite (H c E1), IH.
Qed.

Lemma NumberToString_plain x : all_chars plain_char (NumberToString x) = true.
Proof.
  apply all_chars_weaken with numeral_char;
    [exact numeral_char_plain | apply NumberToString_numeral].
Qed.

(** One row of the export, whatever follows it, read up to the end of its
    last field. *)
Lemma read_row a rows rest :
  read_csv Bare EmptyString [] rows (join "," (csv_row a) ++ rest)
  = read_csv AfterQuote (creator a)
             [ title a; NumberToString (likeCount a);
               NumberToString (match likeRating a with
                               | Some r => or_num r zero
                               | None => zero
                               end);
               NumberToString (price a); url a ]
             rows rest.
Proof.
  unfold csv_row. rewrite !escapeCsvField_string. cbn [join].
  rewrite !string_app_assoc. cbn [append].
  rewrite read_quoted. cbn [read_csv].
  replace (Ascii.eqb comma dquote) with false by reflexivity.
  rewrite Ascii.eqb_refl.
  rewrite read_bare by apply NumberToString_plain. cbn [read_csv append].
  replace (Ascii.eqb comma dquote) with false by reflexivity.
  rewrite Ascii.eqb_refl.
  rewrite read_bare by apply NumberToString_plain. cbn [read_csv append].
  replace (Ascii.eqb comma dquote) with false by reflexivity.
  rewrite Ascii.eqb_refl.
  rewrite read_bare by apply NumberToString_plain. cbn [read_csv append].
  replace (Ascii.eqb comma dquote) with false by reflexivity.
  rewrite Ascii.eqb_refl.
  rewrite read_quoted. cbn [read_csv].
  replace (Ascii.eqb comma dquote) with false by reflexivity.
  rewrite Ascii.eqb_refl.
  rewrite read_quoted. reflexivity.
Qed.

Lemma join_cons sep x y l :
  join sep (x :: y :: l) = (x ++ sep ++ join sep (y :: l))%string.
Proof. reflexivity. Qed.

Lemma read_rows arts :
  forall a rows,
    read_csv Bare EmptyString [] rows
             (join (String newline EmptyString)
                   (map (fun a => join "," (csv_row a)) (a :: arts)))
    = Some (rows ++ map csv_fields (a :: arts)).
Proof.
  induction arts as [|b arts IH]; intros a rows.
  - cbn [map join].
    rewrite <- (string_app_nil_r (join "," (csv_row a))), read_row.
    reflexivity.
  - cbn [map]. rewrite join_cons, read_row. cbn [append read_csv].
    replace (Ascii.eqb newline dquote) with false by reflexivity.
    replace (Ascii.eqb newline comma) with false by reflexivity.
    rewrite Ascii.eqb_refl.
    change (join (String newline EmptyString)
              (join "," (csv_row b)
               :: map (fun a0 => join "," (csv_row a0)) arts))
      with (join (String newline EmptyString)
              (map (fun a0 => join "," (csv_row a0)) (b :: arts))).
    rewrite IH. cbn [map app]. now rewrite <- app_assoc.
Qed.

Lemma read_header rows rest :
  read_csv Bare EmptyString [] rows
           (join "," headers ++ String newline rest)
  = read_csv Bare EmptyString [] (rows ++ [headers]) rest.
Proof. reflexivity. Qed.

(** X1.  The text [downloadCSV] writes can be read back: after the byte-order
    mark, a reader of comma-separated text finds the header record and then,
    for each article in order, a record of exactly its six values (the
    numbers as [String] writes them), whatever quote characters, commas and
    line feeds the title, the URL and the creator contain. *)
Theorem csv_export_reads_back (now : Clock) (articles : list Article) :
  content (downloadCSV now articles) = (bom ++ csvContent articles)%string
  /\ read_csv Bare EmptyString [] [] (csvContent articles)
     = Some (headers :: map csv_fields articles).
Proof.
  split; [reflexivity|]. unfold csvContent.
  destruct articles as [|a arts].
  - reflexivity.
  - cbn [map]. rewrite join_cons. cbn [append].
    change (String newline
              (join (String newline EmptyString)
                 (join "," (csv_row a)
                  :: map (fun a0 => join "," (csv_row a0)) arts)))
      with (String newline
              (join (String newline EmptyString)
                 (map (fun a0 => join "," (csv_row a0)) (a :: arts)))).
    rewrite read_header, read_rows. reflexivity.
Qed.

(** ** The normalizer: what it refuses, what it throws, what it returns *)

Lemma normalize_all_app l1 l2 :
  normalize_all (l1 ++ l2) = normalize_all l1 ++ normalize_all l2.
Proof.
  induction l1 as [|n l1 IH]; [reflexivity|].
  cbn [app normalize_all]. rewrite IH.
  destruct (extractArticleFromNote n) as [[a|]|]; try reflexivity.
  now destruct (negb (String.eqb (title a) EmptyString)).
Qed.

Lemma normalize_all_In l a :
  In a (normalize_all l) <->
  exists n, In n l /\ extractArticleFromNote n = Returned (Some a)
            /\ title a <> EmptyString.
Proof.
  induction l as [|n l IH]; cbn [normalize_all].
  - split; [intros [] | intros (n & [] & _)].
  - assert (Hskip : In a (normalize_all l) ->
              exists n0, In n0 (n :: l)
                         /\ extractArticleFromNote n0 = Returned (Some a)
                         /\ title a <> EmptyString).
    { intros H. apply IH in H. destruct H as (n0 & Hin & R).
      exists n0. split; [now right | exact R]. }
    destruct (extractArticleFromNote n) as [[b|]|] eqn:E.
    + destruct (String.eqb (title b) EmptyString) eqn:T; cbn [negb].
      * split; [exact Hskip|].
        intros (n0 & [<- | Hin] & R & Ht).
        -- rewrite E in R. injection R as <-.
           apply String.eqb_eq in T. contradiction.
        -- apply IH. exists n0. auto.
      * split.
        -- intros [<- | H]; [|now apply Hskip].
           exists n. split; [now left|]. split; [exact E|].
           intros Ht. rewrite Ht in T. discriminate.
        -- intros (n0 & [<- | Hin] & R & Ht).
           ++ rewrite E in R. injection R as <-. now left.
           ++ right. apply IH. exists n0. auto.
    + split; [exact Hskip|].
      intros (n0 & [<- | Hin] & R & Ht); [congruence|].
      apply IH. exists n0. auto.
    + split; [exact Hskip|].
      intros (n0 & [<- | Hin] & R & Ht); [congruence|].
      apply IH. exists n0. auto.
Qed.

Lemma normalize_all_length l : (length (normalize_all l) <= length l)%nat.
Proof.
  induction l as [|n l IH]; cbn [normalize_all length]; [lia|].
  destruct (extractArticleFromNote n) as [[a|]|]; try lia.
  destruct (negb (String.eqb (title a) EmptyString)); cbn [length]; lia.
Qed.

(** X2.  [extractNotesFromApiResponse] treats the items one by one: an item
    that throws, that is not an object or that has no title is left out
    without a trace, and the others are kept in their order.  So the articles
    of a list of items are those of its parts put end to end, an article is
    returned exactly when it is the normal form, with a non-empty title, of
    one of the items, and there are never more articles than items. *)
Theorem extractNotes_item_by_item (data : JSON) :
  (forall l1 l2,
      normalize_all (l1 ++ l2) = normalize_all l1 ++ normalize_all l2)
  /\ (forall a,
         In a (extractNotesFromApiResponse data) <->
         exists n, In n (findNotesArray data)
                   /\ extractArticleFromNote n = Returned (Some a)
                   /\ title a <> EmptyString)
  /\ (length (extractNotesFromApiResponse data)
      <= length (findNotesArray data))%nat.
Proof.
  split; [exact normalize_all_app|]. split.
  - intros a. apply normalize_all_In.
  - apply normalize_all_length.
Qed.

Lemma extractNotes_item_by_item_witness :
  In sample_article (extractNotesFromApiResponse two_arrays)
  /\ (length (extractNotesFromApiResponse two_arrays)
      <= length (findNotesArray two_arrays))%nat.
Proof.
  destruct (extractNotes_item_by_item two_arrays) as (_ & Hin & Hlen).
  split; [|exact Hlen].
  apply Hin. exists sample_note.
  split; [left; reflexivity|]. split; [reflexivity | discriminate].
Defined.

Lemma first_truthy_cases cands last :
  first_truthy cands last = last
  \/ (truthy (first_truthy cands last) = true
      /\ In (Some (first_truthy cands last)) cands).
Proof.
  induction cands as [|[v|] cands IH]; cbn [first_truthy].
  - now left.
  - destruct (truthy v) eqn:T.
    + right. split; [exact T | now left].
    + destruct IH as [-> | [Ht Hin]]; [now left | right; split; auto].
      now right.
  - destruct IH as [-> | [Ht Hin]]; [now left | right; split; auto].
    now right.
Qed.

Lemma direct_url_keys_http obj keys val :
  direct_url_keys obj keys = Some val -> startsWith "http" val = true.
Proof.
  induction keys as [|key keys IH]; cbn [direct_url_keys]; [discriminate|].
  destruct (get obj key) as [[| | |s| |]|]; try exact IH.
  destruct (startsWith "http" s) eqn:E; [|exact IH].
  now intros [= <-].
Qed.

Lemma direct_url_http objs val :
  direct_url objs = Some val -> startsWith "http" val = true.
Proof.
  induction objs as [|obj objs IH]; cbn [direct_url]; [discriminate|].
  destruct (direct_url_keys obj urlKeys) as [v|] eqn:E; [|exact IH].
  intros [= <-]. exact (direct_url_keys_http _ _ _ E).
Qed.

Lemma first_truthy_opt_In cands v :
  first_truthy_opt cands = Some v -> In (Some v) cands.
Proof.
  induction cands as [|c cands IH]; [discriminate|].
  cbn [first_truthy_opt]. destruct cands as [|c' cands'].
  - intros ->. now left.
  - destruct (truthy_opt c).
    + intros ->. now left.
    + intros H. right. exact (IH H).
Qed.

Lemma String_of_thrown val :
  String_of val = Thrown -> ToPrimitive_throws val = true.
Proof.
  unfold String_of. now destruct (ToPrimitive_throws val).
Qed.

Lemma safeStr_thrown obj key :
  safeStr (get obj key) = Thrown ->
  exists val, get obj key = Some val /\ ToPrimitive_throws val = true.
Proof.
  destruct (get obj key) as [v|]; [|discriminate].
  intros H. exists v. split; [reflexivity|].
  destruct v; try discriminate H; exact (String_of_thrown _ H).
Qed.

Lemma or_else_str_thrown a b :
  or_else_str a b = Thrown -> a = Thrown \/ b = Thrown.
Proof.
  unfold or_else_str. destruct a as [x|]; [|now left]. cbn [bind].
  destruct (String.eqb x EmptyString); [now right | discriminate].
Qed.

Lemma or_else_num_thrown a b :
  or_else_num a b = Thrown -> a = Thrown \/ b = Thrown.
Proof.
  unfold or_else_num. destruct a as [x|]; [|now left]. cbn [bind].
  destruct (truthy_num x); [discriminate | now right].
Qed.

Lemma safeNum_thrown obj keys :
  safeNum obj keys = Thrown ->
  exists key val, get obj key = Some val /\ ToPrimitive_throws val = true.
Proof.
  unfold safeNum. destruct (negb (is_object obj)); [discriminate|].
  induction keys as [|key keys IH]; cbn [safeNum_keys]; [discriminate|].
  destruct (get obj key) as [val|] eqn:G; [|exact IH].
  assert (Hval : (num <- Number_of val ;;
                  if negb (isNaN num) then Returned num
                  else safeNum_keys obj keys) = Thrown ->
                 exists key0 val0, get obj key0 = Some val0
                                   /\ ToPrimitive_throws val0 = true).
  { unfold Number_of. destruct (ToPrimitive_throws val) eqn:T.
    - intros _. exists key, val. auto.
    - cbn [bind]. destruct (negb (isNaN (ToNumber val)));
        [discriminate | exact IH]. }
  destruct val; exact Hval || exact IH.
Qed.

Lemma title_of_thrown note inner :
  title_of note inner = Thrown ->
  exists obj key val,
    (obj = inner \/ obj = note)
    /\ get obj key = Some val /\ ToPrimitive_throws val = true.
Proof.
  unfold title_of. intros H.
  repeat (apply or_else_str_thrown in H;
          destruct H as [H | H];
          [apply safeStr_thrown in H; destruct H as (val & G & T);
           eexists _, _, val; split; [|split; [exact G | exact T]];
           auto|]).
  discriminate.
Qed.

Lemma buildNoteUrl_thrown note :
  buildNoteUrl note (inner_of note) = Thrown ->
  bad_href note \/ unconvertible_field note.
Proof.
  unfold buildNoteUrl.
  destruct (direct_url _); [discriminate|].
  set (key := first_truthy [get (inner_of note) "key"; get note "key";
                            get (inner_of note) "slug"; get note "slug"]
                           (JStr EmptyString)).
  set (user := first_truthy [get (inner_of note) "user"; get note "user"]
                            (JObj [])).
  set (urlname := first_truthy _ (JStr EmptyString)).
  destruct (truthy key && truthy urlname).
  - intros H. right.
    destruct (String_of urlname) as [u|] eqn:U.
    + cbn [bind] in H.
      destruct (String_of key) as [k|] eqn:K; [discriminate|].
      apply String_of_thrown in K.
      destruct (first_truthy_cases
                  [get (inner_of note) "key"; get note "key";
                   get (inner_of note) "slug"; get note "slug"]
                  (JStr EmptyString)) as [E | [_ Hin]];
        fold key in E || fold key in Hin.
      * rewrite E in K. discriminate.
      * cbn [In] in Hin.
        destruct Hin as [G | [G | [G | [G | []]]]];
          eexists _, _, key; (split; [|split; [exact G | exact K]]); auto.
    + apply String_of_thrown in U.
      destruct (first_truthy_cases
                  [ (if typeof_object user then get user "urlname"
                     else Some (JStr EmptyString));
                    get (inner_of note) "urlname"; get note "urlname" ]
                  (JStr EmptyString)) as [E | [_ Hin]];
        fold urlname in E || fold urlname in Hin.
      * rewrite E in U. discriminate.
      * cbn [In] in Hin. destruct Hin as [G | [G | [G | []]]].
        -- destruct (typeof_object user);
             [|injection G as G; rewrite <- G in U; discriminate].
           destruct (first_truthy_cases
                       [get (inner_of note) "user"; get note "user"]
                       (JObj [])) as [E | [_ Hin]];
             fold user in E || fold user in Hin.
           ++ rewrite E in G. discriminate.
           ++ cbn [In] in Hin. destruct Hin as [Gu | [Gu | []]];
                exists user, "urlname", urlname;
                (split; [|split; [exact G | exact U]]); auto.
        -- eexists _, _, urlname. split; [|split; [exact G | exact U]]. auto.
        -- eexists _, _, urlname. split; [|split; [exact G | exact U]]. auto.
  - set (href := first_truthy _ _).
    destruct (first_truthy_cases [get (inner_of note) "href"; get note "href"]
                                 (JStr EmptyString)) as [E | [T Hin]];
      fold href in E || fold href in T, Hin.
    + rewrite E. discriminate.
    + rewrite T. intros H. left. exists href. split; [|split; [exact T|]].
      * destruct Hin as [Hin | [Hin | []]]; [left | right]; now symmetry.
      * intros s Hs. rewrite Hs in H. discriminate.
Qed.

Lemma creator_from_user_thrown note objs :
  (forall obj, In obj objs -> obj = inner_of note \/ obj = note) ->
  creator_from_user objs = Thrown -> unconvertible_field note.
Proof.
  induction objs as [|obj objs IH]; intros Hobjs; [discriminate|].
  assert (Hrest : creator_from_user objs = Thrown -> unconvertible_field note).
  { apply IH. intros o Ho. apply Hobjs. now right. }
  cbn [creator_from_user].
  destruct (get obj "user") as [user|] eqn:Gu; [|exact Hrest].
  destruct (is_object user); [|exact Hrest].
  destruct (first_truthy_opt _) as [name|] eqn:F; [|exact Hrest].
  destruct (truthy name); [|exact Hrest].
  destruct (String_of name) as [t|] eqn:N; [discriminate|].
  intros _. apply String_of_thrown in N. apply first_truthy_opt_In in F.
  assert (Hk : exists k, get user k = Some name).
  { cbn [In] in F. destruct F as [G | [G | [G | [G | []]]]];
      eexists; exact G. }
  destruct Hk as [k Gk]. exists user, k, name.
  split; [|split; [exact Gk | exact N]].
  destruct (Hobjs obj (or_introl eq_refl)) as [-> | ->]; auto.
Qed.

Lemma creator_from_keys_thrown obj keys :
  creator_from_keys obj keys = Thrown ->
  exists key val, get obj key = Some val /\ ToPrimitive_throws val = true.
Proof.
  induction keys as [|key keys IH]; [discriminate|].
  cbn [creator_from_keys].
  destruct (get obj key) as [v|] eqn:G; [|exact IH].
  destruct (truthy v); [|exact IH].
  destruct (String_of v) as [t|] eqn:N; [discriminate|].
  intros _. exists key, v. split; [exact G | exact (String_of_thrown _ N)].
Qed.

Lemma creator_from_fields_thrown note objs :
  (forall obj, In obj objs -> obj = inner_of note \/ obj = note) ->
  creator_from_fields objs = Thrown -> unconvertible_field note.
Proof.
  induction objs as [|obj objs IH]; intros Hobjs; [discriminate|].
  cbn [creator_from_fields].
  destruct (creator_from_keys obj creatorKeys) as [[t|]|] eqn:K; cbn [bind].
  - discriminate.
  - apply IH. intros o Ho. apply Hobjs. now right.
  - intros _. destruct (creator_from_keys_thrown _ _ K) as (k & v & G & T).
    exists obj, k, v. split; [|auto].
    destruct (Hobjs obj (or_introl eq_refl)) as [-> | ->]; auto.
Qed.

Lemma findCreatorName_thrown note :
  findCreatorName note (inner_of note) = Thrown -> unconvertible_field note.
Proof.
  assert (Hobjs : forall obj, In obj [inner_of note; note] ->
                              obj = inner_of note \/ obj = note).
  { intros obj [<- | [<- | []]]; auto. }
  unfold findCreatorName.
  destruct (creator_from_user _) as [[t|]|] eqn:U; cbn [bind].
  - discriminate.
  - destruct (creator_from_fields _) as [[t|]|] eqn:F; cbn [bind];
      try discriminate.
    intros _. exact (creator_from_fields_thrown note _ Hobjs F).
  - intros _. exact (creator_from_user_thrown note _ Hobjs U).
Qed.

Lemma buildNoteUrl_shape note inner u :
  buildNoteUrl note inner = Returned u ->
  u = EmptyString \/ startsWith "http" u = true.
Proof.
  unfold buildNoteUrl.
  destruct (direct_url _) as [val|] eqn:D.
  - intros [= <-]. right. exact (direct_url_http _ _ D).
  - destruct (truthy _ && truthy _).
    + destruct (String_of _) as [x|]; [|discriminate]. cbn [bind].
      destruct (String_of _) as [k|]; [|discriminate]. cbn [bind].
      intros [= <-]. right. reflexivity.
    + destruct (truthy _); [|intros [= <-]; now left].
      destruct (first_truthy _ _) as [| | |h| |]; try discriminate.
      intros [= <-]. right.
      destruct (startsWith "http" h) eqn:E; [exact E | reflexivity].
Qed.

(** What makes the normalizer throw. *)
Lemma extractArticleFromNote_thrown note :
  extractArticleFromNote note = Thrown ->
  is_object note = true /\ (bad_href note \/ unconvertible_field note).
Proof.
  unfold extractArticleFromNote.
  destruct (is_object note) eqn:O; cbn [negb]; [|discriminate].
  intros H. split; [reflexivity|].
  assert (Hsafe : forall keys,
             or_else_num (safeNum (inner_of note) keys) (safeNum note keys)
             = Thrown -> unconvertible_field note).
  { intros keys E. apply or_else_num_thrown in E.
    destruct E as [E | E]; apply safeNum_thrown in E;
      destruct E as (k & v & G & T); eexists _, k, v;
      (split; [|split; [exact G | exact T]]); auto. }
  destruct (title_of note (inner_of note)) as [t|] eqn:T.
  2:{ right. destruct (title_of_thrown _ _ T) as (obj & k & v & Ho & G & Tv).
      exists obj, k, v. split; [|auto]. destruct Ho as [-> | ->]; auto. }
  cbn [bind] in H.
  destruct (or_else_num (safeNum (inner_of note) likeKeys) _) as [l|] eqn:L;
    [|right; exact (Hsafe _ L)].
  cbn [bind] in H.
  destruct (or_else_num (safeNum (inner_of note) priceKeys) _) as [p|] eqn:P;
    [|right; exact (Hsafe _ P)].
  cbn [bind] in H.
  destruct (buildNoteUrl note (inner_of note)) as [u|] eqn:B;
    [|exact (buildNoteUrl_thrown _ B)].
  cbn [bind] in H.
  destruct (findCreatorName note (inner_of note)) as [c|] eqn:C;
    [discriminate|].
  right. exact (findCreatorName_thrown _ C).
Qed.

(** X3.  [extractArticleFromNote] returns null exactly on a value that is
    not a non-null object.  On an object it throws only when the item, or
    its inner view, holds under [href] a truthy value that is not a string,
    or when a field of the item, of its inner view or of the user object of
    either holds a value that cannot be converted to a string or a number
    (an object with a property named [toString]); on every other object it
    returns an article. *)
Theorem extractArticleFromNote_outcomes (note : JSON) :
  (extractArticleFromNote note = Returned None <-> is_object note = false)
  /\ (extractArticleFromNote note = Thrown ->
      is_object note = true /\ (bad_href note \/ unconvertible_field note))
  /\ (is_object note = true -> ~ bad_href note ->
      ~ unconvertible_field note ->
      exists a, extractArticleFromNote note = Returned (Some a)).
Proof.
  split; [|split].
  - unfold extractArticleFromNote.
    destruct (is_object note) eqn:O; cbn [negb]; [|tauto].
    split; [|discriminate].
    destruct (title_of _ _); [|discriminate]. cbn [bind].
    destruct (or_else_num _ _); [|discriminate]. cbn [bind].
    destruct (or_else_num _ _); [|discriminate]. cbn [bind].
    destruct (buildNoteUrl _ _); [|discriminate]. cbn [bind].
    destruct (findCreatorName _ _); discriminate.
  - apply extractArticleFromNote_thrown.
  - intros O Hb Hu.
    destruct (extractArticleFromNote note) as [[a|]|] eqn:E.
    + exists a. reflexivity.
    + exfalso. revert E. unfold extractArticleFromNote. rewrite O.
      cbn [negb].
      destruct (title_of _ _); [|discriminate]. cbn [bind].
      destruct (or_else_num _ _); [|discriminate]. cbn [bind].
      destruct (or_else_num _ _); [|discriminate]. cbn [bind].
      destruct (buildNoteUrl _ _); [|discriminate]. cbn [bind].
      destruct (findCreatorName _ _); discriminate.
    + destruct (extractArticleFromNote_thrown _ E) as [_ [H | H]];
        [now elim Hb | now elim Hu].
Qed.

Lemma extractArticleFromNote_outcomes_witness :
  is_object sample_note = true
  /\ ~ bad_href sample_note
  /\ ~ unconvertible_field sample_note
  /\ exists a, extractArticleFromNote sample_note = Returned (Some a).
Proof.
  assert (Ho : is_object sample_note = true) by reflexivity.
  assert (Hb : ~ bad_href sample_note)
    by (intros (v & [H | H] & _); vm_compute in H; discriminate).
  assert (Hu : ~ unconvertible_field sample_note).
  { intros (obj & k & v & Hobj & G & T).
    apply ToPrimitive_throws_mentions in T.
    assert (M : mentions ["toString"] obj = false).
    { destruct Hobj as [-> | [-> | [H | H]]]; try reflexivity;
        vm_compute in H; injection H as <-; reflexivity. }
    rewrite (mentions_get _ _ _ _ M G) in T. discriminate. }
  split; [exact Ho|]. split; [exact Hb|]. split; [exact Hu|].
  exact (proj2 (proj2 (extractArticleFromNote_outcomes sample_note)) Ho Hb Hu).
Defined.

(** X4.  The URL of every article the normalizer produces is empty or starts
    with [http]: a direct URL field is taken only when it does, a URL built
    from a key and a user name starts with the address of the platform, and a
    relative [href] is put behind that address. *)
Theorem normalizer_url_absolute (note : JSON) (a : Article) :
  extractArticleFromNote note = Returned (Some a) ->
  url a = EmptyString \/ startsWith "http" (url a) = true.
Proof.
  unfold extractArticleFromNote.
  destruct (negb (is_object note)); [discriminate|].
  destruct (title_of _ _); [|discriminate]. cbn [bind].
  destruct (or_else_num _ _); [|discriminate]. cbn [bind].
  destruct (or_else_num _ _); [|discriminate]. cbn [bind].
  destruct (buildNoteUrl note (inner_of note)) as [u|] eqn:B; [|discriminate].
  cbn [bind]. destruct (findCreatorName _ _); [|discriminate]. cbn [bind].
  intros [= <-]. cbn [url]. exact (buildNoteUrl_shape _ _ _ B).
Qed.

Lemma normalizer_url_absolute_witness :
  extractArticleFromNote sample_note = Returned (Some sample_article)
  /\ (url sample_article = EmptyString
      \/ startsWith "http" (url sample_article) = true).
Proof.
  split; [reflexivity|].
  apply (normalizer_url_absolute sample_note sample_article). reflexivity.
Defined.

(** ** Numbers read off the page *)

Lemma remove_separators_cons c rest :
  remove_separators (c :: rest) =
  match separator_length (c :: rest), rest with
  | 1%nat, _ => remove_separators rest
  | 2%nat, _ :: r2 => remove_separators r2
  | 3%nat, _ :: _ :: r3 => remove_separators r3
  | _, _ => c :: remove_separators rest
  end.
Proof. reflexivity. Qed.

Lemma separator_length_digit c rest :
  is_digit c = true -> separator_length (c :: rest) = 0%nat.
Proof.
  destruct c as [[] [] [] [] [] [] [] []]; intros H;
    try discriminate H; destruct rest as [|c2 [|c3 r]]; reflexivity.
Qed.

Lemma remove_separators_digits ds rest :
  forallb is_digit ds = true ->
  remove_separators (ds ++ rest) = ds ++ remove_separators rest.
Proof.
  induction ds as [|c ds IH]; [reflexivity|]. cbn [forallb app].
  intros H. apply andb_true_iff in H. destruct H as [Hc Hds].
  rewrite remove_separators_cons, separator_length_digit by exact Hc.
  now rewrite IH.
Qed.

Lemma remove_separators_separator sep rest :
  In sep group_separators ->
  remove_separators (sep ++ rest) = remove_separators rest.
Proof.
  intros [<- | [<- | [<- | []]]]; destruct rest as [|c2 [|c3 r]]; reflexivity.
Qed.

Lemma remove_separators_grouped groups tail :
  (forall g, In g groups -> In (fst g) group_separators
                            /\ forallb is_digit (snd g) = true) ->
  remove_separators (grouped groups ++ tail)
  = concat (map snd groups) ++ remove_separators tail.
Proof.
  induction groups as [|[sep ds] groups IH]; intros H; [reflexivity|].
  cbn [grouped map concat snd]. rewrite <- !app_assoc.
  destruct (H (sep, ds) (or_introl eq_refl)) as [Hs Hd]. cbn [fst snd] in *.
  rewrite remove_separators_separator by exact Hs.
  rewrite remove_separators_digits by exact Hd.
  rewrite IH; [reflexivity|]. intros g Hg. apply H. now right.
Qed.

Lemma span_digits ds rest :
  forallb is_digit ds = true ->
  match rest with [] => True | c :: _ => is_digit c = false end ->
  span is_digit (ds ++ rest) = (ds, rest).
Proof.
  intros Hds Hrest. induction ds as [|c ds IH].
  - destruct rest as [|c rest]; [reflexivity|]. cbn [app span]. now rewrite Hrest.
  - cbn [forallb] in Hds. apply andb_true_iff in Hds. destruct Hds as [Hc Hds].
    cbn [app span]. now rewrite Hc, IH.
Qed.

Lemma digits_value_acc ds :
  forallb is_digit ds = true ->
  forall acc, 0 <= acc ->
              0 <= fold_left (fun a d => 10 * a + digit_val d) ds acc.
Proof.
  induction ds as [|c ds IH]; cbn [forallb fold_left]; [auto|].
  intros H acc Hacc. apply andb_true_iff in H. destruct H as [Hc Hds].
  apply IH; [exact Hds|].
  unfold is_digit in Hc. apply andb_true_iff in Hc. destruct Hc as [Hlo _].
  apply Nat.leb_le in Hlo. unfold digit_val. lia.
Qed.

Lemma span_forallb p l : forallb p (fst (span p l)) = true.
Proof.
  induction l as [|c l IH]; [reflexivity|]. cbn [span].
  destruct (p c) eqn:E; [|reflexivity].
  destruct (span p l). cbn [fst forallb] in *. now rewrite E, IH.
Qed.

Lemma first_digits_are_digits l ds :
  first_digits l = Some ds -> forallb is_digit ds = true.
Proof.
  unfold first_digits.
  pose proof (span_forallb is_digit
                (drop_while (fun c => negb (is_digit c)) l)) as H.
  destruct (span is_digit _) as [[|d r] t]; [discriminate|].
  now intros [= <-].
Qed.

Lemma parseInt_digits_exact ds :
  forallb is_digit ds = true -> digits_value ds < 2 ^ 53 ->
  parseInt_digits ds = of_Z (digits_value ds).
Proof.
  intros Hds Hlt.
  pose proof (digits_value_acc ds Hds 0 (Z.le_refl 0)) as Hpos.
  fold (digits_value ds) in Hpos.
  unfold parseInt_digits, double_of_N.
  assert (E : (Z.to_N (digits_value ds) <? 2 ^ 53)%N = true).
  { apply N.ltb_lt. change (2 ^ 53)%N with (Z.to_N (2 ^ 53)).
    apply Z2N.inj_lt; [exact Hpos | discriminate | exact Hlt]. }
  rewrite E. unfold of_Z. now rewrite Z2N.id.
Qed.

(** X5.  [extractNumber] reads a count off a text: it always answers a
    non-negative integer (0 for a text without a digit) or, for a run of
    digits beyond the range of binary64, the positive infinity.  In a number
    written in groups of digits held apart by commas, ideographic commas or
    spaces, it reads all the groups as one number: the Number value of the
    digits put together, which is their exact value below 2^53. *)
Theorem extractNumber_reads_counts (text : string) :
  (nonneg_integer (extractNumber text) = true
   \/ extractNumber text = Infinity false)
  /\ (forall d0 groups tail,
         d0 <> [] -> forallb is_digit d0 = true ->
         (forall g, In g groups -> In (fst g) group_separators
                                   /\ forallb is_digit (snd g) = true) ->
         no_digit_follows tail ->
         extractNumber (string_of_list_ascii (d0 ++ grouped groups ++ tail))
         = parseInt_digits (d0 ++ concat (map snd groups))
         /\ (digits_value (d0 ++ concat (map snd groups)) < 2 ^ 53 ->
             extractNumber
               (string_of_list_ascii (d0 ++ grouped groups ++ tail))
             = of_Z (digits_value (d0 ++ concat (map snd groups))))).
Proof.
  split.
  - unfold extractNumber. destruct (String.eqb text EmptyString); [now left|].
    destruct (first_digits _) as [ds|] eqn:F; [|now left].
    apply double_of_N_cases.
  - intros d0 groups tail Hne Hd0 Hg Htail.
    assert (Hall : forallb is_digit (d0 ++ concat (map snd groups)) = true).
    { rewrite forallb_app, Hd0. cbn [andb]. apply forallb_forall.
      intros x Hx. apply in_concat in Hx. destruct Hx as (l & Hl & Hx).
      apply in_map_iff in Hl. destruct Hl as (g & <- & Hgin).
      destruct (Hg g Hgin) as [_ Hd].
      exact (proj1 (forallb_forall _ _) Hd x Hx). }
    assert (E : extractNumber
                  (string_of_list_ascii (d0 ++ grouped groups ++ tail))
                = parseInt_digits (d0 ++ concat (map snd groups))).
    { unfold extractNumber.
      destruct d0 as [|c d0]; [now elim Hne|].
      cbn [app string_of_list_ascii String.eqb].
      change (String c (string_of_list_ascii (d0 ++ grouped groups ++ tail)))
        with (string_of_list_ascii ((c :: d0) ++ grouped groups ++ tail)).
      rewrite list_ascii_of_string_of_list_ascii.
      rewrite remove_separators_digits by exact Hd0.
      rewrite remove_separators_grouped by exact Hg.
      rewrite app_assoc. unfold first_digits.
      cbn [forallb] in Hd0. apply andb_true_iff in Hd0.
      destruct Hd0 as [Hc _].
      cbn [app drop_while]. rewrite Hc. cbn [negb].
      change (c :: (d0 ++ concat (map snd groups)) ++ remove_separators tail)
        with (((c :: d0) ++ concat (map snd groups))
                ++ remove_separators tail).
      rewrite span_digits; [reflexivity | exact Hall | exact Htail]. }
    split; [exact E|]. intros Hlt. rewrite E.
    now apply parseInt_digits_exact.
Qed.

Lemma extractNumber_reads_counts_witness :
  extractNumber "1,234 567件" = of_Z 1234567.
Proof.
  refine (proj2 (proj2 (extractNumber_reads_counts EmptyString)
            (list_ascii_of_string "1")
            [ (list_ascii_of_string ",", list_ascii_of_string "234");
              (list_ascii_of_string " ", list_ascii_of_string "567") ]
            (list_ascii_of_string "件") _ eq_refl _ _) _).
  - discriminate.
  - intros g [<- | [<- | []]]; split; try reflexivity.
    + now left.
    + right. right. now left.
  - reflexivity.
  - reflexivity.
Defined.

(** The count of a text beyond the range of binary64: 2^53 + 1 is read as
    2^53, and a run of 310 digits as the positive infinity. *)
Example extractNumber_binary64 :
  extractNumber "9007199254740993" = of_Z 9007199254740992
  /\ extractNumber (string_of_list_ascii (repeat "9"%char 310))
     = Infinity false
  /\ nonneg_integer (Infinity false) = false.
Proof. repeat split; vm_compute; reflexivity. Qed.

(** ** Addresses built by the normalizer, read by the other components *)

Lemma list_ascii_of_string_app a b :
  list_ascii_of_string (a ++ b)
  = list_ascii_of_string a ++ list_ascii_of_string b.
Proof. induction a as [|c a IH]; simpl; [reflexivity | now rewrite IH]. Qed.

Lemma includes_forallb c s :
  includes c s = false ->
  forallb (fun x => negb (Ascii.eqb x c)) (list_ascii_of_string s) = true.
Proof.
  induction s as [|x s IH]; cbn [includes list_ascii_of_string forallb];
    [reflexivity|].
  intros H. apply orb_false_iff in H. destruct H as [Hx Hs].
  rewrite (Ascii.eqb_sym x c), Hx. cbn [negb andb]. now apply IH.
Qed.

Lemma span_until (p : ascii -> bool) l c rest :
  forallb p l = true -> p c = false -> span p (l ++ c :: rest) = (l, c :: rest).
Proof.
  intros Hl Hc. induction l as [|x l IH]; cbn [app span].
  - now rewrite Hc.
  - cbn [forallb] in Hl. apply andb_true_iff in Hl. destruct Hl as [Hx Hl].
    now rewrite Hx, IH.
Qed.

Lemma match_creator_at_name name rest :
  name <> [] -> forallb not_slash name = true ->
  match_creator (list_ascii_of_string "https://note.com/"
                   ++ name ++ "/"%char :: rest)
  = Some name.
Proof.
  intros Hne Hname.
  change (match_creator (list_ascii_of_string "https://note.com/"
                           ++ name ++ "/"%char :: rest))
    with (match span not_slash (name ++ "/"%char :: rest) with
          | (k :: ks, "/"%char :: _) => Some (k :: ks)
          | _ => match_creator
                   (list_ascii_of_string "ote.com/" ++ name ++ "/"%char :: rest)
          end).
  rewrite span_until by (exact Hname || reflexivity).
  destruct name; [now elim Hne | reflexivity].
Qed.

(** X6.  The creator that [extractCreatorFromUrl] reads off an address of
    the shape the normalizer builds, the address of the platform followed by
    the user name, a slash and the rest, is that user name, whenever the
    name is not empty and holds no slash; so it is for the address
    [buildNoteUrl] builds from a key and a user name. *)
Theorem extractCreatorFromUrl_of_built_url (name rest key : string) :
  name <> EmptyString -> includes "/" name = false ->
  extractCreatorFromUrl ("https://note.com/" ++ name ++ "/" ++ rest) = name
  /\ (key <> EmptyString ->
      exists u, buildNoteUrl (keyed_note key name) (keyed_note key name)
                = Returned u
                /\ extractCreatorFromUrl u = name).
Proof.
  intros Hne Hslash.
  assert (H : forall r,
            extractCreatorFromUrl ("https://note.com/" ++ name ++ "/" ++ r)
            = name).
  { intros r. unfold extractCreatorFromUrl.
    rewrite !list_ascii_of_string_app. cbn [list_ascii_of_string app].
    change ("h"%char :: "t"%char :: "t"%char :: "p"%char :: "s"%char
            :: ":"%char :: "/"%char :: "/"%char :: "n"%char :: "o"%char
            :: "t"%char :: "e"%char :: "."%char :: "c"%char :: "o"%char
            :: "m"%char :: "/"%char
            :: list_ascii_of_string name ++ "/"%char :: list_ascii_of_string r)
      with (list_ascii_of_string "https://note.com/"
              ++ list_ascii_of_string name
              ++ "/"%char :: list_ascii_of_string r).
    rewrite match_creator_at_name.
    - apply string_of_list_ascii_of_string.
    - destruct name; [now elim Hne | discriminate].
    - unfold not_slash. now apply includes_forallb. }
  split; [apply H|].
  intros Hkey. exists ("https://note.com/" ++ name ++ "/n/" ++ key)%string.
  split; [|apply (H ("n/" ++ key)%string)].
  unfold buildNoteUrl, keyed_note. cbn.
  destruct key as [|k key]; [now elim Hkey|].
  destruct name as [|c name]; [now elim Hne | reflexivity].
Qed.

Lemma extractCreatorFromUrl_of_built_url_witness :
  extractCreatorFromUrl "https://note.com/testuser/n/n1234" = "testuser".
Proof.
  refine (proj1 (extractCreatorFromUrl_of_built_url "testuser" "n/n1234"
                   "n1234" _ eq_refl)).
  discriminate.
Defined.

Lemma match_note_key_cons c rest :
  match_note_key (c :: rest) =
  match key_start (c :: rest) with
  | Some tail =>
      match span is_alnum tail with
      | (k :: ks, _) => Some (k :: ks)
      | ([], _) => match_note_key rest
      end
  | None => match_note_key rest
  end.
Proof.
  destruct rest as [|c2 [|c3 tail]];
    [ destruct c as [[] [] [] [] [] [] [] []]; reflexivity
    | destruct c as [[] [] [] [] [] [] [] []]; try reflexivity;
      destruct c2 as [[] [] [] [] [] [] [] []]; reflexivity
    | ].
  destruct c as [[] [] [] [] [] [] [] []]; try reflexivity.
  destruct c2 as [[] [] [] [] [] [] [] []]; try reflexivity.
  destruct c3 as [[] [] [] [] [] [] [] []]; reflexivity.
Qed.

Lemma key_start_not_slash c rest :
  not_slash c = true -> key_start (c :: rest) = None.
Proof.
  unfold not_slash. intros H. apply negb_true_iff in H.
  destruct rest as [|c2 [|c3 tail]]; cbn [key_start]; try reflexivity.
  now rewrite H.
Qed.

Lemma match_note_key_skip name rest :
  forallb not_slash name = true ->
  match_note_key (name ++ rest) = match_note_key rest.
Proof.
  induction name as [|c name IH]; [reflexivity|]. cbn [forallb app].
  intros H. apply andb_true_iff in H. destruct H as [Hc Hname].
  rewrite match_note_key_cons, key_start_not_slash by exact Hc.
  now apply IH.
Qed.

Lemma key_start_before_name name rest :
  forallb not_slash name = true -> name <> ["n"%char] ->
  key_start ("/"%char :: name ++ "/"%char :: "n"%char :: "/"%char :: rest)
  = None.
Proof.
  intros Hname Hn. destruct name as [|c [|c' name]]; [reflexivity | |].
  - cbn [app key_start]. destruct (Ascii.eqb c "n") eqn:E; [|reflexivity].
    apply Ascii.eqb_eq in E. subst c. now elim Hn.
  - cbn [forallb] in Hname. apply andb_true_iff in Hname.
    destruct Hname as [_ Hname]. apply andb_true_iff in Hname.
    destruct Hname as [Hc' _]. unfold not_slash in Hc'.
    apply negb_true_iff in Hc'. cbn [app key_start]. rewrite Hc'.
    now rewrite andb_false_r.
Qed.

Lemma match_note_key_built name key tail :
  forallb not_slash name = true -> name <> ["n"%char] ->
  key <> [] -> forallb is_alnum key = true ->
  match tail with [] => True | c :: _ => is_alnum c = false end ->
  match_note_key
    (list_ascii_of_string "https://note.com/"
       ++ name ++ list_ascii_of_string "/n/" ++ key ++ tail)
  = Some key.
Proof.
  intros Hname Hn Hkey Halnum Htail.
  change (match_note_key
            (list_ascii_of_string "https://note.com/"
               ++ name ++ list_ascii_of_string "/n/" ++ key ++ tail))
    with (match_note_key
            ("/"%char :: name ++ "/"%char :: "n"%char :: "/"%char
                      :: key ++ tail)).
  rewrite match_note_key_cons, key_start_before_name by assumption.
  rewrite match_note_key_skip by exact Hname.
  rewrite match_note_key_cons. cbn [key_start Ascii.eqb Bool.eqb andb].
  assert (Hspan : span is_alnum (key ++ tail) = (key, tail)).
  { clear Hkey. induction key as [|c key IH].
    - destruct tail as [|c tail]; [reflexivity|]. cbn [app span].
      now rewrite Htail.
    - cbn [forallb] in Halnum. apply andb_true_iff in Halnum.
      destruct Halnum as [Hc Hk]. cbn [app span]. now rewrite Hc, IH. }
  rewrite Hspan. destruct key; [now elim Hkey | reflexivity].
Qed.

Lemma fetchLikeRating_first_request net articleUrl key mc :
  articleUrl <> EmptyString ->
  match_note_key (list_ascii_of_string articleUrl)
  = Some (list_ascii_of_string key) ->
  exists l,
    requests (snd (fetchLikeRating net articleUrl mc))
    = requests mc ++ detail_api key :: l.
Proof.
  intros Hne Hkey. unfold fetchLikeRating. rewrite Hkey.
  destruct (String.eqb_spec articleUrl EmptyString) as [E|_]; [now elim Hne|].
  rewrite string_of_list_ascii_of_string. unfold fetch. cbn [requests].
  fold (detail_api key).
  destruct (api_stage _); cbn [snd requests];
    [exists [] | | exists []]; try reflexivity.
  exists [articleUrl]. now rewrite <- app_assoc.
Qed.

(** X7.  The rating of an item is asked for under the item's own key.  For
    the address [buildNoteUrl] builds from a key made of letters and digits
    and a user name without a slash, other than the one-letter name [n],
    [fetchLikeRating] sends its first request to the detail API of exactly
    that key. *)
Theorem fetchLikeRating_asks_for_the_key
        (net : nat -> string -> option Response) (mc : Machine)
        (name key : string) :
  includes "/" name = false -> name <> "n" -> name <> EmptyString ->
  key <> EmptyString -> all_chars is_alnum key = true ->
  exists u l,
    buildNoteUrl (keyed_note key name) (keyed_note key name) = Returned u
    /\ u = ("https://note.com/" ++ name ++ "/n/" ++ key)%string
    /\ requests (snd (fetchLikeRating net u mc))
       = requests mc ++ detail_api key :: l.
Proof.
  intros Hslash Hn Hne Hkey Halnum.
  assert (Hbuilt : buildNoteUrl (keyed_note key name) (keyed_note key name)
                   = Returned ("https://note.com/" ++ name ++ "/n/" ++ key)%string).
  { unfold buildNoteUrl, keyed_note. cbn.
    destruct key as [|k key]; [now elim Hkey|].
    destruct name as [|c name]; [now elim Hne | reflexivity]. }
  destruct (fetchLikeRating_first_request net
              ("https://note.com/" ++ name ++ "/n/" ++ key)%string key mc)
    as [l Hl].
  - discriminate.
  - rewrite !list_ascii_of_string_app.
    rewrite <- (app_nil_r (list_ascii_of_string key)) at 1.
    apply match_note_key_built.
    + unfold not_slash. now apply includes_forallb.
    + intros E. apply Hn. rewrite <- (string_of_list_ascii_of_string name), E.
      reflexivity.
    + destruct key; [now elim Hkey | discriminate].
    + now rewrite forallb_list_ascii.
    + exact I.
  - eexists _, l. split; [exact Hbuilt|]. split; [reflexivity | exact Hl].
Qed.

Lemma fetchLikeRating_asks_for_the_key_witness :
  exists u l,
    buildNoteUrl (keyed_note "n12345" "user") (keyed_note "n12345" "user")
    = Returned u
    /\ u = "https://note.com/user/n/n12345"
    /\ requests (snd (fetchLikeRating engagement_only_net u fresh_machine))
       = requests fresh_machine ++ detail_api "n12345" :: l.
Proof.
  refine (fetchLikeRating_asks_for_the_key engagement_only_net fresh_machine
            "user" "n12345" eq_refl _ _ _ eq_refl); discriminate.
Defined.

(** An address the pattern of [fetchLikeRating] misreads: for the user whose
    name is the letter [n], the key it finds is the user name. *)
Example fetchLikeRating_user_named_n :
  match_note_key (list_ascii_of_string "https://note.com/n/n/n12345")
  = Some (list_ascii_of_string "n").
Proof. reflexivity. Qed.

(** ** The rating enricher: its requests, and the whole list *)

(** X8.  [fetchLikeRating] touches nothing but the network, and makes at
    most two requests.  When the request to the detail API fails at the
    level of the network (it rejects, or its body is not JSON) the page of
    the article is not asked for and the rating is 0; when the detail API
    answers with a failure status the page is asked for all the same, and
    decides the rating. *)
Theorem fetchLikeRating_requests
        (net : nat -> string -> option Response) (articleUrl : string)
        (mc : Machine) :
  scrapingState (snd (fetchLikeRating net articleUrl mc)) = scrapingState mc
  /\ scans (snd (fetchLikeRating net articleUrl mc)) = scans mc
  /\ (exists l, requests (snd (fetchLikeRating net articleUrl mc))
                = requests mc ++ l /\ (length l <= 2)%nat)
  /\ (forall key,
         articleUrl <> EmptyString ->
         match_note_key (list_ascii_of_string articleUrl) = Some key ->
         let api := detail_api (string_of_list_ascii key) in
         let answer := net (length (requests mc)) api in
         (answer = None
          \/ (exists res, answer = Some res /\ ok res = true
                          /\ json res = None) ->
          fst (fetchLikeRating net articleUrl mc) = zero
          /\ requests (snd (fetchLikeRating net articleUrl mc))
             = requests mc ++ [api])
         /\ (forall res,
                answer = Some res -> ok res = false ->
                fst (fetchLikeRating net articleUrl mc)
                = html_stage (net (S (length (requests mc))) articleUrl)
                /\ requests (snd (fetchLikeRating net articleUrl mc))
                   = requests mc ++ [api; articleUrl])).
Proof.
  unfold fetchLikeRating.
  destruct (String.eqb_spec articleUrl EmptyString) as [E | Hne].
  { split; [reflexivity|]. split; [reflexivity|].
    split; [exists []; split; [now rewrite app_nil_r | cbn; lia]|].
    intros key H. now elim H. }
  destruct (match_note_key _) as [noteKey|].
  2:{ split; [reflexivity|]. split; [reflexivity|].
      split; [exists []; split; [now rewrite app_nil_r | cbn; lia]|].
      intros key _ H. discriminate H. }
  unfold fetch. cbn [requests]. fold (detail_api (string_of_list_ascii noteKey)).
  set (api := detail_api (string_of_list_ascii noteKey)).
  split; [now destruct (api_stage _)|]. split; [now destruct (api_stage _)|].
  split.
  { destruct (api_stage _); cbn [snd requests];
      [exists [api] | exists [api; articleUrl] | exists [api]];
      try (split; [reflexivity | cbn; lia]).
    split; [now rewrite <- app_assoc | cbn; lia]. }
  intros key _ [= <-]. cbv zeta. fold api. split.
  - intros [N | (res & N & Hok & Hj)]; rewrite N; unfold api_stage;
      [|rewrite Hok, Hj]; split; reflexivity.
  - intros res N Hok. rewrite N. unfold api_stage. rewrite Hok.
    cbn [fst snd requests]. rewrite length_app, <- app_assoc. cbn [length app].
    now rewrite Nat.add_1_r.
Qed.

Lemma fetchLikeRating_requests_witness :
  article_url <> EmptyString
  /\ match_note_key (list_ascii_of_string article_url)
     = Some (list_ascii_of_string "n12345")
  /\ fst (fetchLikeRating (fun _ _ => None) article_url fresh_machine) = zero
  /\ requests (snd (fetchLikeRating (fun _ _ => None) article_url
                                    fresh_machine))
     = [detail_api "n12345"].
Proof.
  assert (Hne : article_url <> EmptyString) by discriminate.
  assert (Hk : match_note_key (list_ascii_of_string article_url)
               = Some (list_ascii_of_string "n12345")) by reflexivity.
  split; [exact Hne|]. split; [exact Hk|].
  destruct (fetchLikeRating_requests (fun _ _ => None) article_url
              fresh_machine) as (_ & _ & _ & H).
  destruct (H _ Hne Hk) as [Hfail _].
  exact (Hfail (or_introl eq_refl)).
Defined.

Lemma fetchLikeRating_rating_ok net articleUrl mc :
  isNaN (fst (fetchLikeRating net articleUrl mc)) = false
  /\ lt0 (fst (fetchLikeRating net articleUrl mc)) = false.
Proof.
  destruct (fetchLikeRating_cases net articleUrl mc) as [I | [I | [G _]]];
    [exact (nonneg_integer_sound _ I) | now rewrite I
     | exact (gt0_sound _ G)].
Qed.

Lemma fetchLikeRating_effects net articleUrl mc :
  scrapingState (snd (fetchLikeRating net articleUrl mc)) = scrapingState mc
  /\ scans (snd (fetchLikeRating net articleUrl mc)) = scans mc
  /\ exists l, requests (snd (fetchLikeRating net articleUrl mc))
               = requests mc ++ l /\ (length l <= 2)%nat.
Proof.
  unfold fetchLikeRating.
  assert (Hnone : scrapingState mc = scrapingState mc
                  /\ scans mc = scans mc
                  /\ exists l, requests mc = requests mc ++ l
                               /\ (length l <= 2)%nat).
  { split; [reflexivity|]. split; [reflexivity|].
    exists []. split; [now rewrite app_nil_r | cbn; lia]. }
  destruct (String.eqb articleUrl EmptyString); [exact Hnone|].
  destruct (match_note_key _) as [noteKey|]; [|exact Hnone].
  unfold fetch. cbn [requests].
  destruct (api_stage _); cbn [snd requests scrapingState scans];
    (split; [reflexivity|]); (split; [reflexivity|]).
  - eexists [_]. split; [reflexivity | cbn; lia].
  - eexists [_; _]. split; [now rewrite <- app_assoc | cbn; lia].
  - eexists [_]. split; [reflexivity | cbn; lia].
Qed.

Lemma fetchAllLikeRatings_loop_spec net total :
  forall todo i mc,
    let out := fetchAllLikeRatings_loop net total i todo mc in
    map without_rating (fst out) = map without_rating todo
    /\ Forall rated_ok (fst out)
    /\ scans (snd out) = scans mc
    /\ same_session (scrapingState mc) (scrapingState (snd out))
    /\ (exists l, requests (snd out) = requests mc ++ l
                  /\ (length l <= 2 * length todo)%nat)
    /\ (todo = [] -> snd out = mc)
    /\ (todo <> [] ->
        current (scrapingState (snd out)) = Z.of_nat (i + length todo)
        /\ message (scrapingState (snd out))
           = rating_progress (i + length todo) total).
Proof.
  induction todo as [|article todo IH]; intros i mc; cbv zeta.
  - cbn [fetchAllLikeRatings_loop fst snd map length].
    split; [reflexivity|]. split; [constructor|]. split; [reflexivity|].
    split; [repeat split|].
    split; [exists []; split; [now rewrite app_nil_r | cbn; lia]|].
    split; [reflexivity|]. intros H. now elim H.
  - cbn [fetchAllLikeRatings_loop].
    destruct (fetchLikeRating_rating_ok net (url article) mc) as [Hn Hl].
    destruct (fetchLikeRating_effects net (url article) mc)
      as (Hst & Hsc & l1 & Hreq & Hlen).
    destruct (fetchLikeRating net (url article) mc) as [rating mc1].
    cbn [fst snd] in *.
    set (mc2 := set_state _ mc1).
    specialize (IH (S i) mc2). cbv zeta in IH.
    destruct (fetchAllLikeRatings_loop net total (S i) todo mc2)
      as [results mc3].
    cbn [fst snd] in *.
    destruct IH as (Hmap & Hok & Hsc3 & (S1 & S2 & S3) & (l2 & Hreq3 & Hlen3)
                    & Hnil & Hcur).
    split; [cbn [map]; now rewrite Hmap|].
    split; [constructor; [exists rating; auto | exact Hok]|].
    split; [rewrite Hsc3; subst mc2; cbn; exact Hsc|].
    split.
    { subst mc2. cbn in S1, S2, S3. rewrite Hst in S1, S2, S3.
      repeat split; assumption. }
    split.
    { exists (l1 ++ l2). split.
      - rewrite Hreq3. subst mc2. cbn [set_state requests].
        now rewrite Hreq, app_assoc.
      - rewrite length_app. cbn [length]. lia. }
    split; [discriminate|].
    intros _. destruct todo as [|b todo].
    + rewrite (Hnil eq_refl). cbn [length].
      replace (i + 1)%nat with (S i) by lia.
      subst mc2. split; reflexivity.
    + destruct Hcur as [Hc Hm]; [discriminate|].
      cbn [length] in *.
      replace (i + S (S (length todo)))%nat
        with (S i + S (length todo))%nat by lia.
      split; assumption.
Qed.

(** X9.  [fetchAllLikeRatings] returns the articles it was given, in their
    order and with every other field as it was, each with a rating that is a
    number, neither NaN nor negative.  It makes at most two requests for
    each article, scans nothing, leaves the status, the target and the
    articles of the session alone, and ends with the progress counter at the
    number of articles; on an empty list it does nothing at all. *)
Theorem fetchAllLikeRatings_contract
        (net : nat -> string -> option Response) (articles : list Article)
        (mc : Machine) :
  map without_rating (fst (fetchAllLikeRatings net articles mc))
  = map without_rating articles
  /\ length (fst (fetchAllLikeRatings net articles mc)) = length articles
  /\ Forall rated_ok (fst (fetchAllLikeRatings net articles mc))
  /\ scans (snd (fetchAllLikeRatings net articles mc)) = scans mc
  /\ same_session (scrapingState mc)
                  (scrapingState (snd (fetchAllLikeRatings net articles mc)))
  /\ (exists l,
         requests (snd (fetchAllLikeRatings net articles mc))
         = requests mc ++ l
         /\ (length l <= 2 * length articles)%nat)
  /\ (articles = [] -> snd (fetchAllLikeRatings net articles mc) = mc)
  /\ (articles <> [] ->
      current (scrapingState (snd (fetchAllLikeRatings net articles mc)))
      = Z.of_nat (length articles)).
Proof.
  unfold fetchAllLikeRatings.
  pose proof (fetchAllLikeRatings_loop_spec net (length articles) articles 0 mc)
    as H. cbv zeta in H.
  destruct H as (Hmap & Hok & Hsc & Hs & Hreq & Hnil & Hcur).
  split; [exact Hmap|]. split.
  { rewrite <- (length_map without_rating), Hmap. apply length_map. }
  split; [exact Hok|]. split; [exact Hsc|]. split; [exact Hs|].
  split; [exact Hreq|]. split; [exact Hnil|].
  intros Hne. exact (proj1 (Hcur Hne)).
Qed.

Lemma fetchAllLikeRatings_contract_witness :
  [sample_article; second_article] <> []
  /\ current (scrapingState
                (snd (fetchAllLikeRatings engagement_only_net
                        [sample_article; second_article] fresh_machine)))
     = 2.
Proof.
  split; [discriminate|].
  apply (fetchAllLikeRatings_contract engagement_only_net
           [sample_article; second_article] fresh_machine).
  discriminate.
Defined.

(** ** The harvesters and the session state *)

Lemma fetchFromAPI_loop_effects net params target :
  forall fuel acc start mc res mc',
    fetchFromAPI_loop net fuel params target acc start mc = Some (res, mc') ->
    (length acc <= Z.to_nat target)%nat ->
    (acc <> [] -> current (scrapingState mc) = Z.of_nat (length acc)) ->
    same_session (scrapingState mc) (scrapingState mc')
    /\ message (scrapingState mc') = message (scrapingState mc)
    /\ scans mc' = scans mc
    /\ (exists l, requests mc' = requests mc ++ l)
    /\ (forall arts, res = Some arts ->
                     arts <> []
                     /\ (length arts <= Z.to_nat target)%nat
                     /\ current (scrapingState mc') = Z.of_nat (length arts)).
Proof.
  assert (Hexit : forall acc (mc : Machine) arts,
            (length acc <= Z.to_nat target)%nat ->
            (acc <> [] -> current (scrapingState mc) = Z.of_nat (length acc)) ->
            nonempty_or_null acc = Some arts ->
            arts <> [] /\ (length arts <= Z.to_nat target)%nat
            /\ current (scrapingState mc) = Z.of_nat (length arts)).
  { intros acc mc arts Hlen Hcur E. apply nonempty_or_null_some in E.
    destruct E as [-> Hne]. auto. }
  induction fuel as [|fuel IH]; intros acc start mc res mc' Hrun Hlen Hcur;
    [discriminate|].
  cbn [fetchFromAPI_loop] in Hrun.
  destruct (Z.of_nat (length acc) <? target) eqn:C.
  2:{ injection Hrun as <- <-.
      split; [repeat split|]. split; [reflexivity|]. split; [reflexivity|].
      split; [exists []; now rewrite app_nil_r|].
      intros arts E. exact (Hexit acc mc arts Hlen Hcur E). }
  unfold fetch in Hrun. cbn [requests] in Hrun.
  set (mc1 := {| scrapingState := scrapingState mc;
                 requests := requests mc ++ [apiUrl params start];
                 scans := scans mc |}) in *.
  assert (Hfail : same_session (scrapingState mc) (scrapingState mc1)
                  /\ message (scrapingState mc1) = message (scrapingState mc)
                  /\ scans mc1 = scans mc
                  /\ (exists l, requests mc1 = requests mc ++ l)
                  /\ (forall arts : list Article, None = Some arts ->
                        arts <> []
                        /\ (length arts <= Z.to_nat target)%nat
                        /\ current (scrapingState mc1)
                           = Z.of_nat (length arts))).
  { split; [repeat split|]. split; [reflexivity|]. split; [reflexivity|].
    split; [eexists; reflexivity | discriminate]. }
  destruct (net (length (requests mc)) (apiUrl params start)) as [r|];
    [|injection Hrun as <- <-; exact Hfail].
  destruct (negb (ok r)); [injection Hrun as <- <-; exact Hfail|].
  destruct (json r) as [data|]; [|injection Hrun as <- <-; exact Hfail].
  destruct (extractNotesFromApiResponse data) as [|a parsed].
  { injection Hrun as <- <-.
    split; [repeat split|]. split; [reflexivity|]. split; [reflexivity|].
    split; [eexists; reflexivity|].
    intros arts E. exact (Hexit acc mc1 arts Hlen Hcur E). }
  set (acc' := push_upto target acc (a :: parsed)) in *.
  assert (Hacc' : acc' = firstn (Z.to_nat target) (acc ++ a :: parsed))
    by (apply push_upto_firstn; exact Hlen).
  apply IH in Hrun.
  - destruct Hrun as ((S1 & S2 & S3) & Hm & Hsc & (l & Hreq) & Hres).
    cbn in S1, S2, S3, Hm, Hsc, Hreq.
    split; [repeat split; assumption|]. split; [exact Hm|].
    split; [exact Hsc|]. split; [|exact Hres].
    exists ([apiUrl params start] ++ l). now rewrite app_assoc.
  - rewrite Hacc'. apply firstn_le_length.
  - intros _. reflexivity.
Qed.

Lemma fetchFromAPI_run
        (net : nat -> string -> option Response) (loc : Location)
        (fuel : nat) (target : Z) (mc : Machine) :
  (Z.to_nat target < fuel)%nat ->
  exists res mc',
    fetchFromAPI net loc fuel target mc = Some (res, mc')
    /\ same_session (scrapingState mc) (scrapingState mc')
    /\ message (scrapingState mc') = message (scrapingState mc)
    /\ scans mc' = scans mc
    /\ (exists l, requests mc' = requests mc ++ l)
    /\ (forall arts, res = Some arts ->
                     arts <> []
                     /\ (length arts <= Z.to_nat target)%nat
                     /\ current (scrapingState mc') = Z.of_nat (length arts)).
Proof.
  intros Hfuel. unfold fetchFromAPI.
  destruct (String.eqb (q (getSearchParams loc)) EmptyString).
  { exists None, mc. split; [reflexivity|]. split; [repeat split|].
    split; [reflexivity|]. split; [reflexivity|].
    split; [exists []; now rewrite app_nil_r | discriminate]. }
  destruct (fetchFromAPI_loop_outcome net (getSearchParams loc) target fuel
              [] 0 mc) as (res & mc' & n & Hrun & _);
    [cbn; lia | cbn [length]; lia |].
  exists res, mc'. split; [exact Hrun|].
  apply (fetchFromAPI_loop_effects _ _ _ _ _ _ _ _ _ Hrun); [cbn; lia|].
  intros H. now elim H.
Qed.

(** X10.  With fuel beyond the target [fetchFromAPI] returns, and all it
    does to the machine is to add its requests to the log and to report
    progress: the status, the target, the articles and the message of the
    session are as they were and nothing is scanned.  When it returns
    articles, the progress counter is their number. *)
Theorem fetchFromAPI_reports_progress
        (net : nat -> string -> option Response) (loc : Location)
        (fuel : nat) (target : Z) (mc : Machine) :
  (Z.to_nat target < fuel)%nat ->
  exists res mc',
    fetchFromAPI net loc fuel target mc = Some (res, mc')
    /\ same_session (scrapingState mc) (scrapingState mc')
    /\ message (scrapingState mc') = message (scrapingState mc)
    /\ scans mc' = scans mc
    /\ (exists l, requests mc' = requests mc ++ l)
    /\ (forall arts, res = Some arts ->
                     arts <> []
                     /\ (length arts <= Z.to_nat target)%nat
                     /\ current (scrapingState mc') = Z.of_nat (length arts)).
Proof. exact (fetchFromAPI_run net loc fuel target mc). Qed.

Lemma fetchFromAPI_reports_progress_witness :
  (Z.to_nat 5 < 6)%nat
  /\ exists res mc',
      fetchFromAPI two_note_net search_location 6 5 fresh_machine
      = Some (res, mc')
      /\ scans mc' = scans fresh_machine.
Proof.
  assert (H : (Z.to_nat 5 < 6)%nat) by (simpl; lia).
  split; [exact H|].
  destruct (fetchFromAPI_reports_progress two_note_net search_location 6 5
              fresh_machine H) as (res & mc' & Hrun & _ & _ & Hsc & _).
  exists res, mc'. split; assumption.
Defined.

Lemma autoScroll_loop_effects dom target :
  forall fuel last r mc mc',
    autoScroll_loop dom fuel target last r mc = Some mc' ->
    requests mc' = requests mc
    /\ status (scrapingState mc') = status (scrapingState mc)
    /\ targetCount (scrapingState mc') = targetCount (scrapingState mc)
    /\ message (scrapingState mc') = message (scrapingState mc).
Proof.
  induction fuel as [|fuel IH]; intros last r mc mc' Hrun; [discriminate|].
  destruct (Status_eqb (status (scrapingState mc)) Scraping) eqn:E.
  2:{ cbn [autoScroll_loop] in Hrun. rewrite E in Hrun.
      injection Hrun as <-. auto. }
  assert (Hst : status (scrapingState mc) = Scraping)
    by (destruct (status (scrapingState mc)); try discriminate; reflexivity).
  rewrite autoScroll_loop_step in Hrun by exact Hst. cbv zeta in Hrun.
  destruct (Z.of_nat (length (dom (scans mc))) >=? target);
    [injection Hrun as <-; cbn; auto|].
  destruct (length (dom (scans mc)) =? last)%nat.
  - destruct (MAX_RETRIES <=? S r)%nat; [injection Hrun as <-; cbn; auto|].
    apply IH in Hrun. cbn in Hrun. exact Hrun.
  - apply IH in Hrun. cbn in Hrun. exact Hrun.
Qed.

(** ** API harvester: the guard on the query text *)

(** C10.  When the address of the page carries no [q] parameter, or an empty
    one, [fetchFromAPI] returns null at once: the machine, and with it the
    log of requests, is left as it was, whatever the target.  The harvest of
    the run is then that of the scroll collector, on a search page as on a
    hashtag page, and it ends with no request made. *)
Theorem fetchFromAPI_without_query
        (net : nat -> string -> option Response) (dom : nat -> list Article)
        (loc : Location) (fuel : nat) (target : Z) (mc : Machine) :
  searchParams_get "q" (searchParams loc) = None
  \/ searchParams_get "q" (searchParams loc) = Some EmptyString ->
  fetchFromAPI net loc fuel target mc = Some (None, mc)
  /\ harvest net dom loc fuel target mc
     = match autoScrollAndCollect dom fuel target mc with
       | Some mc2 => Some (articles (scrapingState mc2), mc2)
       | None => None
       end
  /\ (forall found mc1,
         harvest net dom loc fuel target mc = Some (found, mc1) ->
         requests mc1 = requests mc).
Proof.
  intros H.
  assert (Hapi : fetchFromAPI net loc fuel target mc = Some (None, mc)).
  { unfold fetchFromAPI, getSearchParams. cbn [q]. unfold param_or.
    destruct H as [-> | ->]; reflexivity. }
  assert (Hharvest : harvest net dom loc fuel target mc
                     = match autoScrollAndCollect dom fuel target mc with
                       | Some mc2 => Some (articles (scrapingState mc2), mc2)
                       | None => None
                       end).
  { unfold harvest. rewrite Hapi.
    now destruct (String.eqb (getPageType loc) "hashtag"). }
  split; [exact Hapi|]. split; [exact Hharvest|].
  intros found mc1. rewrite Hharvest. unfold autoScrollAndCollect.
  destruct (autoScroll_loop dom fuel target 0 0 mc) as [mc2|] eqn:R;
    [|discriminate].
  intros [= _ <-]. exact (proj1 (autoScroll_loop_effects _ _ _ _ _ _ _ R)).
Qed.

Lemma fetchFromAPI_without_query_witness :
  fetchFromAPI engagement_only_net
               {| pathname := "/search"; searchParams := [("sort", "new")] |}
               17 2 fresh_machine
  = Some (None, fresh_machine)
  /\ option_map fst
       (harvest engagement_only_net three_dom
                {| pathname := "/search"; searchParams := [("sort", "new")] |}
                17 2 fresh_machine)
     = Some [sample_article; second_article].
Proof.
  destruct (fetchFromAPI_without_query engagement_only_net three_dom
              {| pathname := "/search"; searchParams := [("sort", "new")] |}
              17 2 fresh_machine (or_introl eq_refl)) as (Hapi & Hharvest & _).
  split; [exact Hapi|]. rewrite Hharvest. reflexivity.
Defined.

Lemma autoScrollAndCollect_run dom target mc K c fuel :
  status (scrapingState mc) = Scraping ->
  (forall k, (K <= k)%nat -> length (dom (scans mc + k)%nat) = c) ->
  (K + 16 < fuel)%nat ->
  exists mc',
    autoScrollAndCollect dom fuel target mc = Some mc'
    /\ requests mc' = requests mc
    /\ status (scrapingState mc') = Scraping
    /\ targetCount (scrapingState mc') = targetCount (scrapingState mc)
    /\ message (scrapingState mc') = message (scrapingState mc)
    /\ (scans mc < scans mc' <= scans mc + K + 16)%nat
    /\ (0 <= target ->
        (length (articles (scrapingState mc')) <= Z.to_nat target)%nat
        /\ current (scrapingState mc')
           = Z.of_nat (length (articles (scrapingState mc')))).
Proof.
  intros Hst Hsettled Hfuel.
  destruct (autoScroll_loop_settles dom target (scans mc) K c Hsettled
              (K + 16)%nat 0%nat 0%nat 0%nat mc)
    as (n & mc' & Hn & Hrun & Hout).
  - lia.
  - lia.
  - exact Hst.
  - split; [lia|]. split; [intros j Hj; lia|]. split; lia.
  - unfold MAX_RETRIES. lia.
  - exists mc'. unfold autoScrollAndCollect.
    assert (Hret : autoScroll_loop dom fuel target 0 0 mc = Some mc')
      by (apply Hrun; lia).
    split; [exact Hret|].
    destruct (autoScroll_loop_effects _ _ _ _ _ _ _ Hret)
      as (Hreq & _ & Htc & Hm).
    destruct Hout as (Hsc & Hst' & Hcases).
    split; [exact Hreq|]. split; [exact Hst'|]. split; [exact Htc|].
    split; [exact Hm|]. split; [lia|].
    intros Ht. destruct Hcases as [(Hle & Ha & Hc) | (Hlt & Ha & Hc & _)].
    + assert (E : Z.of_nat (length (articles (scrapingState mc'))) = target)
        by (rewrite Ha; apply slice0_exact; lia).
      split; [lia|]. now rewrite Hc, E.
    + rewrite Ha. split; [lia | exact Hc].
Qed.

(** X11.  Called while the session is scraping, on a document whose article
    count stops changing after some scan [K], [autoScrollAndCollect]
    returns after at least one scan and at most [K + 16], having made no
    request and left the status, the target and the message of the session
    alone; when the target is not negative it keeps at most that many
    articles, and the progress counter is the number of articles kept. *)
Theorem autoScrollAndCollect_effects
        (dom : nat -> list Article) (target : Z) (mc : Machine)
        (K c fuel : nat) :
  status (scrapingState mc) = Scraping ->
  (forall k, (K <= k)%nat -> length (dom (scans mc + k)%nat) = c) ->
  (K + 16 < fuel)%nat ->
  exists mc',
    autoScrollAndCollect dom fuel target mc = Some mc'
    /\ requests mc' = requests mc
    /\ status (scrapingState mc') = Scraping
    /\ targetCount (scrapingState mc') = targetCount (scrapingState mc)
    /\ message (scrapingState mc') = message (scrapingState mc)
    /\ (scans mc < scans mc' <= scans mc + K + 16)%nat
    /\ (0 <= target ->
        (length (articles (scrapingState mc')) <= Z.to_nat target)%nat
        /\ current (scrapingState mc')
           = Z.of_nat (length (articles (scrapingState mc')))).
Proof. exact (autoScrollAndCollect_run dom target mc K c fuel). Qed.

Lemma autoScrollAndCollect_effects_witness :
  exists mc',
    autoScrollAndCollect three_dom 17 2 fresh_machine = Some mc'
    /\ requests mc' = requests fresh_machine
    /\ (length (articles (scrapingState mc')) <= 2)%nat.
Proof.
  destruct (autoScrollAndCollect_effects three_dom 2 fresh_machine 0 3 17)
    as (mc' & Hrun & Hreq & _ & _ & _ & _ & Hlen).
  - reflexivity.
  - intros k _. reflexivity.
  - simpl. lia.
  - exists mc'. split; [exact Hrun|]. split; [exact Hreq|].
    apply Hlen. lia.
Defined.

(** ** The whole run *)

Lemma harvest_returns net dom loc count mc K c fuel :
  status (scrapingState mc) = Scraping ->
  (forall k, (K <= k)%nat -> length (dom (scans mc + k)%nat) = c) ->
  (Z.to_nat count < fuel)%nat ->
  (K + 16 < fuel)%nat ->
  exists found mc1,
    harvest net dom loc fuel count mc = Some (found, mc1)
    /\ articles (scrapingState mc1) = found
    /\ status (scrapingState mc1) = Scraping
    /\ targetCount (scrapingState mc1) = targetCount (scrapingState mc)
    /\ (0 <= count -> (length found <= Z.to_nat count)%nat).
Proof.
  intros Hst Hsettled Hf1 Hf2. unfold harvest.
  assert (Hdom : forall mc0,
            status (scrapingState mc0) = Scraping ->
            scans mc0 = scans mc ->
            targetCount (scrapingState mc0) = targetCount (scrapingState mc) ->
            exists found mc1,
              match autoScrollAndCollect dom fuel count mc0 with
              | Some mc2 => Some (articles (scrapingState mc2), mc2)
              | None => None
              end = Some (found, mc1)
              /\ articles (scrapingState mc1) = found
              /\ status (scrapingState mc1) = Scraping
              /\ targetCount (scrapingState mc1)
                 = targetCount (scrapingState mc)
              /\ (0 <= count -> (length found <= Z.to_nat count)%nat)).
  { intros mc0 Hst0 Hsc0 Htc0.
    destruct (autoScrollAndCollect_run dom count mc0 K c fuel Hst0)
      as (mc2 & Hrun & _ & Hst2 & Htc2 & _ & _ & Hlen);
      [rewrite Hsc0; exact Hsettled | exact Hf2 |].
    rewrite Hrun. exists (articles (scrapingState mc2)), mc2.
    split; [reflexivity|]. split; [reflexivity|]. split; [exact Hst2|].
    split; [congruence|]. intros Ht. exact (proj1 (Hlen Ht)). }
  destruct (String.eqb (getPageType loc) "hashtag");
    [apply Hdom; auto|].
  destruct (fetchFromAPI_run net loc fuel count mc Hf1)
    as (res & mc' & Hrun & (S1 & S2 & S3) & _ & Hsc & _ & Hres).
  rewrite Hrun.
  destruct res as [[|a l]|]; try (apply Hdom; congruence).
  destruct (Hres (a :: l) eq_refl) as (_ & Hlen & _).
  eexists _, _. split; [reflexivity|]. cbn.
  split; [reflexivity|]. split; [congruence|]. split; [exact S2|].
  intros _. exact Hlen.
Qed.

(** X12.  A run launched while the session is scraping, on a document whose
    article count stops changing and with fuel beyond the target, comes to
    an end, and the target of the session is never changed.  When
    [diagnoseDom] throws, the handler of the run puts the session in the
    [error] status with the message of the exception: nothing is requested
    and no file is written.  Otherwise, either nothing was harvested: no
    file is written and the session ends in the [error] status with the
    message that no article could be fetched.  Or the articles of the
    session are rated, each with a number that is neither NaN nor negative,
    [count] of them at most when the count is not negative, and handed to
    [downloadCSV]: if the browser throws nothing the file holds them and the
    session ends in the [completed] status with the progress counter at
    their number; if it throws, the session ends in the [error] status with
    the message of the exception, and the file is written only if the link
    had been clicked. *)
Theorem runScraping_outcome
        (net : nat -> string -> option Response) (dom : nat -> list Article)
        (loc : Location) (now : Clock) (diagnosis : option string)
        (saving : option (bool * string)) (count : Z) (mc : Machine)
        (K c fuel : nat) :
  status (scrapingState mc) = Scraping ->
  (forall k, (K <= k)%nat -> length (dom (scans mc + k)%nat) = c) ->
  (Z.to_nat count < fuel)%nat ->
  (K + 16 < fuel)%nat ->
  exists mc' file,
    runScraping net dom loc now diagnosis saving fuel count mc
    = Some (mc', file)
    /\ targetCount (scrapingState mc') = targetCount (scrapingState mc)
    /\ ((exists msg,
            diagnosis = Some msg /\ file = None /\ mc' = caught msg mc
            /\ status (scrapingState mc') = Error
            /\ message (scrapingState mc') = ("エラー: " ++ msg)%string)
        \/ (diagnosis = None
            /\ file = None
            /\ articles (scrapingState mc') = []
            /\ status (scrapingState mc') = Error
            /\ message (scrapingState mc') = no_data_message)
        \/ (diagnosis = None
            /\ exists rated,
                rated <> []
                /\ map without_rating rated
                   = map without_rating (articles (scrapingState mc'))
                /\ Forall rated_ok rated
                /\ (0 <= count -> (length rated <= Z.to_nat count)%nat)
                /\ ((saving = None
                     /\ file = Some (downloadCSV now rated)
                     /\ status (scrapingState mc') = Completed
                     /\ current (scrapingState mc')
                        = Z.of_nat (length rated)
                     /\ message (scrapingState mc')
                        = completed_message (length rated))
                    \/ (exists clicked msg,
                           saving = Some (clicked, msg)
                           /\ file = (if clicked
                                      then Some (downloadCSV now rated)
                                      else None)
                           /\ status (scrapingState mc') = Error
                           /\ message (scrapingState mc')
                              = ("エラー: " ++ msg)%string)))).
Proof.
  intros Hst Hsettled Hf1 Hf2. unfold runScraping.
  destruct diagnosis as [msg|].
  { eexists _, _. split; [reflexivity|]. split; [reflexivity|].
    left. exists msg. auto. }
  destruct (harvest_returns net dom loc count mc K c fuel Hst Hsettled Hf1 Hf2)
    as (found & mc1 & Hrun & Harts & Hst1 & Htc1 & Hlen).
  rewrite Hrun. destruct found as [|a l].
  { eexists _, _. split; [reflexivity|]. cbn.
    split; [exact Htc1|]. right. left. auto. }
  set (mc2 := set_state (set_message _ (scrapingState mc1)) mc1).
  pose proof (fetchAllLikeRatings_loop_spec net (length (a :: l)) (a :: l)
                0 mc2) as H.
  cbv zeta in H. unfold fetchAllLikeRatings.
  destruct (fetchAllLikeRatings_loop net (length (a :: l)) 0 (a :: l) mc2)
    as [rated mc3].
  cbn [fst snd] in H.
  destruct H as (Hmap & Hok & _ & (T1 & T2 & T3) & _ & _ & _).
  assert (Hl : length rated = length (a :: l))
    by (rewrite <- (length_map without_rating), Hmap; apply length_map).
  assert (Hne : rated <> []) by (intros ->; discriminate).
  assert (Harts' : map without_rating rated
                   = map without_rating (articles (scrapingState mc3))).
  { rewrite T3. cbn. rewrite Harts. exact Hmap. }
  assert (Hbound : 0 <= count -> (length rated <= Z.to_nat count)%nat)
    by (intros Ht; rewrite Hl; exact (Hlen Ht)).
  destruct saving as [[clicked msg]|].
  - eexists _, _. split; [reflexivity|].
    cbn [caught scrapingState set_state set_message set_current set_status
         targetCount status current message articles].
    split; [rewrite T2; exact Htc1|]. right. right.
    split; [reflexivity|]. exists rated.
    split; [exact Hne|]. split; [exact Harts'|]. split; [exact Hok|].
    split; [exact Hbound|]. right. exists clicked, msg. auto.
  - eexists _, _. split; [reflexivity|].
    cbn [scrapingState set_state set_message set_current set_status
         targetCount status current message articles].
    split; [rewrite T2; exact Htc1|]. right. right.
    split; [reflexivity|]. exists rated.
    split; [exact Hne|]. split; [exact Harts'|]. split; [exact Hok|].
    split; [exact Hbound|]. left. auto.
Qed.

Lemma runScraping_outcome_witness :
  status (scrapingState fresh_machine) = Scraping
  /\ exists mc' file,
      runScraping two_note_net settled_dom search_location morning None None
                  17 2 fresh_machine = Some (mc', file)
      /\ targetCount (scrapingState mc') = 30.
Proof.
  split; [reflexivity|].
  destruct (runScraping_outcome two_note_net settled_dom search_location
              morning None None 2 fresh_machine 0 2 17)
    as (mc' & file & Hrun & Htc & _).
  - reflexivity.
  - intros k _. reflexivity.
  - simpl. lia.
  - simpl. lia.
  - exists mc', file. split; [exact Hrun | exact Htc].
Defined.

(** The three ways a run ends: a file and the [completed] status; an
    exception of [diagnoseDom], caught with nothing requested; an exception
    of the browser before the link is clicked, caught with no file. *)
Example runScraping_endings :
  option_map (fun r => (status (scrapingState (fst r)),
                        message (scrapingState (fst r)),
                        option_map filename (snd r)))
    (runScraping two_note_net settled_dom search_location morning None None
                 17 2 fresh_machine)
  = Some (Completed, "2件のデータをCSVに出力しました。",
          Some "note_search_results_20260105_0907.csv")
  /\ option_map (fun r => (status (scrapingState (fst r)),
                           message (scrapingState (fst r)),
                           requests (fst r), snd r))
       (runScraping two_note_net settled_dom search_location morning
                    (Some "substring is not a function") None
                    17 2 fresh_machine)
     = Some (Error, "エラー: substring is not a function", [], None)
  /\ option_map (fun r => (status (scrapingState (fst r)),
                           message (scrapingState (fst r)), snd r))
       (runScraping two_note_net settled_dom search_location morning None
                    (Some (false, "no body")) 17 2 fresh_machine)
     = Some (Error, "エラー: no body", None).
Proof. repeat split; vm_compute; reflexivity. Qed.

(** ** The item container *)

Lemma findArticleContainer_loop_parent {E : Type} (view : E -> Ancestor)
      (parent : option E) :
  forall rounds chain,
    findArticleContainer_loop view rounds chain parent = parent.
Proof.
  induction rounds as [|rounds IH]; intros chain; [reflexivity|].
  cbn [findArticleContainer_loop]. destruct chain as [|el above];
    [reflexivity|].
  destruct (isBody (view el)); [reflexivity|].
  destruct (hasMultiple (view el)); [reflexivity | apply IH].
Qed.

(** X13.  Whatever the ancestors of a link hold, [findArticleContainer]
    answers the parent of the link: the walk up to ten ancestors and the
    search for a second article link in each of them never change the
    result. *)
Theorem findArticleContainer_is_parent
        {E : Type} (view : E -> Ancestor) (ancestors : list E) :
  findArticleContainer view ancestors = hd_error ancestors.
Proof. apply findArticleContainer_loop_parent. Qed.

(** ** The popup *)



(** ** Start requests in a burst *)

Lemma deliver_while_scraping :
  forall msgs st,
    Forall (fun m => in_progress (fst m)) msgs ->
    status st = Scraping ->
    snd (deliver msgs st) = []
    /\ status (fst (fst (deliver msgs st))) = Scraping
    /\ Forall (fun r => r <> Some started) (snd (fst (deliver msgs st))).
Proof.
  induction msgs as [|[steps msg] rest IH]; intros st Hall Hst.
  { cbn. auto. }
  inversion Hall as [|x l Hstep Hrest]; subst. cbn [fst] in Hstep.
  pose proof (Hstep st Hst) as Hst1.
  cbn [deliver].
  assert (Hh : status (state_after (onMessage msg (steps st))) = Scraping
               /\ launched (onMessage msg (steps st)) = None
               /\ reply (onMessage msg (steps st)) <> Some started).
  { destruct msg; cbn [onMessage].
    - rewrite Hst1. cbn. split; [exact Hst1|]. split; [reflexivity|].
      discriminate.
    - cbn. split; [exact Hst1|]. split; [reflexivity | discriminate].
    - cbn. split; [exact Hst1|]. split; [reflexivity | discriminate]. }
  destruct Hh as (H1 & H2 & H3).
  destruct (IH _ Hrest H1) as (I1 & I2 & I3).
  destruct (deliver rest (state_after (onMessage msg (steps st))))
    as [[st' replies] runs].
  cbn [fst snd] in *. rewrite H2.
  split; [exact I1|]. split; [exact I2|]. constructor; assumption.
Qed.

(** X15.  However many messages reach the listener while the run in
    progress stays in the [scraping] status, at most one run is launched:
    the first start request that is accepted launches it, and every later
    one is answered [already_running].  When the session is already
    scraping, none is launched and no request is answered [started]. *)
Theorem deliver_launches_one_run
        (msgs : list ((ScrapingState -> ScrapingState) * Message))
        (st : ScrapingState) :
  Forall (fun m => in_progress (fst m)) msgs ->
  (length (snd (deliver msgs st)) <= 1)%nat
  /\ length (snd (fst (deliver msgs st))) = length msgs
  /\ (status st = Scraping ->
      snd (deliver msgs st) = []
      /\ status (fst (fst (deliver msgs st))) = Scraping
      /\ Forall (fun r => r <> Some started) (snd (fst (deliver msgs st))))
  /\ (snd (deliver msgs st) <> [] ->
      status (fst (fst (deliver msgs st))) = Scraping).
Proof.
  revert st. induction msgs as [|[steps msg] rest IH]; intros st Hall.
  { cbn. split; [lia|]. split; [reflexivity|]. split; [auto|].
    intros H. now elim H. }
  split; [|split; [|split]].
  3:{ intros Hst. now apply deliver_while_scraping. }
  - inversion Hall as [|x l Hstep Hrest]; subst.
    cbn [deliver].
    destruct (launched (onMessage msg (steps st))) as [count|] eqn:L.
    + assert (Hs : status (state_after (onMessage msg (steps st)))
                   = Scraping).
      { destruct msg; cbn [onMessage] in *; try discriminate.
        destruct (Status_eqb (status (steps st)) Scraping);
          [discriminate | reflexivity]. }
      destruct (deliver_while_scraping rest _ Hrest Hs) as (I1 & _).
      destruct (deliver rest (state_after (onMessage msg (steps st))))
        as [[st' replies] runs].
      cbn [fst snd] in *. rewrite I1. cbn. lia.
    + destruct (IH (state_after (onMessage msg (steps st))) Hrest)
        as (I1 & _).
      destruct (deliver rest (state_after (onMessage msg (steps st))))
        as [[st' replies] runs].
      exact I1.
  - inversion Hall as [|x l Hstep Hrest]; subst.
    cbn [deliver].
    destruct (IH (state_after (onMessage msg (steps st))) Hrest)
      as (_ & I2 & _).
    destruct (deliver rest (state_after (onMessage msg (steps st))))
      as [[st' replies] runs].
    cbn [fst snd length] in *. now rewrite I2.
  - inversion Hall as [|x l Hstep Hrest]; subst.
    cbn [deliver].
    destruct (launched (onMessage msg (steps st))) as [count|] eqn:L.
    + assert (Hs : status (state_after (onMessage msg (steps st)))
                   = Scraping).
      { destruct msg; cbn [onMessage] in *; try discriminate.
        destruct (Status_eqb (status (steps st)) Scraping);
          [discriminate | reflexivity]. }
      destruct (deliver_while_scraping rest _ Hrest Hs) as (_ & I2 & _).
      destruct (deliver rest (state_after (onMessage msg (steps st))))
        as [[st' replies] runs].
      intros _. exact I2.
    + destruct (IH (state_after (onMessage msg (steps st))) Hrest)
        as (_ & _ & _ & I4).
      destruct (deliver rest (state_after (onMessage msg (steps st))))
        as [[st' replies] runs].
      exact I4.
Qed.

Lemma deliver_launches_one_run_witness :
  Forall (fun m => in_progress (fst m))
         [(fun st => st, startScraping 5);
          (set_current 3, startScraping 9);
          (set_current 4, getProgress)]
  /\ (length (snd (deliver [(fun st => st, startScraping 5);
                            (set_current 3, startScraping 9);
                            (set_current 4, getProgress)]
                           finished_state)) <= 1)%nat.
Proof.
  assert (H : Forall (fun m => in_progress (fst m))
                [(fun st : ScrapingState => st, startScraping 5);
                 (set_current 3, startScraping 9);
                 (set_current 4, getProgress)]).
  { repeat constructor; intros st Hst; exact Hst. }
  split; [exact H|].
  exact (proj1 (deliver_launches_one_run _ finished_state H)).
Defined.

(** ** The name of the file *)

Lemma is_digits_app a b s t :
  is_digits a s = true -> is_digits b t = true ->
  is_digits (a + b) (s ++ t)%string = true.
Proof.
  unfold is_digits. intros Hs Ht.
  apply andb_true_iff in Hs. destruct Hs as [Hs1 Hs2].
  apply andb_true_iff in Ht. destruct Ht as [Ht1 Ht2].
  apply Nat.eqb_eq in Hs1. apply Nat.eqb_eq in Ht1. subst a b.
  revert Hs2. induction s as [|ch s IH]; intros Hs2.
  - cbn. now rewrite Nat.eqb_refl, Ht2.
  - cbn [all_chars] in Hs2. apply andb_true_iff in Hs2.
    destruct Hs2 as [Hc Hs2]. specialize (IH Hs2).
    apply andb_true_iff in IH. destruct IH as [I1 I2].
    apply Nat.eqb_eq in I1.
    cbn [append String.length all_chars plus]. rewrite I1, Hc, I2.
    now rewrite Nat.eqb_refl.
Qed.

Lemma padStart2_two_digits z :
  0 <= z <= 99 -> is_digits 2 (padStart2 (NumberToString (of_Z z))) = true.
Proof.
  intros Hz.
  assert (H : forallb (fun n => is_digits 2
                         (padStart2 (NumberToString (of_Z (Z.of_nat n)))))
                      (seq 0 100) = true) by (vm_compute; reflexivity).
  rewrite forallb_forall in H. specialize (H (Z.to_nat z)).
  rewrite Z2Nat.id in H by lia. apply H. apply in_seq. lia.
Qed.

Lemma year_four_digits z :
  1000 <= z <= 9999 -> is_digits 4 (NumberToString (of_Z z)) = true.
Proof.
  intros Hz.
  assert (H : forallb (fun n => is_digits 4
                         (NumberToString (of_Z (Z.of_nat n))))
                      (seq (Z.to_nat 1000) (Z.to_nat 9000)) = true)
    by (vm_compute; reflexivity).
  rewrite forallb_forall in H. specialize (H (Z.to_nat z)).
  rewrite Z2Nat.id in H by lia. apply H. apply in_seq. lia.
Qed.

(** X16.  For a clock with a year of four digits, the file is named
    [note_search_results_], eight digits, an underscore, four digits,
    [.csv]: the month (counted from 1), the day, the hour and the minute
    each take two digits, so the names have one length and sort by time. *)
Theorem download_filename_shape (now : Clock) (articles : list Article) :
  clock_valid now ->
  exists ymd hm,
    filename (downloadCSV now articles)
    = ("note_search_results_" ++ ymd ++ "_" ++ hm ++ ".csv")%string
    /\ formatDate now = (ymd ++ "_" ++ hm)%string
    /\ is_digits 8 ymd = true
    /\ is_digits 4 hm = true.
Proof.
  intros (Hy & Hm & Hd & Hh & Hmin).
  exists (NumberToString (of_Z (fullYear now))
          ++ padStart2 (NumberToString (of_Z (month now + 1)))
          ++ padStart2 (NumberToString (of_Z (date now))))%string,
         (padStart2 (NumberToString (of_Z (hours now)))
          ++ padStart2 (NumberToString (of_Z (minutes now))))%string.
  assert (E : formatDate now
              = ((NumberToString (of_Z (fullYear now))
                  ++ padStart2 (NumberToString (of_Z (month now + 1)))
                  ++ padStart2 (NumberToString (of_Z (date now))))
                 ++ "_"
                 ++ padStart2 (NumberToString (of_Z (hours now)))
                 ++ padStart2 (NumberToString (of_Z (minutes now))))%string).
  { unfold formatDate. now rewrite !string_app_assoc. }
  split.
  { unfold downloadCSV. cbn [filename]. rewrite E.
    now rewrite !string_app_assoc. }
  split; [exact E|]. split.
  - apply (is_digits_app 4 4); [apply year_four_digits; lia|].
    apply (is_digits_app 2 2); apply padStart2_two_digits; lia.
  - apply (is_digits_app 2 2); apply padStart2_two_digits; lia.
Qed.

Lemma download_filename_shape_witness :
  clock_valid morning
  /\ exists ymd hm,
      filename (downloadCSV morning [sample_article])
      = ("note_search_results_" ++ ymd ++ "_" ++ hm ++ ".csv")%string
      /\ is_digits 8 ymd = true
      /\ is_digits 4 hm = true.
Proof.
  assert (H : clock_valid morning) by (unfold clock_valid; cbn; lia).
  split; [exact H|].
  destruct (download_filename_shape morning [sample_article] H)
    as (ymd & hm & Hf & _ & H8 & H4).
  exists ymd, hm. split; [exact Hf|]. split; assumption.
Defined.
